(** * Cross-section aligner: threshold grid, matching truncation and the
      per-pair search of [alignCrossSections.py]

    A shallow embedding of [main] (the threshold ranges and the loop over the
    reference files) and of [alignImages] (matching, truncation, estimation),
    with OpenCV, NumPy and the file system taken as an interface.

    Python integers are [Z]; Python and NumPy [float64] values are Rocq's
    primitive binary64 floats; Python exceptions are an explicit result type;
    the side effects of [main] (log file writes, [cv2.imwrite], progress bar,
    calls of [alignImages]) are recorded in an explicit state. *)

From Stdlib Require Import ZArith List Bool Lia Ascii String Floats Sorted Permutation.
Import ListNotations.
Open Scope Z_scope.

(** ** Python preliminaries *)

(** The exceptions that occur in the modelled code.  [KeyboardInterrupt] is
    the only one that is not a subclass of [Exception]. *)
Inductive PyExc : Type :=
| KeyboardInterrupt
| ValueError
| TypeError
| AttributeError
| IndexError
| OverflowError
| UnboundLocalError
| ZeroDivisionError
| CvError.

Definition is_Exception (e : PyExc) : bool :=
  match e with
  | KeyboardInterrupt => false
  | _ => true
  end.

(** Result of evaluating a Python expression that may raise. *)
Inductive res (A : Type) : Type :=
| Ok (a : A)
| Raise (e : PyExc).
Arguments Ok {A} a.
Arguments Raise {A} e.

Definition bind {A B : Type} (r : res A) (k : A -> res B) : res B :=
  match r with
  | Ok a => k a
  | Raise e => Raise e
  end.

Notation "x <- r ;; k" := (bind r (fun x => k))
  (at level 61, r at next level, right associativity).

Fixpoint mapM {A B : Type} (f : A -> res B) (l : list A) : res (list B) :=
  match l with
  | [] => Ok []
  | a :: l' => b <- f a ;; bs <- mapM f l' ;; Ok (b :: bs)
  end.

(** [len(range(lo, hi, step))], as CPython computes it. *)
Definition range_length (lo hi step : Z) : Z :=
  if (0 <? step) && (lo <? hi) then 1 + (hi - 1 - lo) / step
  else if (step <? 0) && (hi <? lo) then 1 + (lo - 1 - hi) / (- step)
  else 0.

(** [list(range(start, stop, step))]; a zero step raises [ValueError]. *)
Definition py_range (start stop step : Z) : res (list Z) :=
  if step =? 0 then Raise ValueError
  else Ok (map (fun k => start + Z.of_nat k * step)
               (seq 0 (Z.to_nat (range_length start stop step)))).

(** [l[i]] on a Python list: negative indices count from the end, anything
    out of range raises [IndexError]. *)
Definition py_index {A : Type} (l : list A) (i : Z) : res A :=
  let n := Z.of_nat (List.length l) in
  let k := if i <? 0 then n + i else i in
  if (0 <=? k) && (k <? n) then
    match nth_error l (Z.to_nat k) with
    | Some a => Ok a
    | None => Raise IndexError
    end
  else Raise IndexError.

(** NumPy's default integer type holds the integers from [- 2^63] up to
    [2^63 - 1]. *)
Definition two63 : Z := 9223372036854775808.

Definition int64 (x : Z) : bool := (- two63 <=? x) && (x <? two63).

(** [np.minimum] of two Python integers.  Both are converted to 64-bit
    integers, and the result is the smaller one.  For an argument that does
    not fit, NumPy 2 raises [OverflowError], which is what is modelled here
    (NumPy 1 makes the result a float for an argument of [2^63] and above,
    which [range] refuses with [TypeError]).  The properties below that
    speak of generated ranges are stated for arguments that fit. *)
Definition np_minimum (x y : Z) : res Z :=
  if int64 x && int64 y then Ok (Z.min x y) else Raise OverflowError.

(** ** The threshold ranges (main, lines 223-230) *)

Module Grid.

(** [[*range(0, maxChange, s), *range(-s, -maxDecrease, -s)]] with
    [maxChange = np.minimum(255 - b, m)] and [maxDecrease = np.minimum(b, m)].
    The negation [-maxDecrease] is that of a 64-bit integer; it is the
    integer negation for every [maxDecrease] above [- 2^63]. *)
Definition tresholdRange (b s m : Z) : res (list Z) :=
  tresholdMaxChange <- np_minimum (255 - b) m ;;
  tresholdMaxDecrease <- np_minimum b m ;;
  up <- py_range 0 tresholdMaxChange s ;;
  down <- py_range (- s) (- tresholdMaxDecrease) (- s) ;;
  Ok (up ++ down).

(** The thresholds and maximal changes that [np.minimum] takes as they are:
    [255 - b], [b] and [m] are 64-bit integers, none of them the least one. *)
Definition representable (b m : Z) : Prop :=
  255 - two63 < b < two63 /\ - two63 < m < two63.

(** The specification's wording of the same sequences: count up from [o] in
    steps of [s] while strictly below [bound] ... *)
Fixpoint count_up (fuel : nat) (o s bound : Z) : list Z :=
  match fuel with
  | O => []
  | S fuel' => if o <? bound then o :: count_up fuel' (o + s) s bound else []
  end.

(** ... and count down from [o] in steps of [s] while strictly above [bound]. *)
Fixpoint count_down (fuel : nat) (o s bound : Z) : list Z :=
  match fuel with
  | O => []
  | S fuel' => if bound <? o then o :: count_down fuel' (o - s) s bound else []
  end.

(** ascending offsets [0, s, 2s, ... < maxIncrease] *)
Definition ascending_spec (s maxIncrease : Z) : list Z :=
  count_up (Z.to_nat maxIncrease) 0 s maxIncrease.

(** descending offsets [-s, -2s, ... > -maxDecrease] *)
Definition descending_spec (s maxDecrease : Z) : list Z :=
  count_down (Z.to_nat maxDecrease) (- s) s (- maxDecrease).

Definition offsets_spec (b s m : Z) : list Z :=
  ascending_spec s (Z.min (255 - b) m) ++ descending_spec s (Z.min b m).

End Grid.

(** ** Floats (Python [float], NumPy [float64]) *)

(** [float(n)] for a list length [n] (below [2^63]). *)
Definition float_of_int (n : Z) : float := PrimFloat.of_uint63 (Uint63.of_Z n).

(** [int(x)]: truncation towards zero; infinities and NaN raise. *)
Definition py_int (x : float) : res Z :=
  match Prim2SF x with
  | S754_zero _ => Ok 0
  | S754_finite sgn mant e =>
      let mag := if 0 <=? e then Z.shiftl (Z.pos mant) e
                 else Z.shiftr (Z.pos mant) (- e) in
      Ok (if sgn then - mag else mag)
  | S754_infinity _ => Raise OverflowError
  | S754_nan => Raise ValueError
  end.

(** [np.sign]: -1, 0 or 1, and NaN for NaN. *)
Definition np_sign (x : float) : float :=
  if PrimFloat.ltb x 0 then (-1)%float
  else if PrimFloat.ltb 0 x then 1%float
  else if PrimFloat.eqb x 0 then 0%float
  else x.

(** [l[:k]] on a Python list. *)
Definition py_prefix {A : Type} (l : list A) (k : Z) : list A :=
  if k <? 0 then firstn (Z.to_nat (Z.of_nat (List.length l) + k)) l
  else firstn (Z.to_nat k) l.

(** ** Matching and truncation (alignImages, lines 364-370) *)

Module Matcher.

(** [cv2.DMatch]; with [NORM_HAMMING] the distance is a number of differing
    bits, kept here as an integer. *)
Record DMatch : Type := mkDMatch {
  queryIdx : Z;
  trainIdx : Z;
  distance : Z
}.

(** [matches.sort(key = lambda x: x.distance)]: Python's sort is stable, so
    its result is that of a stable insertion sort. *)
Fixpoint insert (m : DMatch) (l : list DMatch) : list DMatch :=
  match l with
  | [] => [m]
  | x :: l' => if distance m <=? distance x then m :: x :: l'
               else x :: insert m l'
  end.

Definition sort_by_distance (matches : list DMatch) : list DMatch :=
  fold_right insert [] matches.

(** Ascending by distance. *)
Definition by_distance (x y : DMatch) : Prop := distance x <= distance y.

(** [int(len(matches)*0.9)]; the literal [0.9] is the double
    [0x1.ccccccccccccdp-1]. *)
Definition top90_length (n : Z) : res Z :=
  py_int (PrimFloat.mul (float_of_int n) 0x1.ccccccccccccdp-1%float).

(** The sorted matches and the slice [matches[:int(len(matches)*0.9)]]. *)
Definition top90 (matches : list DMatch) : res (list DMatch) :=
  let sorted := sort_by_distance matches in
  k <- top90_length (Z.of_nat (List.length sorted)) ;;
  Ok (py_prefix sorted k).

(** What the slice leaves out. *)
Definition discarded (matches : list DMatch) : res (list DMatch) :=
  let sorted := sort_by_distance matches in
  k <- top90_length (Z.of_nat (List.length sorted)) ;;
  Ok (skipn (List.length (py_prefix sorted k)) sorted).

(** [ORB_create(5000)]: at most this many keypoints per image, hence at most
    this many cross-checked matches. *)
Definition orb_nfeatures : Z := 5000.

Fixpoint top90_length_ok_upto (k : nat) (n : Z) : bool :=
  match k with
  | O => true
  | S k' =>
      match top90_length n with
      | Ok r => (r =? (9 * n) / 10) && top90_length_ok_upto k' (n + 1)
      | Raise _ => false
      end
  end.

End Matcher.

(** ** alignImages (lines 345-394) over an OpenCV / NumPy interface *)

Section AlignImages.

Variable Image : Type.
Variable Descriptors : Type.

Record KeyPoint : Type := mkKeyPoint { pt : float * float }.

(** The 2x3 matrix returned by [cv2.estimateAffinePartial2D]. *)
Record Mat23 : Type := mkMat23 {
  m00 : float; m01 : float; m02 : float;
  m10 : float; m11 : float; m12 : float
}.

(** The library calls of [alignImages].  A Python [None] result is [None]
    here; a call that may raise returns a [res]. *)
Record OpenCV : Type := mkOpenCV {
  imread : string -> option Image;
  cvtColor : Image -> res Image;
  shape : Image -> Z * Z;
  threshold : Image -> Z -> Image;
  detectAndCompute : Image -> list KeyPoint * option Descriptors;
  bfMatch : option Descriptors -> option Descriptors -> res (list Matcher.DMatch);
  findHomography :
    list (float * float) -> list (float * float) ->
    res (option (list float) * option (list Z));
  estimateAffinePartial2D :
    list (float * float) -> list (float * float) ->
    res (option Mat23 * option (list Z));
  warpAffine : Image -> Mat23 -> Z * Z -> Image;
  addWeighted : Image -> float -> Image -> float -> float -> Image;
  np_arctan2 : float -> float -> float;
  np_degrees : float -> float
}.

Record AlignResult : Type := mkAlignResult {
  res_scaleFactor : float;
  res_rotationAngle : float;
  res_transformedImage : Image;
  res_alignedImageOverlapedWithRefImage : Image
}.

Variable cv : OpenCV.

(** Lines 347-357: open both images, grayscale, binarise.  [cv2.imread]
    returns [None] for an unreadable file and [cv2.cvtColor] raises on it. *)
Definition openImages (tresholdReferenceImage tresholdTargetImage : Z)
    (targetFilesDirectory referenceFilesDirectory referenceFile : string)
  : res (Image * Image * (Z * Z) * Image * Image) :=
  let targetImageColor := imread cv (targetFilesDirectory ++ referenceFile) in
  let referenceImageColor := imread cv (referenceFilesDirectory ++ referenceFile) in
  match targetImageColor, referenceImageColor with
  | Some targetColor, Some referenceColor =>
      targetGray <- cvtColor cv targetColor ;;
      referenceGray <- cvtColor cv referenceColor ;;
      let '(height, width) := shape cv referenceGray in
      Ok (targetColor, referenceColor, (height, width),
          threshold cv targetGray tresholdTargetImage,
          threshold cv referenceGray tresholdReferenceImage)
  | _, _ => Raise CvError
  end.

(** Lines 359-374: detect, match, sort, keep the top 90%, collect the points. *)
Definition matchedPoints (targetBW referenceBW : Image)
  : res (list (float * float) * list (float * float)) :=
  let '(keyPoints1, descriptor1) := detectAndCompute cv targetBW in
  let '(keyPoints2, descriptor2) := detectAndCompute cv referenceBW in
  matches <- bfMatch cv descriptor1 descriptor2 ;;
  matches <- Matcher.top90 matches ;;
  src_pts <- mapM (fun m => k <- py_index keyPoints1 (Matcher.queryIdx m) ;; Ok (pt k)) matches ;;
  dst_pts <- mapM (fun m => k <- py_index keyPoints2 (Matcher.trainIdx m) ;; Ok (pt k)) matches ;;
  Ok (src_pts, dst_pts).

(** Lines 376-385: both estimators, then [mask.ravel()] and the indexing of
    the rigid matrix, neither of which is guarded against [None]. *)
Definition estimate (src_pts dst_pts : list (float * float))
  : res (Mat23 * float * float) :=
  hm <- findHomography cv src_pts dst_pts ;;
  rm <- estimateAffinePartial2D cv src_pts dst_pts ;;
  let '(transformationMatrix, mask) := hm in
  let '(transformationRigidMatrix, rigid_mask) := rm in
  match mask with
  | None => Raise AttributeError
  | Some matchesMask =>
      match transformationRigidMatrix with
      | None => Raise TypeError
      | Some M =>
          let rotationAngle :=
            np_degrees cv (np_arctan2 cv (PrimFloat.opp (m01 M)) (m00 M)) in
          let scaleFactor :=
            PrimFloat.mul (np_sign (m00 M))
              (PrimFloat.sqrt (PrimFloat.add (PrimFloat.mul (m00 M) (m00 M))
                                             (PrimFloat.mul (m01 M) (m01 M)))) in
          Ok (M, rotationAngle, scaleFactor)
      end
  end.

Definition alignImages (tresholdReferenceImage tresholdTargetImage : Z)
    (targetFilesDirectory referenceFilesDirectory referenceFile : string)
  : res AlignResult :=
  opened <- openImages tresholdReferenceImage tresholdTargetImage
              targetFilesDirectory referenceFilesDirectory referenceFile ;;
  let '(targetImageColor, referenceImageColor, (height, width),
        targetBW, referenceBW) := opened in
  pts <- matchedPoints targetBW referenceBW ;;
  let '(src_pts, dst_pts) := pts in
  est <- estimate src_pts dst_pts ;;
  let '(M, rotationAngle, scaleFactor) := est in
  let transformedImage := warpAffine cv targetImageColor M (width, height) in
  let alignedImageOverlapedWithRefImage :=
    addWeighted cv referenceImageColor 0x1p-1%float transformedImage
                0x1.6666666666666p-1%float 0%float in
  Ok (mkAlignResult scaleFactor rotationAngle transformedImage
                    alignedImageOverlapedWithRefImage).

End AlignImages.

Arguments imread {Image Descriptors} _ _.
Arguments cvtColor {Image Descriptors} _ _.
Arguments shape {Image Descriptors} _ _.
Arguments threshold {Image Descriptors} _ _ _.
Arguments detectAndCompute {Image Descriptors} _ _.
Arguments bfMatch {Image Descriptors} _ _ _.
Arguments findHomography {Image Descriptors} _ _ _.
Arguments estimateAffinePartial2D {Image Descriptors} _ _ _.
Arguments warpAffine {Image Descriptors} _ _ _ _.
Arguments addWeighted {Image Descriptors} _ _ _ _ _ _.
Arguments np_arctan2 {Image Descriptors} _ _ _.
Arguments np_degrees {Image Descriptors} _ _.
Arguments openImages {Image Descriptors} _ _ _ _ _ _.
Arguments matchedPoints {Image Descriptors} _ _ _.
Arguments estimate {Image Descriptors} _ _ _.
Arguments alignImages {Image Descriptors} _ _ _ _ _ _.

(** ** main (lines 219-302): the loop over the reference files *)

Section Main.

Variable Image : Type.

(** The function called at line 272; [alignImages] above is the instance the
    program uses. *)
Variable alignImagesF : Z -> Z -> string -> string -> string -> res (AlignResult Image).

(** [cv2.imwrite] at lines 287 and 290: [None] when the call returns, the
    exception when it raises (as it does for a file name whose extension has
    no writer). *)
Variable imwriteF : string -> Image -> option PyExc.

(** The values fixed by the command line and the set-up code; none of them is
    assigned inside the loop. *)
Record Config : Type := mkConfig {
  referenceFilesDirectory : string;
  targetFilesDirectory : string;
  tresholdReferenceImages : Z;
  tresholdTargetImages : Z;
  tresholdChangeSteps : Z;
  tresholdMaxChange : Z;
  scaleFactorBoundaries : float * float;
  suppressOverlapImages : bool
}.

(** What the run reads from its surroundings. *)
Record Env : Type := mkEnv {
  argv : list string;
  cwd : string;
  abspath : string -> string;
  logFileTime : string;              (* datetime.now() at line 190 *)
  logFilePath : string -> string;    (* the log file opened by lines 190-217,
                                        its name made from that reading *)
  pythonVersion : string;
  opencvVersion : string;
  numpyVersion : string;
  isfile : string -> bool;
  referenceFiles : list string;
  startTime : string;   (* datetime.now() at line 250 *)
  finishTime : string   (* datetime.now() at line 301 *)
}.

Record Header : Type := mkHeader {
  h_argv : list string;
  h_cwd : string;
  h_referenceFilesDirectory : string;
  h_targetFilesDirectory : string;
  h_outputDirectory : string;
  h_logFilePath : string;
  h_tresholdReferenceImages : Z;
  h_tresholdTargetImages : Z;
  h_tresholdRangeReferenceImages : list Z;
  h_tresholdRangeTargetImages : list Z;
  h_scaleFactorBoundaries : float * float;
  h_pythonVersion : string;
  h_opencvVersion : string;
  h_numpyVersion : string;
  h_start : string
}.

(** One [logFile.write] each; the fields are the interpolated values. *)
Inductive LogLine : Type :=
| LogHeader (h : Header)
| LogAligned (referenceFile : string) (tresholdReference tresholdTarget : Z)
             (rotationAngle scaleFactor : float)
| LogUnsuccessful (referenceFile : string)
| LogError (referenceFile : string) (e : PyExc)
| LogFinished (t : string).

(** The variables assigned inside the loop, and the effects so far. *)
Record MainState : Type := mkMainState {
  outputDirectory : string;
  fileNumber : Z;
  scaleFactor : float;
  (* rotationAngle, transformedImage, alignedImageOverlapedWithRefImage;
     [None] while they are unbound *)
  alignment : option (float * Image * Image);
  logFile : list LogLine;                 (* logFile.write, in order *)
  written : list (string * Image);        (* cv2.imwrite calls that returned, in order *)
  progressBar : list (Z * Z * string);    (* updateProgress(fileNumber / len, name) *)
  attempts : list (Z * Z * string)        (* calls of alignImages, in order *)
}.

Definition set_outputDirectory (d : string) (st : MainState) : MainState :=
  mkMainState d (fileNumber st) (scaleFactor st) (alignment st) (logFile st)
              (written st) (progressBar st) (attempts st).

Definition set_fileNumber (n : Z) (st : MainState) : MainState :=
  mkMainState (outputDirectory st) n (scaleFactor st) (alignment st) (logFile st)
              (written st) (progressBar st) (attempts st).

Definition set_scaleFactor (x : float) (st : MainState) : MainState :=
  mkMainState (outputDirectory st) (fileNumber st) x (alignment st) (logFile st)
              (written st) (progressBar st) (attempts st).

Definition assign_result (r : AlignResult Image) (st : MainState) : MainState :=
  mkMainState (outputDirectory st) (fileNumber st) (res_scaleFactor Image r)
              (Some (res_rotationAngle Image r, res_transformedImage Image r,
                     res_alignedImageOverlapedWithRefImage Image r))
              (logFile st) (written st) (progressBar st) (attempts st).

Definition log_write (l : LogLine) (st : MainState) : MainState :=
  mkMainState (outputDirectory st) (fileNumber st) (scaleFactor st) (alignment st)
              (logFile st ++ [l]) (written st) (progressBar st) (attempts st).

(** A call of [cv2.imwrite] that returned. *)
Definition imwrite (path : string) (img : Image) (st : MainState) : MainState :=
  mkMainState (outputDirectory st) (fileNumber st) (scaleFactor st) (alignment st)
              (logFile st) (written st ++ [(path, img)]) (progressBar st) (attempts st).

Definition updateProgress (num den : Z) (name : string) (st : MainState) : MainState :=
  mkMainState (outputDirectory st) (fileNumber st) (scaleFactor st) (alignment st)
              (logFile st) (written st) (progressBar st ++ [(num, den, name)]) (attempts st).

Definition record_attempt (a : Z * Z * string) (st : MainState) : MainState :=
  mkMainState (outputDirectory st) (fileNumber st) (scaleFactor st) (alignment st)
              (logFile st) (written st) (progressBar st) (attempts st ++ [a]).

(** How a block of statements ends: normally, or by an exception that leaves
    the state reached so far. *)
Inductive Outcome : Type :=
| Done (st : MainState)
| Raised (e : PyExc) (st : MainState).

(** [scaleFactorBoundaries[0] <= scaleFactor <= scaleFactorBoundaries[1]] *)
Definition inBounds (cfg : Config) (x : float) : bool :=
  PrimFloat.leb (fst (scaleFactorBoundaries cfg)) x
  && PrimFloat.leb x (snd (scaleFactorBoundaries cfg)).

(** The checks of lines 132-139 that let the run go on. *)
Definition boundariesAccepted (cfg : Config) : bool :=
  negb (PrimFloat.ltb (fst (scaleFactorBoundaries cfg)) 0)
  && negb (PrimFloat.leb (snd (scaleFactorBoundaries cfg)) (fst (scaleFactorBoundaries cfg))).

(** The inner loop, lines 270-276. *)
Fixpoint for_j (cfg : Config) (referenceFile : string) (i : Z) (js : list Z)
    (st : MainState) : Outcome :=
  match js with
  | [] => Done st
  | j :: js' =>
      if negb (inBounds cfg (scaleFactor st)) then
        let tRef := tresholdReferenceImages cfg + i in
        let tTgt := tresholdTargetImages cfg + j in
        let st1 := record_attempt (tRef, tTgt, referenceFile) st in
        match alignImagesF tRef tTgt (targetFilesDirectory cfg ++ "/")
                (referenceFilesDirectory cfg ++ "/") referenceFile with
        | Raise e => Raised e st1
        | Ok r =>
            let st2 := assign_result r st1 in
            if inBounds cfg (scaleFactor st2) then
              Done (log_write (LogAligned referenceFile tRef tTgt
                                 (res_rotationAngle Image r) (scaleFactor st2)) st2)
            else for_j cfg referenceFile i js' st2
        end
      else for_j cfg referenceFile i js' st
  end.

(** The outer loop, lines 269-278. *)
Fixpoint for_i (cfg : Config) (referenceFile : string) (irange jrange : list Z)
    (st : MainState) : Outcome :=
  match irange with
  | [] => Done st
  | i :: irange' =>
      match for_j cfg referenceFile i jrange st with
      | Raised e st' => Raised e st'
      | Done st' =>
          if inBounds cfg (scaleFactor st') then Done st'
          else for_i cfg referenceFile irange' jrange st'
      end
  end.

(** Lines 280-293, after the loops.  A [cv2.imwrite] that raises leaves the
    block before the progress bar is updated. *)
Definition afterSearch (cfg : Config) (nFiles : Z) (referenceFile : string)
    (st : MainState) : Outcome :=
  if negb (inBounds cfg (scaleFactor st)) then
    Done (updateProgress (fileNumber st) nFiles referenceFile
            (log_write (LogUnsuccessful referenceFile) st))
  else
    let st1 := set_outputDirectory (outputDirectory st ++ "/") st in
    match alignment st1 with
    | None => Raised UnboundLocalError st1
    | Some (rotationAngle, transformedImage, alignedImageOverlapedWithRefImage) =>
        let path := (outputDirectory st1 ++ referenceFile)%string in
        match imwriteF path transformedImage with
        | Some e => Raised e st1
        | None =>
            let st2 := imwrite path transformedImage st1 in
            if negb (suppressOverlapImages cfg) then
              let overlapPath :=
                (outputDirectory st2 ++ "overlap/" ++ referenceFile)%string in
              match imwriteF overlapPath alignedImageOverlapedWithRefImage with
              | Some e => Raised e st2
              | None =>
                  let st3 := imwrite overlapPath alignedImageOverlapedWithRefImage st2 in
                  Done (updateProgress (fileNumber st3) nFiles referenceFile st3)
              end
            else Done (updateProgress (fileNumber st2) nFiles referenceFile st2)
        end
    end.

(** The [try] block of lines 265-293. *)
Definition tryBlock (cfg : Config) (nFiles : Z) (irange jrange : list Z)
    (referenceFile : string) (st : MainState) : Outcome :=
  match for_i cfg referenceFile irange jrange st with
  | Raised e st' => Raised e st'
  | Done st' => afterSearch cfg nFiles referenceFile st'
  end.

(** One iteration of the loop over [referenceFiles], lines 260-298.  Only
    [KeyboardInterrupt] leaves it as an exception. *)
Definition processFile (cfg : Config) (isfile_ : string -> bool) (nFiles : Z)
    (irange jrange : list Z) (referenceFile : string) (st : MainState) : Outcome :=
  let st := set_fileNumber (fileNumber st + 1) st in
  if isfile_ (targetFilesDirectory cfg ++ "/" ++ referenceFile)%string then
    let st := set_scaleFactor (-1)%float st in
    match tryBlock cfg nFiles irange jrange referenceFile st with
    | Done st' => Done st'
    | Raised e st' =>
        if is_Exception e then
          Done (log_write (LogError referenceFile e) st')
        else Raised e st'
    end
  else Done st.

(** Lines 259-298. *)
Fixpoint forFiles (cfg : Config) (isfile_ : string -> bool) (nFiles : Z)
    (irange jrange : list Z) (files : list string) (st : MainState) : Outcome :=
  match files with
  | [] => Done st
  | referenceFile :: files' =>
      match processFile cfg isfile_ nFiles irange jrange referenceFile st with
      | Raised e st' => Raised e st'
      | Done st' => forFiles cfg isfile_ nFiles irange jrange files' st'
      end
  end.

Definition header (cfg : Config) (env : Env) (outDir : string) (irange jrange : list Z)
  : Header :=
  mkHeader (argv env) (abspath env (cwd env))
           (abspath env (referenceFilesDirectory cfg))
           (abspath env (targetFilesDirectory cfg))
           (abspath env outDir) (abspath env (logFilePath env (logFileTime env)))
           (tresholdReferenceImages cfg) (tresholdTargetImages cfg) irange jrange
           (scaleFactorBoundaries cfg)
           (pythonVersion env) (opencvVersion env) (numpyVersion env)
           (startTime env).

(** The state at line 219: the output directory chosen by the set-up code, an
    empty log, nothing bound yet. *)
Definition initialState (outDir : string) : MainState :=
  mkMainState outDir 0 (-1)%float None [] [] [] [].

(** Lines 219-302.  A zero step makes [range] raise, and a maximal change
    that is no 64-bit integer makes [np.minimum] raise, before anything is
    logged.  The source evaluates the four [np.minimum] calls (lines
    223-226) before the two ranges (lines 229-230); for thresholds that
    passed the checks of lines 118-125 this is the same as building one range
    after the other, since then only the maximal change can make
    [np.minimum] raise, and it does so at line 223. *)
Definition main (cfg : Config) (env : Env) (outDir : string) : Outcome :=
  let st := initialState outDir in
  match Grid.tresholdRange (tresholdReferenceImages cfg)
          (tresholdChangeSteps cfg) (tresholdMaxChange cfg),
        Grid.tresholdRange (tresholdTargetImages cfg)
          (tresholdChangeSteps cfg) (tresholdMaxChange cfg) with
  | Ok irange, Ok jrange =>
      let nFiles := Z.of_nat (List.length (referenceFiles env)) in
      let st := log_write (LogHeader (header cfg env outDir irange jrange)) st in
      if nFiles =? 0 then Raised ZeroDivisionError st
      else
        let st := updateProgress 0 nFiles EmptyString st in
        match forFiles cfg (isfile env) nFiles irange jrange (referenceFiles env) st with
        | Raised e st' => Raised e st'
        | Done st' => Done (log_write (LogFinished (finishTime env)) st')
        end
  | Raise e, _ => Raised e st
  | _, Raise e => Raised e st
  end.

(** The threshold pairs in the order the two loops reach them. *)
Definition grid (cfg : Config) (referenceFile : string) (irange jrange : list Z)
  : list (Z * Z * string) :=
  flat_map (fun i => map (fun j => (tresholdReferenceImages cfg + i,
                                    tresholdTargetImages cfg + j,
                                    referenceFile)) jrange) irange.

(** The call of line 272 at one grid cell. *)
Definition attempt (cfg : Config) (c : Z * Z * string) : res (AlignResult Image) :=
  let '(tRef, tTgt, referenceFile) := c in
  alignImagesF tRef tTgt (targetFilesDirectory cfg ++ "/")
               (referenceFilesDirectory cfg ++ "/") referenceFile.

(** A cell whose attempt returns a scale factor outside the boundaries. *)
Definition rejected (cfg : Config) (c : Z * Z * string) : Prop :=
  exists r, attempt cfg c = Ok r /\ inBounds cfg (res_scaleFactor Image r) = false.

(** The search written as one traversal of the grid with an early return at
    the first accepted cell, the form the specification describes. *)
Fixpoint firstFit (cfg : Config) (cells : list (Z * Z * string))
    (st : MainState) : Outcome :=
  match cells with
  | [] => Done st
  | c :: cells' =>
      let st1 := record_attempt c st in
      match attempt cfg c with
      | Raise e => Raised e st1
      | Ok r =>
          let st2 := assign_result r st1 in
          if inBounds cfg (scaleFactor st2) then
            Done (log_write (LogAligned (snd c) (fst (fst c)) (snd (fst c))
                               (res_rotationAngle Image r) (scaleFactor st2)) st2)
          else firstFit cfg cells' st2
      end
  end.

(** The state after an attempt that did not end the search. *)
Definition afterAttempt (cfg : Config) (st : MainState) (c : Z * Z * string)
  : MainState :=
  match attempt cfg c with
  | Ok r => assign_result r (record_attempt c st)
  | Raise _ => record_attempt c st
  end.

Definition afterAttempts (cfg : Config) (cells : list (Z * Z * string))
    (st : MainState) : MainState :=
  fold_left (afterAttempt cfg) cells st.

(** The same state with [prefix] written to the log beforehand. *)
Definition prepend_log (prefix : list LogLine) (st : MainState) : MainState :=
  mkMainState (outputDirectory st) (fileNumber st) (scaleFactor st) (alignment st)
              (prefix ++ logFile st) (written st) (progressBar st) (attempts st).

Definition map_outcome (f : MainState -> MainState) (o : Outcome) : Outcome :=
  match o with
  | Done st => Done (f st)
  | Raised e st => Raised e (f st)
  end.

Definition final (o : Outcome) : MainState :=
  match o with
  | Done st => st
  | Raised _ st => st
  end.

Definition raised (o : Outcome) : option PyExc :=
  match o with
  | Done _ => None
  | Raised e _ => Some e
  end.

(** A log line with what comes from the clock blanked: the name of the log
    file (line 190, written at line 241), the start (line 250) and the end
    (line 301). *)
Definition untimed (l : LogLine) : LogLine :=
  match l with
  | LogHeader h =>
      LogHeader (mkHeader (h_argv h) (h_cwd h) (h_referenceFilesDirectory h)
                   (h_targetFilesDirectory h) (h_outputDirectory h)
                   EmptyString (h_tresholdReferenceImages h)
                   (h_tresholdTargetImages h) (h_tresholdRangeReferenceImages h)
                   (h_tresholdRangeTargetImages h) (h_scaleFactorBoundaries h)
                   (h_pythonVersion h) (h_opencvVersion h) (h_numpyVersion h) EmptyString)
  | LogFinished _ => LogFinished EmptyString
  | _ => l
  end.

(** The environment with other clock readings at lines 190, 250 and 301. *)
Definition at_time (named start finish : string) (env : Env) : Env :=
  mkEnv (argv env) (cwd env) (abspath env) named (logFilePath env)
        (pythonVersion env) (opencvVersion env) (numpyVersion env) (isfile env)
        (referenceFiles env) start finish.

(** Every progress update so far was out of [n] files. *)
Definition denominators (n : Z) (st : MainState) : Prop :=
  Forall (fun p => snd (fst p) = n) (progressBar st).

End Main.

Arguments res_scaleFactor {Image} _.
Arguments res_rotationAngle {Image} _.
Arguments res_transformedImage {Image} _.
Arguments res_alignedImageOverlapedWithRefImage {Image} _.
Arguments mkAlignResult {Image} _ _ _ _.
Arguments outputDirectory {Image} _.
Arguments fileNumber {Image} _.
Arguments scaleFactor {Image} _.
Arguments alignment {Image} _.
Arguments logFile {Image} _.
Arguments written {Image} _.
Arguments progressBar {Image} _.
Arguments attempts {Image} _.
Arguments mkMainState {Image} _ _ _ _ _ _ _ _.
Arguments set_outputDirectory {Image} _ _.
Arguments set_fileNumber {Image} _ _.
Arguments set_scaleFactor {Image} _ _.
Arguments assign_result {Image} _ _.
Arguments log_write {Image} _ _.
Arguments imwrite {Image} _ _ _.
Arguments updateProgress {Image} _ _ _ _.
Arguments record_attempt {Image} _ _.
Arguments Done {Image} _.
Arguments Raised {Image} _ _.
Arguments for_j {Image} _ _ _ _ _ _.
Arguments for_i {Image} _ _ _ _ _ _.
Arguments afterSearch {Image} _ _ _ _ _.
Arguments tryBlock {Image} _ _ _ _ _ _ _ _.
Arguments processFile {Image} _ _ _ _ _ _ _ _ _.
Arguments forFiles {Image} _ _ _ _ _ _ _ _ _.
Arguments initialState {Image} _.
Arguments main {Image} _ _ _ _ _.
Arguments attempt {Image} _ _ _.
Arguments rejected {Image} _ _ _.
Arguments firstFit {Image} _ _ _ _.
Arguments afterAttempt {Image} _ _ _ _.
Arguments afterAttempts {Image} _ _ _ _.
Arguments prepend_log {Image} _ _.
Arguments map_outcome {Image} _ _.
Arguments final {Image} _.
Arguments raised {Image} _.
Arguments denominators {Image} _ _.

(** ** A small concrete run

    Images are numbers.  A thresholded image remembers where it came from
    (1 for the target directory, 2 for the reference directory) and its
    threshold.  The target binarised at 100 and the reference binarised at 90
    have no keypoints; the keypoints of the target binarised at 102 are spread
    twice as wide as the reference's; at every other threshold they coincide
    with the reference's.  The matcher is called with the target's
    descriptors as the query: without them it returns no match, and with
    them but without the reference's it raises, as [BFMatcher.match] does. *)

Module Demo.

Definition keyPoints (width : float) : list KeyPoint :=
  [mkKeyPoint (0%float, 0%float); mkKeyPoint (width, 0%float);
   mkKeyPoint (0%float, 10%float); mkKeyPoint (10%float, 10%float);
   mkKeyPoint (5%float, 3%float)].

Definition matches : list Matcher.DMatch :=
  [Matcher.mkDMatch 0 0 3; Matcher.mkDMatch 1 1 1; Matcher.mkDMatch 2 2 2;
   Matcher.mkDMatch 3 3 5; Matcher.mkDMatch 4 4 4].

Definition cv : OpenCV Z nat :=
  mkOpenCV Z nat
    (fun path => if String.prefix "tgt/" path then Some 1 else Some 2)
    (fun img => Ok img)
    (fun _ => (64, 64))
    (fun img t => img * 1000 + t)
    (fun bw => if (bw =? 1100) || (bw =? 2090) then ([], None)
               else if bw =? 1102 then (keyPoints 2%float, Some 5%nat)
               else (keyPoints 1%float, Some 5%nat))
    (fun d1 d2 => match d1, d2 with
                  | None, _ => Ok []
                  | Some _, None => Raise CvError
                  | Some _, Some _ => Ok matches
                  end)
    (fun src dst => if (List.length src <? 4)%nat then Raise CvError
                    else Ok (Some [], Some [1; 1; 1; 1]))
    (fun src dst => match src with
                    | (x, _) :: _ :: _ =>
                        Ok (Some (mkMat23 x 0%float 0%float 0%float x 0%float),
                            Some [1; 1; 1; 1])
                    | _ => Ok (None, None)
                    end)
    (fun img M size => img)
    (fun a wa b wb g => 10 * a + b)
    (fun y x => 0%float)
    (fun x => x).

(** Scale factor boundaries 0.95 and 1.05. *)
Definition cfg (tresholdReference tresholdTarget : Z) : Config :=
  mkConfig "ref" "tgt" tresholdReference tresholdTarget 2 20
           (0x1.e666666666666p-1%float, 0x1.0cccccccccccdp+0%float) false.

Definition isfile (path : string) : bool :=
  String.eqb path "tgt/a.png" || String.eqb path "tgt/b.png".

(** The log file is named within the second in which the run starts. *)
Definition env (files : list string) (start finish : string) : Env :=
  mkEnv ["alignCrossSections.py"%string] "/work" (fun p => p)
        start (fun t => "/work/tgt_Log " ++ t ++ ".txt")%string
        "3.12" "4.10.0" "2.1.0" isfile files start finish.

(** Every image can be written. *)
Definition write (path : string) (img : Z) : option PyExc := None.

Definition align := alignImages cv.

End Demo.

(** ** Further parts of the program *)







(** [k] slashes. *)
Fixpoint slashes (k : nat) : string :=
  match k with
  | O => EmptyString
  | S k' => String "/"%char (slashes k')
  end.

(** The names under which the images of [referenceFile] can be written. *)
Definition outputNames (referenceFile : string) : list string :=
  [referenceFile; ("overlap/" ++ referenceFile)%string].

(** A [cv2.imwrite] whose outcome for the images of [referenceFile] does not
    depend on the directory they are written to (whether there is a writer
    depends on the extension of the file name). *)
Definition directoryIndependent {Image : Type}
    (W : string -> Image -> option PyExc) (referenceFile : string) : Prop :=
  forall d d' name img,
    In name (outputNames referenceFile) ->
    W ((d ++ "/") ++ name)%string img = W ((d' ++ "/") ++ name)%string img.

(** The paths of the images named [images] under the directory [dir]. *)
Definition underDirectory {Image : Type} (dir : string)
    (images : list (string * Image)) : list (string * Image) :=
  map (fun ni => ((dir ++ "/") ++ fst ni, snd ni)%string) images.

(** The state in which the search of one file starts (lines 260 and 263). *)
Definition started {Image : Type} (st : MainState Image) : MainState Image :=
  set_scaleFactor (-1)%float (set_fileNumber (fileNumber st + 1) st).

(** From [st] to [st'] only the search variables, the log and the attempts
    changed, the last two by appending. *)
Definition searchFrame {Image : Type} (st st' : MainState Image) : Prop :=
  outputDirectory st' = outputDirectory st
  /\ fileNumber st' = fileNumber st
  /\ written st' = written st
  /\ progressBar st' = progressBar st
  /\ (exists lines, logFile st' = logFile st ++ lines)
  /\ (exists cells, attempts st' = attempts st ++ cells).

(** Both thresholds of an attempt are grey levels. *)
Definition thresholdsInRange (a : Z * Z * string) : Prop :=
  0 <= fst (fst a) <= 255 /\ 0 <= snd (fst a) <= 255.

(** [path] is in the directory [outDir] (followed by slashes) and has one of
    the names of [referenceFile]. *)
Definition writtenFor (outDir referenceFile path : string) : Prop :=
  exists k name,
    In name (outputNames referenceFile)
    /\ path = (outDir ++ slashes (S k) ++ name)%string.

(** The output directory variable is [outDir] followed by slashes and every
    image written so far is in [outDir] under a name of a file of [all]. *)
Definition underOutDir {Image : Type} (outDir : string) (all : list string)
    (st : MainState Image) : Prop :=
  (exists k, outputDirectory st = (outDir ++ slashes k)%string)
  /\ Forall (fun p => exists f, In f all /\ writtenFor outDir f (fst p)) (written st).

(** *** updateProgress, line 325: the file name shown beside the bar *)

Module Progress.

(** [name[-15:]] *)
Definition last15 (name : string) : string :=
  String.substring (String.length name - 15) 15 name.

Definition referenceFileToReport (currentReferenceFileName : string) : string :=
  if (15 <? String.length currentReferenceFileName)%nat
  then ("..." ++ last15 currentReferenceFileName)%string
  else last15 currentReferenceFileName.

End Progress.

(** *** query_yes_no (lines 331-343) *)

Module Query.

(** [str.lower] on the ASCII letters; the keys of [answers] are ASCII. *)
Definition lower_char (c : Ascii.ascii) : Ascii.ascii :=
  let n := Ascii.nat_of_ascii c in
  if ((65 <=? n) && (n <=? 90))%nat then Ascii.ascii_of_nat (n + 32) else c.

Fixpoint lower (s : string) : string :=
  match s with
  | EmptyString => EmptyString
  | String c s' => String (lower_char c) (lower s')
  end.

(** The dictionary [answers]. *)
Definition answers (answer : string) : option bool :=
  if String.eqb answer "yes" then Some true
  else if String.eqb answer "y" then Some true
  else if String.eqb answer "no" then Some false
  else if String.eqb answer "n" then Some false
  else None.

(** The text of line 343; it ends with a line feed. *)
Definition please : string :=
  ("Please type 'yes' or 'y', or 'no' or 'n'."
   ++ String (Ascii.ascii_of_nat 10) EmptyString)%string.

(** What one line of input means: [Some b] ends the loop with [b], [None]
    asks again. *)
Definition verdict (line : string) : option bool :=
  let answer := lower line in
  if String.eqb answer EmptyString then Some true else answers answer.

Inductive Reply : Type :=
| Answer (b : bool)
| EndOfInput.   (* input() raises EOFError *)

(** The loop over the lines the user types; the result comes with the lines
    not read and everything written to stdout. *)
Fixpoint query_yes_no (question : string) (input : list string)
    (stdout : list string) : Reply * list string * list string :=
  match input with
  | [] => (EndOfInput, [], stdout ++ [question])
  | line :: input' =>
      let stdout := stdout ++ [question] in
      let answer := lower line in
      if String.eqb answer EmptyString then (Answer true, input', stdout)
      else match answers answer with
           | Some b => (Answer b, input', stdout)
           | None => query_yes_no question input' (stdout ++ [please])
           end
  end.

(** What is written for the lines that are asked again. *)
Fixpoint reprompts (question : string) (n : nat) : list string :=
  match n with
  | O => []
  | S n' => question :: please :: reprompts question n'
  end.

End Query.

(** *** The checks of the arguments (main, lines 85-91 and 101-139) *)

Module Options.

(** [tresholdReferenceImages] after the option loop: -1 unless the option was
    given, [abs(int(arg))] when it was. *)
Definition thresholdOption (arg : option Z) : Z :=
  match arg with
  | None => -1
  | Some n => Z.abs n
  end.

(** The message printed and the exit status, or [None] when the run goes on.
    [sys.exit()] without an argument is status 0. *)
Definition checkArguments (exists_ : string -> bool) (abspath : string -> string)
    (referenceFilesDirectory targetFilesDirectory : string)
    (tresholdReferenceImages tresholdTargetImages : Z)
    (scaleFactorBoundaries : list float) : option (string * Z) :=
  if String.eqb referenceFilesDirectory EmptyString
     || negb (exists_ referenceFilesDirectory)
  then Some ("Error: reference folder does not exist."%string, 0)
  else if String.eqb targetFilesDirectory EmptyString
          || negb (exists_ targetFilesDirectory)
  then Some ("Error: target folder does not exist."%string, 0)
  else if String.eqb (abspath referenceFilesDirectory) (abspath targetFilesDirectory)
  then Some ("Error: reference and target folder should be different."%string, 0)
  else if negb ((0 <=? tresholdReferenceImages) && (tresholdReferenceImages <=? 255))
  then Some ("Error: the reference threshold should be between 0 and 255."%string, 1)
  else if negb ((0 <=? tresholdTargetImages) && (tresholdTargetImages <=? 255))
  then Some ("Error: the target threshold should be between 0 and 255."%string, 1)
  else
    match scaleFactorBoundaries with
    | [low; high] =>
        if PrimFloat.ltb low 0
        then Some ("Error: the lower boundary should not be smaller than 0."%string, 1)
        else if PrimFloat.leb high low
        then Some ("Error: the upper boundary should be greater than the lower boundary."%string, 1)
        else None
    | _ => Some ("Error: please provide a lower and an upper boundary."%string, 1)
    end.

End Options.

(** *** Further concrete instances *)

Module Demo2.

(** Ctrl-C while [b.png] is being aligned. *)
Definition interrupted (tRef tTgt : Z) (tdir rdir f : string)
  : res (AlignResult Z) :=
  if String.eqb f "b.png" then Raise KeyboardInterrupt
  else Demo.align tRef tTgt tdir rdir f.

(** Every scale factor is 2: no cell of the grid is accepted. *)
Definition twice (tRef tTgt : Z) (tdir rdir f : string) : res (AlignResult Z) :=
  Ok (mkAlignResult 2%float 0%float 1 21).



End Demo2.

(** * Properties *)

(** ** The threshold ranges *)

Module GridFacts.
Import Grid.

Lemma range_length_up_step (a b s : Z) :
  0 < s -> a < b -> range_length (a + s) b s = range_length a b s - 1.
Proof.
  intros Hs Hab. unfold range_length.
  replace (0 <? s) with true by (symmetry; apply Z.ltb_lt; lia).
  replace (a <? b) with true by (symmetry; apply Z.ltb_lt; lia).
  cbn [andb].
  destruct (Z.ltb_spec (a + s) b) as [H | H].
  - replace (b - 1 - a) with (b - 1 - (a + s) + 1 * s) by lia.
    rewrite Z.div_add by lia. lia.
  - rewrite (Z.div_small (b - 1 - a) s) by lia.
    replace (s <? 0) with false by (symmetry; apply Z.ltb_ge; lia).
    reflexivity.
Qed.

Lemma range_length_up_empty (a b s : Z) :
  0 < s -> b <= a -> range_length a b s = 0.
Proof.
  intros Hs Hab. unfold range_length.
  replace (a <? b) with false by (symmetry; apply Z.ltb_ge; lia).
  replace (s <? 0) with false by (symmetry; apply Z.ltb_ge; lia).
  rewrite andb_false_r. reflexivity.
Qed.

Lemma range_length_up_pos (a b s : Z) :
  0 < s -> a < b -> 0 < range_length a b s.
Proof.
  intros Hs Hab. unfold range_length.
  replace (0 <? s) with true by (symmetry; apply Z.ltb_lt; lia).
  replace (a <? b) with true by (symmetry; apply Z.ltb_lt; lia).
  cbn [andb].
  assert (0 <= (b - 1 - a) / s) by (apply Z.div_pos; lia). lia.
Qed.

Lemma range_length_down_step (a b s : Z) :
  0 < s -> b < a -> range_length (a - s) b (- s) = range_length a b (- s) - 1.
Proof.
  intros Hs Hab. unfold range_length.
  replace (0 <? - s) with false by (symmetry; apply Z.ltb_ge; lia).
  replace (- s <? 0) with true by (symmetry; apply Z.ltb_lt; lia).
  replace (b <? a) with true by (symmetry; apply Z.ltb_lt; lia).
  cbn [andb]. rewrite Z.opp_involutive.
  destruct (Z.ltb_spec b (a - s)) as [H | H].
  - replace (a - 1 - b) with (a - s - 1 - b + 1 * s) by lia.
    rewrite Z.div_add by lia. lia.
  - rewrite (Z.div_small (a - 1 - b) s) by lia. reflexivity.
Qed.

Lemma range_length_down_empty (a b s : Z) :
  0 < s -> a <= b -> range_length a b (- s) = 0.
Proof.
  intros Hs Hab. unfold range_length.
  replace (0 <? - s) with false by (symmetry; apply Z.ltb_ge; lia).
  replace (b <? a) with false by (symmetry; apply Z.ltb_ge; lia).
  rewrite andb_false_r. reflexivity.
Qed.

Lemma range_length_down_pos (a b s : Z) :
  0 < s -> b < a -> 0 < range_length a b (- s).
Proof.
  intros Hs Hab. unfold range_length.
  replace (0 <? - s) with false by (symmetry; apply Z.ltb_ge; lia).
  replace (- s <? 0) with true by (symmetry; apply Z.ltb_lt; lia).
  replace (b <? a) with true by (symmetry; apply Z.ltb_lt; lia).
  cbn [andb]. rewrite Z.opp_involutive.
  assert (0 <= (a - 1 - b) / s) by (apply Z.div_pos; lia). lia.
Qed.

(** The elements of a range, one after the other. *)
Lemma range_elements_cons (a step : Z) (n : nat) :
  map (fun k => a + Z.of_nat k * step) (seq 0 (S n)) =
  a :: map (fun k => (a + step) + Z.of_nat k * step) (seq 0 n).
Proof.
  cbn [seq map]. f_equal; [lia |].
  rewrite <- seq_shift, map_map.
  apply map_ext. intros k. lia.
Qed.

(** Counting up with enough fuel lists the range. *)
Lemma count_up_range (s b : Z) (Hs : 0 < s) :
  forall (fuel : nat) (a : Z),
    (Z.to_nat (range_length a b s) <= fuel)%nat ->
    count_up fuel a s b =
    map (fun k => a + Z.of_nat k * s) (seq 0 (Z.to_nat (range_length a b s))).
Proof.
  induction fuel as [| fuel IH]; intros a Hfuel.
  - assert (Z.to_nat (range_length a b s) = 0%nat) as -> by lia. reflexivity.
  - cbn [count_up]. destruct (Z.ltb_spec a b) as [Hab | Hab].
    + pose proof (range_length_up_pos a b s Hs Hab) as Hpos.
      pose proof (range_length_up_step a b s Hs Hab) as Hstep.
      assert (Z.to_nat (range_length a b s)
              = S (Z.to_nat (range_length (a + s) b s))) as Hlen by lia.
      rewrite Hlen, range_elements_cons. f_equal.
      apply IH. lia.
    + rewrite range_length_up_empty by lia. reflexivity.
Qed.

Lemma count_down_range (s b : Z) (Hs : 0 < s) :
  forall (fuel : nat) (a : Z),
    (Z.to_nat (range_length a b (- s)) <= fuel)%nat ->
    count_down fuel a s b =
    map (fun k => a + Z.of_nat k * (- s))
        (seq 0 (Z.to_nat (range_length a b (- s)))).
Proof.
  induction fuel as [| fuel IH]; intros a Hfuel.
  - assert (Z.to_nat (range_length a b (- s)) = 0%nat) as -> by lia. reflexivity.
  - cbn [count_down]. destruct (Z.ltb_spec b a) as [Hab | Hab].
    + pose proof (range_length_down_pos a b s Hs Hab) as Hpos.
      pose proof (range_length_down_step a b s Hs Hab) as Hstep.
      assert (Z.to_nat (range_length a b (- s))
              = S (Z.to_nat (range_length (a - s) b (- s)))) as Hlen by lia.
      rewrite Hlen, range_elements_cons. f_equal.
      replace (a + - s) with (a - s) by lia.
      apply IH. lia.
    + rewrite range_length_down_empty by lia. reflexivity.
Qed.

(** The fuel of [ascending_spec] and [descending_spec] is enough. *)
Lemma range_length_up_le (b s : Z) :
  0 < s -> range_length 0 b s <= Z.max 0 b.
Proof.
  intros Hs. destruct (Z_lt_le_dec 0 b) as [Hb | Hb].
  - unfold range_length.
    replace (0 <? s) with true by (symmetry; apply Z.ltb_lt; lia).
    replace (0 <? b) with true by (symmetry; apply Z.ltb_lt; lia).
    cbn [andb].
    assert ((b - 1 - 0) / s <= b - 1 - 0) by (apply Z.div_le_upper_bound; nia).
    lia.
  - rewrite range_length_up_empty by lia. lia.
Qed.

Lemma range_length_down_le (d s : Z) :
  0 < s -> range_length (- s) (- d) (- s) <= Z.max 0 d.
Proof.
  intros Hs. destruct (Z_lt_le_dec (- d) (- s)) as [Hd | Hd].
  - unfold range_length.
    replace (0 <? - s) with false by (symmetry; apply Z.ltb_ge; lia).
    replace (- s <? 0) with true by (symmetry; apply Z.ltb_lt; lia).
    replace (- d <? - s) with true by (symmetry; apply Z.ltb_lt; lia).
    cbn [andb]. rewrite Z.opp_involutive.
    assert ((- s - 1 - - d) / s <= - s - 1 - - d) by (apply Z.div_le_upper_bound; nia).
    lia.
  - rewrite range_length_down_empty by lia. lia.
Qed.

Lemma py_range_ascending (s bound : Z) :
  0 < s -> py_range 0 bound s = Ok (ascending_spec s bound).
Proof.
  intros Hs. unfold py_range, ascending_spec.
  replace (s =? 0) with false by (symmetry; apply Z.eqb_neq; lia).
  rewrite (count_up_range s bound Hs); [reflexivity |].
  pose proof (range_length_up_le bound s Hs). lia.
Qed.

Lemma py_range_descending (s d : Z) :
  0 < s -> py_range (- s) (- d) (- s) = Ok (descending_spec s d).
Proof.
  intros Hs. unfold py_range, descending_spec.
  replace (- s =? 0) with false by (symmetry; apply Z.eqb_neq; lia).
  rewrite (count_down_range s (- d) Hs); [reflexivity |].
  pose proof (range_length_down_le d s Hs). lia.
Qed.

Lemma int64_true (x : Z) : int64 x = true <-> - two63 <= x < two63.
Proof.
  unfold int64. rewrite andb_true_iff, Z.leb_le, Z.ltb_lt. reflexivity.
Qed.

Lemma representable_int64 (b m : Z) :
  representable b m ->
  int64 (255 - b) = true /\ int64 b = true /\ int64 m = true.
Proof.
  unfold representable. rewrite !int64_true. unfold two63. lia.
Qed.

(** [np.minimum] raises, or it is the minimum. *)
Lemma np_minimum_cases (x y : Z) :
  (int64 x = true /\ int64 y = true /\ np_minimum x y = Ok (Z.min x y))
  \/ ((int64 x = false \/ int64 y = false) /\ np_minimum x y = Raise OverflowError).
Proof.
  unfold np_minimum.
  destruct (int64 x), (int64 y); cbn [andb]; auto.
Qed.

(** With a positive step a threshold range is the specification's sequence,
    or [np.minimum] raised. *)
Lemma tresholdRange_cases (b s m : Z) :
  0 < s ->
  tresholdRange b s m = Ok (offsets_spec b s m)
  \/ tresholdRange b s m = Raise OverflowError.
Proof.
  intros Hs. unfold tresholdRange, offsets_spec.
  destruct (np_minimum_cases (255 - b) m) as [(_ & _ & ->) | [_ ->]];
    [| right; reflexivity].
  destruct (np_minimum_cases b m) as [(_ & _ & ->) | [_ ->]];
    [| right; reflexivity].
  left. cbn [bind].
  rewrite py_range_ascending, py_range_descending by assumption.
  reflexivity.
Qed.

Lemma tresholdRange_Ok (b s m : Z) (range : list Z) :
  0 < s -> tresholdRange b s m = Ok range -> range = offsets_spec b s m.
Proof.
  intros Hs H. destruct (tresholdRange_cases b s m Hs) as [H' | H'];
    rewrite H' in H; [injection H as <-; reflexivity | discriminate].
Qed.

Lemma np_minimum_representable (b m : Z) :
  representable b m ->
  np_minimum (255 - b) m = Ok (Z.min (255 - b) m)
  /\ np_minimum b m = Ok (Z.min b m).
Proof.
  intros H. apply representable_int64 in H as (H1 & H2 & H3).
  unfold np_minimum. rewrite H1, H2, H3. split; reflexivity.
Qed.

Lemma tresholdRange_spec (b s m : Z) :
  0 < s -> representable b m -> tresholdRange b s m = Ok (offsets_spec b s m).
Proof.
  intros Hs Hr. unfold tresholdRange, offsets_spec.
  destruct (np_minimum_representable b m Hr) as [-> ->]. cbn [bind].
  rewrite py_range_ascending, py_range_descending by assumption.
  reflexivity.
Qed.

(** Grey levels and the maximal changes below [2^63] are representable. *)
Lemma grey_representable (b m : Z) :
  0 <= b <= 255 -> 0 <= m < two63 -> representable b m.
Proof. unfold representable, two63. lia. Qed.

Lemma count_up_bounds (s bound : Z) :
  0 < s -> forall fuel a o, In o (count_up fuel a s bound) -> a <= o < bound.
Proof.
  intros Hs. induction fuel as [| fuel IH]; intros a o Hin; cbn [count_up] in Hin.
  - contradiction.
  - destruct (Z.ltb_spec a bound) as [Hab | Hab]; [| contradiction].
    destruct Hin as [<- | Hin]; [lia |].
    apply IH in Hin. lia.
Qed.

Lemma count_down_bounds (s bound : Z) :
  0 < s -> forall fuel a o, In o (count_down fuel a s bound) -> bound < o <= a.
Proof.
  intros Hs. induction fuel as [| fuel IH]; intros a o Hin; cbn [count_down] in Hin.
  - contradiction.
  - destruct (Z.ltb_spec bound a) as [Hab | Hab]; [| contradiction].
    destruct Hin as [<- | Hin]; [lia |].
    apply IH in Hin. lia.
Qed.

(** The step of zero that [abs(int(arg))] lets through makes [range] raise. *)
Lemma tresholdRange_zero_step (b m : Z) :
  representable b m -> tresholdRange b 0 m = Raise ValueError.
Proof.
  intros Hr. unfold tresholdRange.
  destruct (np_minimum_representable b m Hr) as [-> ->]. reflexivity.
Qed.

(** Below 255 the ascending half is not empty and starts at offset 0. *)
Lemma offsets_spec_head_below_255 (b s m : Z) :
  0 <= b < 255 -> 0 < s -> 0 < m ->
  exists rest, offsets_spec b s m = 0 :: rest.
Proof.
  intros Hb Hs Hm.
  unfold offsets_spec, ascending_spec.
  assert (0 < Z.min (255 - b) m) as Hpos by lia.
  destruct (Z.to_nat (Z.min (255 - b) m)) as [| fuel] eqn:Hf; [lia |].
  cbn [count_up].
  replace (0 <? Z.min (255 - b) m) with true by (symmetry; apply Z.ltb_lt; lia).
  eexists. reflexivity.
Qed.

Lemma tresholdRange_head_below_255 (b s m : Z) :
  0 <= b < 255 -> 0 < s -> 0 < m < two63 ->
  exists rest, tresholdRange b s m = Ok (0 :: rest).
Proof.
  intros Hb Hs Hm.
  rewrite tresholdRange_spec by (try apply grey_representable; lia).
  destruct (offsets_spec_head_below_255 b s m) as [rest ->]; try lia.
  eexists. reflexivity.
Qed.

End GridFacts.

Module GridSpecFacts.
Import Grid GridFacts.

(** The specification's ascending offsets are exactly the multiples of the
    step below the bound: the fuel never cuts the sequence short. *)
Lemma count_up_multiples (s bound : Z) :
  0 < s ->
  forall fuel a o, In o (count_up fuel a s bound) ->
                   exists k, 0 <= k /\ o = a + k * s.
Proof.
  intros Hs. induction fuel as [| fuel IH]; intros a o Hin; cbn [count_up] in Hin.
  - contradiction.
  - destruct (a <? bound); [| contradiction].
    destruct Hin as [<- | Hin].
    + exists 0. lia.
    + apply IH in Hin. destruct Hin as (k & Hk & ->).
      exists (k + 1). lia.
Qed.

Lemma ascending_spec_In (s bound o : Z) :
  0 < s ->
  In o (ascending_spec s bound) <-> exists k, 0 <= k /\ o = k * s /\ o < bound.
Proof.
  intros Hs. split.
  - intros Hin. unfold ascending_spec in Hin.
    pose proof (count_up_bounds s bound Hs _ _ _ Hin) as Hb.
    apply (count_up_multiples s bound Hs) in Hin.
    destruct Hin as (k & Hk & ->). exists k. lia.
  - intros (k & Hk & -> & Hlt).
    pose proof (py_range_ascending s bound Hs) as Hr.
    unfold py_range in Hr.
    replace (s =? 0) with false in Hr by (symmetry; apply Z.eqb_neq; lia).
    injection Hr as <-.
    apply in_map_iff. exists (Z.to_nat k). split; [lia |].
    apply in_seq. split; [lia |]. cbn.
    assert (0 < bound) by nia.
    unfold range_length.
    replace (0 <? s) with true by (symmetry; apply Z.ltb_lt; lia).
    replace (0 <? bound) with true by (symmetry; apply Z.ltb_lt; lia).
    cbn [andb].
    assert (k <= (bound - 1 - 0) / s) by (apply Z.div_le_lower_bound; nia).
    lia.
Qed.

Lemma count_down_multiples (s bound : Z) :
  0 < s ->
  forall fuel a o, In o (count_down fuel a s bound) ->
                   exists k, 0 <= k /\ o = a - k * s.
Proof.
  intros Hs. induction fuel as [| fuel IH]; intros a o Hin; cbn [count_down] in Hin.
  - contradiction.
  - destruct (bound <? a); [| contradiction].
    destruct Hin as [<- | Hin].
    + exists 0. lia.
    + apply IH in Hin. destruct Hin as (k & Hk & ->).
      exists (k + 1). lia.
Qed.

Lemma descending_spec_In (s d o : Z) :
  0 < s ->
  In o (descending_spec s d) <-> exists k, 1 <= k /\ o = - (k * s) /\ - d < o.
Proof.
  intros Hs. split.
  - intros Hin. unfold descending_spec in Hin.
    pose proof (count_down_bounds s (- d) Hs _ _ _ Hin) as Hb.
    apply (count_down_multiples s (- d) Hs) in Hin.
    destruct Hin as (k & Hk & ->). exists (k + 1). lia.
  - intros (k & Hk & -> & Hlt).
    pose proof (py_range_descending s d Hs) as Hr.
    unfold py_range in Hr.
    replace (- s =? 0) with false in Hr by (symmetry; apply Z.eqb_neq; lia).
    injection Hr as <-.
    apply in_map_iff. exists (Z.to_nat (k - 1)).
    split; [rewrite Z2Nat.id by lia; ring |].
    apply in_seq. split; [lia |]. cbn.
    unfold range_length.
    replace (0 <? - s) with false by (symmetry; apply Z.ltb_ge; lia).
    replace (- s <? 0) with true by (symmetry; apply Z.ltb_lt; lia).
    replace (- d <? - s) with true by (symmetry; apply Z.ltb_lt; nia).
    cbn [andb]. rewrite Z.opp_involutive.
    assert (k - 1 <= (- s - 1 - - d) / s) by (apply Z.div_le_lower_bound; nia).
    lia.
Qed.

End GridSpecFacts.

(** C6. Grid generation formula: for a positive step, and a base threshold
    and a max change that NumPy holds as 64-bit integers, the generated
    offset sequence is the ascending offsets 0, s, 2s, ... strictly below
    min(255-b, m) followed by the descending offsets -s, -2s, ... strictly
    above -min(b, m); for b=100, s=2, m=20 it is 0,2,...,18 followed by
    -2,-4,...,-18. *)
Theorem C6_grid_generation_formula (b s m : Z) :
  0 < s -> Grid.representable b m ->
  Grid.tresholdRange b s m =
    Ok (Grid.ascending_spec s (Z.min (255 - b) m)
        ++ Grid.descending_spec s (Z.min b m))
  /\ Grid.tresholdRange 100 2 20 =
       Ok [0; 2; 4; 6; 8; 10; 12; 14; 16; 18;
           -2; -4; -6; -8; -10; -12; -14; -16; -18].
Proof.
  intros Hs Hr. split.
  - apply GridFacts.tresholdRange_spec; assumption.
  - reflexivity.
Qed.

Lemma C6_grid_generation_formula_witness :
  Grid.tresholdRange 250 3 20 = Ok [0; 3; -3; -6; -9; -12; -15; -18].
Proof.
  destruct (C6_grid_generation_formula 250 3 20) as [H _];
    [lia | unfold Grid.representable, two63; lia |].
  rewrite H. reflexivity.
Defined.

(** C6 as stated, for every step and every max change, fails: with the step
    0 that the option parsing lets through [range] raises [ValueError], and
    with the max change [2^63] [np.minimum] fails; neither run generates a
    sequence, while the specification's formula describes one. *)
Lemma C6_counterexample :
  Grid.tresholdRange 100 0 20 = Raise ValueError
  /\ Grid.tresholdRange 100 0 20 <>
       Ok (Grid.ascending_spec 0 (Z.min (255 - 100) 20)
           ++ Grid.descending_spec 0 (Z.min 100 20))
  /\ (forall range, Grid.tresholdRange 100 2 two63 <> Ok range).
Proof.
  split; [reflexivity |]. split.
  - discriminate.
  - intros range H. discriminate H.
Qed.

(** C5. Grid bounds: for a base threshold b in [0,255], a positive step and
    a positive max change, every offset o of the generated threshold range
    satisfies 0 <= b + o <= 255; and the range is generated, without an
    exception, whenever the max change is below 2^63 (a larger one is not a
    64-bit integer for [np.minimum]). *)
Theorem C5_grid_bounds (b s m : Z) :
  0 <= b <= 255 -> 0 < s -> 0 < m ->
  (forall range, Grid.tresholdRange b s m = Ok range ->
                 forall o, In o range -> 0 <= b + o <= 255)
  /\ (m < two63 -> exists range, Grid.tresholdRange b s m = Ok range).
Proof.
  intros Hb Hs Hm. split.
  - intros range Hrange o Hin.
    apply (GridFacts.tresholdRange_Ok b s m range Hs) in Hrange. subst range.
    unfold Grid.offsets_spec in Hin.
    apply in_app_or in Hin. destruct Hin as [Hin | Hin].
    + apply (GridFacts.count_up_bounds s _ Hs) in Hin. lia.
    + apply (GridFacts.count_down_bounds s _ Hs) in Hin. lia.
  - intros Hlt. exists (Grid.offsets_spec b s m).
    apply GridFacts.tresholdRange_spec; [exact Hs |].
    apply GridFacts.grey_representable; lia.
Qed.

Lemma C5_grid_bounds_witness :
  exists range,
    Grid.tresholdRange 100 2 20 = Ok range
    /\ forall o, In o range -> 0 <= 100 + o <= 255.
Proof.
  destruct (C5_grid_bounds 100 2 20) as (Hbound & Hex); try lia.
  destruct Hex as [range Hrange]; [unfold two63; lia |].
  exists range. split; [exact Hrange | exact (Hbound range Hrange)].
Defined.

(** C4. With the base threshold 255 the ascending half of the range is empty:
    the range starts at offset -2 and offset 0 is not in it, so no attempt
    uses the base threshold. *)
Theorem C4_base_255_has_no_offset_zero :
  Grid.tresholdRange 255 2 20 = Ok [-2; -4; -6; -8; -10; -12; -14; -16; -18]
  /\ (forall range, Grid.tresholdRange 255 2 20 = Ok range ->
                    hd_error range = Some (-2) /\ ~ In 0 range).
Proof.
  split; [reflexivity |].
  intros range H. vm_compute in H. injection H as <-.
  split; [reflexivity |].
  cbn. intros Hin. repeat (destruct Hin as [Hin | Hin]; [discriminate |]).
  exact Hin.
Qed.

(** ** Matching and truncation *)

Module MatcherFacts.
Import Matcher.

Lemma insert_perm (m : DMatch) (l : list DMatch) :
  Permutation (m :: l) (insert m l).
Proof.
  induction l as [| x l IH]; cbn [insert].
  - apply Permutation_refl.
  - destruct (distance m <=? distance x).
    + apply Permutation_refl.
    + eapply perm_trans; [apply perm_swap |].
      apply perm_skip. exact IH.
Qed.

Lemma sort_perm (l : list DMatch) : Permutation l (sort_by_distance l).
Proof.
  induction l as [| m l IH]; cbn.
  - apply perm_nil.
  - eapply perm_trans; [apply perm_skip; exact IH |].
    apply insert_perm.
Qed.

Lemma sort_length (l : list DMatch) :
  List.length (sort_by_distance l) = List.length l.
Proof. symmetry. apply Permutation_length, sort_perm. Qed.

Lemma insert_sorted (m : DMatch) (l : list DMatch) :
  StronglySorted by_distance l -> StronglySorted by_distance (insert m l).
Proof.
  induction 1 as [| x l Hl IH Hx]; cbn [insert].
  - constructor; constructor.
  - destruct (Z.leb_spec (distance m) (distance x)) as [Hle | Hgt].
    + constructor; [constructor; assumption |].
      constructor; [exact Hle |].
      eapply Forall_impl; [| exact Hx].
      unfold by_distance. intros; lia.
    + constructor; [exact IH |].
      eapply Permutation_Forall; [apply insert_perm |].
      constructor; [unfold by_distance; lia | exact Hx].
Qed.

Lemma sort_sorted (l : list DMatch) :
  StronglySorted by_distance (sort_by_distance l).
Proof.
  induction l as [| m l IH]; cbn.
  - constructor.
  - apply insert_sorted. exact IH.
Qed.

Lemma sorted_app_inv (l1 l2 : list DMatch) :
  StronglySorted by_distance (l1 ++ l2) ->
  StronglySorted by_distance l1
  /\ forall x y, In x l1 -> In y l2 -> distance x <= distance y.
Proof.
  induction l1 as [| a l1 IH]; cbn; intros H.
  - split; [constructor | intros x y []].
  - inversion H as [| ? ? Hs Hall]; subst.
    destruct (IH Hs) as [Hs1 Hcross].
    apply Forall_app in Hall. destruct Hall as [Ha1 Ha2].
    split; [constructor; assumption |].
    intros x y [<- | Hx] Hy.
    + rewrite Forall_forall in Ha2. apply Ha2. exact Hy.
    + apply Hcross; assumption.
Qed.

Lemma top90_length_pointwise :
  forall (k : nat) (n i : Z),
    top90_length_ok_upto k n = true ->
    n <= i < n + Z.of_nat k ->
    top90_length i = Ok ((9 * i) / 10).
Proof.
  induction k as [| k IH]; intros n i Hok Hi; [lia |].
  cbn [top90_length_ok_upto] in Hok.
  destruct (top90_length n) as [r | e] eqn:Hn; [| discriminate].
  apply andb_prop in Hok. destruct Hok as [Hr Hrest].
  destruct (Z.eq_dec i n) as [-> | Hne].
  - apply Z.eqb_eq in Hr. rewrite Hn, Hr. reflexivity.
  - apply (IH (n + 1)); [exact Hrest | lia].
Qed.

(** [int(n * 0.9)] evaluated in binary64 for every length the matcher can
    return. *)
Lemma top90_length_checked :
  top90_length_ok_upto (Z.to_nat (orb_nfeatures + 1)) 0 = true.
Proof. vm_compute. reflexivity. Qed.

Lemma top90_length_floor (n : Z) :
  0 <= n <= orb_nfeatures -> top90_length n = Ok ((9 * n) / 10).
Proof.
  intros Hn. unfold orb_nfeatures in Hn.
  apply (top90_length_pointwise (Z.to_nat (orb_nfeatures + 1)) 0);
    [apply top90_length_checked | unfold orb_nfeatures; lia].
Qed.

End MatcherFacts.

(** C7. Truncation policy: for a raw correspondence list of size N (at most
    the 5000 features ORB is created with), the slice keeps exactly
    floor(0.9 N) matches, sorted ascending by distance; what it discards are
    the other ceil(0.1 N) matches, none of which has a smaller distance than a
    kept one; this holds for every N, however small. *)
Theorem C7_truncation_policy (matches : list Matcher.DMatch) :
  Z.of_nat (List.length matches) <= Matcher.orb_nfeatures ->
  exists kept dropped,
    Matcher.top90 matches = Ok kept
    /\ Matcher.discarded matches = Ok dropped
    /\ Z.of_nat (List.length kept) = (9 * Z.of_nat (List.length matches)) / 10
    /\ Z.of_nat (List.length dropped) = (Z.of_nat (List.length matches) + 9) / 10
    /\ StronglySorted Matcher.by_distance kept
    /\ Permutation matches (kept ++ dropped)
    /\ (forall x y, In x kept -> In y dropped ->
                    Matcher.distance x <= Matcher.distance y).
Proof.
  intros HN.
  assert (0 <= Z.of_nat (List.length matches)) as HN0 by lia.
  set (N := Z.of_nat (List.length matches)) in *.
  set (sorted := Matcher.sort_by_distance matches).
  assert (List.length sorted = List.length matches) as Hlen
      by apply MatcherFacts.sort_length.
  assert (Matcher.top90_length (Z.of_nat (List.length sorted)) = Ok ((9 * N) / 10))
    as Hk by (rewrite Hlen; apply MatcherFacts.top90_length_floor; lia).
  assert (0 <= (9 * N) / 10 <= N) as Hrange
      by (Z.div_mod_to_equations; lia).
  assert (py_prefix sorted ((9 * N) / 10) = firstn (Z.to_nat ((9 * N) / 10)) sorted)
    as Hprefix.
  { unfold py_prefix.
    replace ((9 * N) / 10 <? 0) with false by (symmetry; apply Z.ltb_ge; lia).
    reflexivity. }
  assert (List.length (firstn (Z.to_nat ((9 * N) / 10)) sorted)
          = Z.to_nat ((9 * N) / 10)) as Hkl
      by (apply firstn_length_le; lia).
  exists (firstn (Z.to_nat ((9 * N) / 10)) sorted),
         (skipn (Z.to_nat ((9 * N) / 10)) sorted).
  pose proof (MatcherFacts.sort_sorted matches) as Hsorted.
  fold sorted in Hsorted.
  rewrite <- (firstn_skipn (Z.to_nat ((9 * N) / 10)) sorted) in Hsorted.
  apply MatcherFacts.sorted_app_inv in Hsorted.
  destruct Hsorted as [Hs Hcross].
  repeat split.
  - unfold Matcher.top90. fold sorted. rewrite Hk. cbn [bind].
    rewrite Hprefix. reflexivity.
  - unfold Matcher.discarded. fold sorted. rewrite Hk. cbn [bind].
    rewrite Hprefix, Hkl. reflexivity.
  - rewrite Hkl. lia.
  - rewrite length_skipn, Hlen. fold N. Z.div_mod_to_equations. lia.
  - exact Hs.
  - rewrite firstn_skipn. apply MatcherFacts.sort_perm.
  - exact Hcross.
Qed.

Lemma C7_truncation_policy_witness :
  exists kept dropped,
    Matcher.top90 [Matcher.mkDMatch 0 0 7] = Ok kept
    /\ Matcher.discarded [Matcher.mkDMatch 0 0 7] = Ok dropped
    /\ Z.of_nat (List.length kept) = 0
    /\ Z.of_nat (List.length dropped) = 1.
Proof.
  destruct (C7_truncation_policy [Matcher.mkDMatch 0 0 7])
    as (kept & dropped & Hk & Hd & Hlk & Hld & _).
  - vm_compute. discriminate.
  - exists kept, dropped. repeat split; assumption.
Defined.

(** ** The search over the grid *)

Section SearchFacts.

Variable Image : Type.
Variable F : Z -> Z -> string -> string -> string -> res (AlignResult Image).
Variable W : string -> Image -> option PyExc.

(** The initial scale factor -1 is outside every interval the checks of
    lines 132-139 accept. *)
Lemma Prim2SF_zero : Prim2SF 0%float = S754_zero false.
Proof. vm_compute. reflexivity. Qed.

Lemma Prim2SF_minus_one :
  Prim2SF (-1)%float = S754_finite true 4503599627370496 (-52).
Proof. vm_compute. reflexivity. Qed.

Lemma default_scaleFactor_rejected (cfg : Config) :
  boundariesAccepted cfg = true -> inBounds cfg (-1)%float = false.
Proof.
  unfold boundariesAccepted, inBounds. intros H.
  apply andb_prop in H. destruct H as [Hlow _].
  apply negb_true_iff in Hlow.
  apply andb_false_intro1.
  revert Hlow.
  rewrite ltb_spec, leb_spec, Prim2SF_minus_one, Prim2SF_zero.
  unfold SFltb, SFleb, SFcompare.
  destruct (Prim2SF (fst (scaleFactorBoundaries cfg))) as [s | s | | s m e];
    try destruct s; intros Hlow; try reflexivity; discriminate Hlow.
Qed.

(** The inner loop over one row is the first-fit traversal of that row. *)
Lemma for_j_firstFit (cfg : Config) (f : string) (i : Z) :
  forall (jrange : list Z) (st : MainState Image),
    inBounds cfg (scaleFactor st) = false ->
    for_j F cfg f i jrange st = firstFit F cfg (grid cfg f [i] jrange) st.
Proof.
  induction jrange as [| j jrange IH]; intros st Hout.
  - reflexivity.
  - cbn [grid flat_map map app] in *. rewrite app_nil_r in *.
    cbn [for_j firstFit]. rewrite Hout. cbn [negb].
    unfold attempt. cbn [fst snd].
    destruct (F _ _ _ _ _) as [r | e]; [| reflexivity].
    destruct (inBounds cfg (scaleFactor (assign_result r _))) eqn:Hin.
    + reflexivity.
    + apply IH. exact Hin.
Qed.

(** A traversal that ends normally ends either at an accepted scale factor or
    with the last scale factor still rejected; splitting the cell list shows
    where it goes on. *)
Lemma firstFit_app (cfg : Config) :
  forall (l1 l2 : list (Z * Z * string)) (st : MainState Image),
    inBounds cfg (scaleFactor st) = false ->
    firstFit F cfg (l1 ++ l2) st =
    match firstFit F cfg l1 st with
    | Raised e st' => Raised e st'
    | Done st' =>
        if inBounds cfg (scaleFactor st') then Done st'
        else firstFit F cfg l2 st'
    end.
Proof.
  induction l1 as [| c l1 IH]; intros l2 st Hout.
  - cbn [app firstFit]. rewrite Hout. reflexivity.
  - cbn [app firstFit].
    destruct (attempt F cfg c) as [r | e]; [| reflexivity].
    destruct (inBounds cfg (scaleFactor (assign_result r _))) eqn:Hin.
    + cbn [log_write scaleFactor] in *. rewrite Hin. reflexivity.
    + apply IH. exact Hin.
Qed.

Lemma grid_cons (cfg : Config) (f : string) (i : Z) (irange jrange : list Z) :
  grid cfg f (i :: irange) jrange = grid cfg f [i] jrange ++ grid cfg f irange jrange.
Proof. unfold grid. cbn [flat_map]. rewrite app_nil_r. reflexivity. Qed.

(** The two nested loops with their [break]s are the first-fit traversal of
    the grid in row order. *)
Lemma for_i_firstFit (cfg : Config) (f : string) (jrange : list Z) :
  forall (irange : list Z) (st : MainState Image),
    inBounds cfg (scaleFactor st) = false ->
    for_i F cfg f irange jrange st = firstFit F cfg (grid cfg f irange jrange) st.
Proof.
  induction irange as [| i irange IH]; intros st Hout.
  - reflexivity.
  - rewrite grid_cons, firstFit_app by exact Hout.
    cbn [for_i]. rewrite for_j_firstFit by exact Hout.
    destruct (firstFit F cfg (grid cfg f [i] jrange) st) as [st' | e st'];
      [| reflexivity].
    destruct (inBounds cfg (scaleFactor st')) eqn:Hin; [reflexivity |].
    apply IH. exact Hin.
Qed.

Lemma afterAttempts_app (cfg : Config) (l1 l2 : list (Z * Z * string))
    (st : MainState Image) :
  afterAttempts F cfg (l1 ++ l2) st = afterAttempts F cfg l2 (afterAttempts F cfg l1 st).
Proof. unfold afterAttempts. apply fold_left_app. Qed.

(** Rejected attempts leave everything but the search variables and the list
    of attempts as it was. *)
Lemma afterAttempts_frame (cfg : Config) :
  forall (cells : list (Z * Z * string)) (st : MainState Image),
    let st' := afterAttempts F cfg cells st in
    outputDirectory st' = outputDirectory st
    /\ fileNumber st' = fileNumber st
    /\ logFile st' = logFile st
    /\ written st' = written st
    /\ progressBar st' = progressBar st
    /\ attempts st' = attempts st ++ cells.
Proof.
  induction cells as [| c cells IH]; intros st; cbn zeta.
  - cbn. rewrite app_nil_r. repeat split.
  - unfold afterAttempts in *. cbn [fold_left].
    specialize (IH (afterAttempt F cfg st c)). cbn zeta in IH.
    destruct IH as (H1 & H2 & H3 & H4 & H5 & H6).
    rewrite H1, H2, H3, H4, H5, H6.
    unfold afterAttempt.
    destruct (attempt F cfg c); cbn; rewrite <- app_assoc; repeat split.
Qed.

Lemma afterAttempts_rejected (cfg : Config) :
  forall (cells : list (Z * Z * string)) (st : MainState Image),
    Forall (rejected F cfg) cells ->
    inBounds cfg (scaleFactor st) = false ->
    inBounds cfg (scaleFactor (afterAttempts F cfg cells st)) = false.
Proof.
  induction cells as [| c cells IH]; intros st Hrej Hout.
  - exact Hout.
  - inversion Hrej as [| ? ? (r & Hr & Hrb) Hrest]; subst.
    unfold afterAttempts in *. cbn [fold_left].
    apply IH; [exact Hrest |].
    unfold afterAttempt. rewrite Hr. exact Hrb.
Qed.

(** Over a rejected prefix the traversal just moves on. *)
Lemma firstFit_rejected_prefix (cfg : Config) :
  forall (pre rest : list (Z * Z * string)) (st : MainState Image),
    Forall (rejected F cfg) pre ->
    firstFit F cfg (pre ++ rest) st = firstFit F cfg rest (afterAttempts F cfg pre st).
Proof.
  induction pre as [| c pre IH]; intros rest st Hrej.
  - reflexivity.
  - inversion Hrej as [| ? ? (r & Hr & Hrb) Hrest]; subst.
    cbn [app firstFit]. rewrite Hr.
    cbn [assign_result scaleFactor]. rewrite Hrb.
    rewrite IH by exact Hrest.
    assert (afterAttempt F cfg st c = assign_result r (record_attempt c st)) as Hc
        by (unfold afterAttempt; rewrite Hr; reflexivity).
    unfold afterAttempts. cbn [fold_left]. rewrite Hc. reflexivity.
Qed.

End SearchFacts.

(** ** The log is only appended to *)

Section LogFacts.

Variable Image : Type.
Variable F : Z -> Z -> string -> string -> string -> res (AlignResult Image).
Variable W : string -> Image -> option PyExc.

Lemma log_write_prepend (P : list LogLine) (l : LogLine) (st : MainState Image) :
  log_write l (prepend_log P st) = prepend_log P (log_write l st).
Proof. unfold log_write, prepend_log. cbn. rewrite app_assoc. reflexivity. Qed.

Lemma for_j_prepend (cfg : Config) (f : string) (i : Z) (P : list LogLine) :
  forall (jrange : list Z) (st : MainState Image),
    for_j F cfg f i jrange (prepend_log P st)
    = map_outcome (prepend_log P) (for_j F cfg f i jrange st).
Proof.
  induction jrange as [| j jrange IH]; intros st.
  - reflexivity.
  - cbn [for_j].
    change (scaleFactor (prepend_log P st)) with (scaleFactor st).
    destruct (negb (inBounds cfg (scaleFactor st))); [| apply IH].
    destruct (F _ _ _ _ _) as [r | e]; [| reflexivity].
    change (assign_result r (record_attempt
              (tresholdReferenceImages cfg + i, tresholdTargetImages cfg + j, f)
              (prepend_log P st)))
      with (prepend_log P (assign_result r (record_attempt
              (tresholdReferenceImages cfg + i, tresholdTargetImages cfg + j, f) st))).
    set (st2 := assign_result r _).
    change (scaleFactor (prepend_log P st2)) with (scaleFactor st2).
    destruct (inBounds cfg (scaleFactor st2)).
    + rewrite log_write_prepend. reflexivity.
    + apply IH.
Qed.

Lemma for_i_prepend (cfg : Config) (f : string) (jrange : list Z) (P : list LogLine) :
  forall (irange : list Z) (st : MainState Image),
    for_i F cfg f irange jrange (prepend_log P st)
    = map_outcome (prepend_log P) (for_i F cfg f irange jrange st).
Proof.
  induction irange as [| i irange IH]; intros st.
  - reflexivity.
  - cbn [for_i]. rewrite for_j_prepend.
    destruct (for_j F cfg f i jrange st) as [st' | e st']; cbn [map_outcome];
      [| reflexivity].
    change (scaleFactor (prepend_log P st')) with (scaleFactor st').
    destruct (inBounds cfg (scaleFactor st')); [reflexivity | apply IH].
Qed.

Lemma afterSearch_prepend (cfg : Config) (n : Z) (f : string) (P : list LogLine)
    (st : MainState Image) :
  afterSearch W cfg n f (prepend_log P st)
  = map_outcome (prepend_log P) (afterSearch W cfg n f st).
Proof.
  unfold afterSearch.
  change (scaleFactor (prepend_log P st)) with (scaleFactor st).
  destruct (negb (inBounds cfg (scaleFactor st))).
  - rewrite log_write_prepend. reflexivity.
  - cbn [set_outputDirectory alignment prepend_log outputDirectory].
    destruct (alignment st) as [[[rot timg] oimg] |]; [| reflexivity].
    destruct (W _ timg); [reflexivity |].
    cbn [imwrite outputDirectory].
    destruct (negb (suppressOverlapImages cfg)); [| reflexivity].
    destruct (W _ oimg); reflexivity.
Qed.

Lemma tryBlock_prepend (cfg : Config) (n : Z) (irange jrange : list Z) (f : string)
    (P : list LogLine) (st : MainState Image) :
  tryBlock F W cfg n irange jrange f (prepend_log P st)
  = map_outcome (prepend_log P) (tryBlock F W cfg n irange jrange f st).
Proof.
  unfold tryBlock. rewrite for_i_prepend.
  destruct (for_i F cfg f irange jrange st) as [st' | e st']; cbn [map_outcome].
  - apply afterSearch_prepend.
  - reflexivity.
Qed.

Lemma processFile_prepend (cfg : Config) (isfile_ : string -> bool) (n : Z)
    (irange jrange : list Z) (f : string) (P : list LogLine) (st : MainState Image) :
  processFile F W cfg isfile_ n irange jrange f (prepend_log P st)
  = map_outcome (prepend_log P) (processFile F W cfg isfile_ n irange jrange f st).
Proof.
  unfold processFile.
  destruct (isfile_ _); [| reflexivity].
  change (set_scaleFactor (-1)%float
            (set_fileNumber (fileNumber (prepend_log P st) + 1) (prepend_log P st)))
    with (prepend_log P (set_scaleFactor (-1)%float
                           (set_fileNumber (fileNumber st + 1) st))).
  rewrite tryBlock_prepend.
  destruct (tryBlock F W cfg n irange jrange f _) as [st' | e st']; cbn [map_outcome].
  - reflexivity.
  - destruct (is_Exception e); [| reflexivity].
    rewrite log_write_prepend. reflexivity.
Qed.

Lemma forFiles_prepend (cfg : Config) (isfile_ : string -> bool) (n : Z)
    (irange jrange : list Z) (P : list LogLine) :
  forall (files : list string) (st : MainState Image),
    forFiles F W cfg isfile_ n irange jrange files (prepend_log P st)
    = map_outcome (prepend_log P) (forFiles F W cfg isfile_ n irange jrange files st).
Proof.
  induction files as [| f files IH]; intros st.
  - reflexivity.
  - cbn [forFiles]. rewrite processFile_prepend.
    destruct (processFile F W cfg isfile_ n irange jrange f st) as [st' | e st'];
      cbn [map_outcome]; [apply IH | reflexivity].
Qed.

End LogFacts.

(** ** One reference file *)

Section PairFacts.

Variable Image : Type.
Variable F : Z -> Z -> string -> string -> string -> res (AlignResult Image).
Variable W : string -> Image -> option PyExc.

(** The search reaches [c] after the rejected cells [pre] and stops there,
    whether [c] is accepted or raises. *)
Lemma for_i_reaches (cfg : Config) (f : string) (irange jrange : list Z)
    (pre post : list (Z * Z * string)) (c : Z * Z * string) (st : MainState Image) :
  inBounds cfg (scaleFactor st) = false ->
  grid cfg f irange jrange = pre ++ c :: post ->
  Forall (rejected F cfg) pre ->
  for_i F cfg f irange jrange st =
  match attempt F cfg c with
  | Raise e => Raised e (record_attempt c (afterAttempts F cfg pre st))
  | Ok r =>
      let st2 := assign_result r (record_attempt c (afterAttempts F cfg pre st)) in
      if inBounds cfg (res_scaleFactor r) then
        Done (log_write (LogAligned (snd c) (fst (fst c)) (snd (fst c))
                           (res_rotationAngle r) (res_scaleFactor r)) st2)
      else firstFit F cfg post st2
  end.
Proof.
  intros Hout Hgrid Hrej.
  rewrite for_i_firstFit by exact Hout.
  rewrite Hgrid, firstFit_rejected_prefix by exact Hrej.
  cbn [firstFit]. destruct (attempt F cfg c) as [r | e]; reflexivity.
Qed.

(** Every cell of the grid carries the name of the reference file. *)
Lemma grid_file (cfg : Config) (f : string) (irange jrange : list Z)
    (c : Z * Z * string) :
  In c (grid cfg f irange jrange) -> snd c = f.
Proof.
  unfold grid. intros Hin. apply in_flat_map in Hin.
  destruct Hin as (i & _ & Hin). apply in_map_iff in Hin.
  destruct Hin as (j & <- & _). reflexivity.
Qed.

(** The search itself never touches the progress bar. *)
Lemma for_j_progressBar (cfg : Config) (f : string) (i : Z) :
  forall (jrange : list Z) (st : MainState Image),
    progressBar (final (for_j F cfg f i jrange st)) = progressBar st.
Proof.
  induction jrange as [| j jrange IH]; intros st; cbn [for_j].
  - reflexivity.
  - destruct (negb (inBounds cfg (scaleFactor st))); [| apply IH].
    destruct (F _ _ _ _ _) as [r | e]; [| reflexivity].
    destruct (inBounds cfg _); [reflexivity |].
    rewrite IH. reflexivity.
Qed.

Lemma for_i_progressBar (cfg : Config) (f : string) (jrange : list Z) :
  forall (irange : list Z) (st : MainState Image),
    progressBar (final (for_i F cfg f irange jrange st)) = progressBar st.
Proof.
  induction irange as [| i irange IH]; intros st; cbn [for_i].
  - reflexivity.
  - pose proof (for_j_progressBar cfg f i jrange st) as Hj.
    destruct (for_j F cfg f i jrange st) as [st' | e st']; cbn [final] in *;
      [| exact Hj].
    destruct (inBounds cfg (scaleFactor st')); [exact Hj |].
    rewrite IH. exact Hj.
Qed.

Lemma processFile_denominators (cfg : Config) (isfile_ : string -> bool) (n : Z)
    (irange jrange : list Z) (f : string) (st : MainState Image) :
  denominators n st ->
  denominators n (final (processFile F W cfg isfile_ n irange jrange f st)).
Proof.
  unfold denominators, processFile, tryBlock. intros Hst.
  destruct (isfile_ _); [| exact Hst].
  set (st0 := set_scaleFactor _ _).
  pose proof (for_i_progressBar cfg f jrange irange st0) as Hsearch.
  change (progressBar st0) with (progressBar st) in Hsearch.
  destruct (for_i F cfg f irange jrange st0) as [st1 | e st1]; cbn [final] in Hsearch.
  - unfold afterSearch.
    destruct (negb (inBounds cfg (scaleFactor st1))).
    + cbn. rewrite Hsearch. apply Forall_app. split; [exact Hst |].
      constructor; [reflexivity | constructor].
    + cbn [set_outputDirectory alignment outputDirectory].
      destruct (alignment st1) as [[[rot timg] oimg] |].
      * destruct (W _ timg) as [e1 |].
        { destruct (is_Exception e1); cbn; rewrite Hsearch; exact Hst. }
        cbn [imwrite outputDirectory].
        destruct (negb (suppressOverlapImages cfg)).
        -- destruct (W _ oimg) as [e2 |].
           { destruct (is_Exception e2); cbn; rewrite Hsearch; exact Hst. }
           cbn; rewrite Hsearch; apply Forall_app; split; [exact Hst |].
           constructor; [reflexivity | constructor].
        -- cbn; rewrite Hsearch; apply Forall_app; split; [exact Hst |].
           constructor; [reflexivity | constructor].
      * destruct (is_Exception UnboundLocalError); cbn; rewrite Hsearch; exact Hst.
  - destruct (is_Exception e); cbn; rewrite Hsearch; exact Hst.
Qed.

Lemma forFiles_denominators (cfg : Config) (isfile_ : string -> bool) (n : Z)
    (irange jrange : list Z) :
  forall (files : list string) (st : MainState Image),
    denominators n st ->
    denominators n (final (forFiles F W cfg isfile_ n irange jrange files st)).
Proof.
  induction files as [| f files IH]; intros st Hst; cbn [forFiles].
  - exact Hst.
  - pose proof (processFile_denominators cfg isfile_ n irange jrange f st Hst) as Hf.
    destruct (processFile F W cfg isfile_ n irange jrange f st) as [st' | e st'];
      cbn [final] in Hf.
    + apply IH. exact Hf.
    + exact Hf.
Qed.

Lemma main_denominators (cfg : Config) (env : Env) (outDir : string) :
  denominators (Z.of_nat (List.length (referenceFiles env)))
               (final (main F W cfg env outDir)).
Proof.
  unfold main.
  destruct (Grid.tresholdRange (tresholdReferenceImages cfg) _ _) as [irange | e1];
    [| constructor].
  destruct (Grid.tresholdRange (tresholdTargetImages cfg) _ _) as [jrange | e2];
    [| constructor].
  destruct (Z.of_nat (List.length (referenceFiles env)) =? 0); [constructor |].
  set (n := Z.of_nat _). set (st0 := updateProgress 0 n EmptyString _).
  assert (denominators n st0) as H0 by (constructor; [reflexivity | constructor]).
  pose proof (forFiles_denominators cfg (isfile env) n irange jrange
                (referenceFiles env) st0 H0) as Hall.
  destruct (forFiles F W cfg (isfile env) n irange jrange (referenceFiles env) st0);
    exact Hall.
Qed.

(** An attempt that raises an [Exception] ends the search of the pair: it is
    caught at line 297, logged, and the loop over the files goes on. *)
Lemma processFile_attempt_raises (cfg : Config) (isfile_ : string -> bool)
    (nFiles : Z) (irange jrange : list Z) (f : string) (st : MainState Image)
    (pre post : list (Z * Z * string)) (c : Z * Z * string) (e : PyExc) :
  boundariesAccepted cfg = true ->
  isfile_ (targetFilesDirectory cfg ++ "/" ++ f)%string = true ->
  grid cfg f irange jrange = pre ++ c :: post ->
  Forall (rejected F cfg) pre ->
  attempt F cfg c = Raise e ->
  is_Exception e = true ->
  exists st',
    processFile F W cfg isfile_ nFiles irange jrange f st = Done st'
    /\ attempts st' = attempts st ++ pre ++ [c]
    /\ logFile st' = logFile st ++ [LogError f e]
    /\ written st' = written st
    /\ progressBar st' = progressBar st
    /\ outputDirectory st' = outputDirectory st
    /\ fileNumber st' = fileNumber st + 1.
Proof.
  intros Hb Hfile Hgrid Hrej Hc Hexc.
  set (st0 := set_scaleFactor (-1)%float (set_fileNumber (fileNumber st + 1) st)).
  exists (log_write (LogError f e)
            (record_attempt c (afterAttempts F cfg pre st0))).
  split.
  - unfold processFile. rewrite Hfile. fold st0. unfold tryBlock.
    rewrite (for_i_reaches cfg f irange jrange pre post c);
      [| apply default_scaleFactor_rejected; exact Hb | exact Hgrid | exact Hrej].
    rewrite Hc, Hexc. reflexivity.
  - destruct (afterAttempts_frame Image F cfg pre st0)
      as (Hdir & Hnum & Hlog & Hwr & Hpb & Hatt).
    cbn [log_write record_attempt attempts logFile written progressBar
         outputDirectory fileNumber].
    rewrite Hdir, Hnum, Hlog, Hwr, Hpb, Hatt.
    cbn. rewrite <- app_assoc. repeat split.
Qed.

End PairFacts.

(** C1. First-fit search: with the ranges that main generates (ascending
    offsets before descending ones; generated for thresholds and a maximal
    change that NumPy holds as 64-bit integers), the two loops attempt the grid cells in
    row order, reference offsets outside and target offsets inside; at the
    first cell whose scale factor lies within the boundaries the search stops:
    the attempts made are exactly the rejected cells before it and that cell,
    it is the accepted alignment and the one logged, whatever the cells after
    it would return. *)
Theorem C1_first_fit (Image : Type)
    (F : Z -> Z -> string -> string -> string -> res (AlignResult Image))
    (cfg : Config) (f : string) (st : MainState Image)
    (pre post : list (Z * Z * string)) (c : Z * Z * string) (r : AlignResult Image) :
  let irange := Grid.offsets_spec (tresholdReferenceImages cfg)
                  (tresholdChangeSteps cfg) (tresholdMaxChange cfg) in
  let jrange := Grid.offsets_spec (tresholdTargetImages cfg)
                  (tresholdChangeSteps cfg) (tresholdMaxChange cfg) in
  0 < tresholdChangeSteps cfg ->
  boundariesAccepted cfg = true ->
  grid cfg f irange jrange = pre ++ c :: post ->
  Forall (rejected F cfg) pre ->
  attempt F cfg c = Ok r ->
  inBounds cfg (res_scaleFactor r) = true ->
  (Grid.representable (tresholdReferenceImages cfg) (tresholdMaxChange cfg) ->
   Grid.tresholdRange (tresholdReferenceImages cfg)
     (tresholdChangeSteps cfg) (tresholdMaxChange cfg) = Ok irange)
  /\ (Grid.representable (tresholdTargetImages cfg) (tresholdMaxChange cfg) ->
      Grid.tresholdRange (tresholdTargetImages cfg)
        (tresholdChangeSteps cfg) (tresholdMaxChange cfg) = Ok jrange)
  /\ exists st',
      for_i F cfg f irange jrange (set_scaleFactor (-1)%float st) = Done st'
      /\ attempts st' = attempts st ++ pre ++ [c]
      /\ scaleFactor st' = res_scaleFactor r
      /\ alignment st' = Some (res_rotationAngle r, res_transformedImage r,
                               res_alignedImageOverlapedWithRefImage r)
      /\ logFile st' = logFile st ++
           [LogAligned f (fst (fst c)) (snd (fst c))
                       (res_rotationAngle r) (res_scaleFactor r)].
Proof.
  intros irange jrange Hs Hb Hgrid Hrej Hc Hin.
  split; [intros Hr; apply GridFacts.tresholdRange_spec; assumption |].
  split; [intros Hr; apply GridFacts.tresholdRange_spec; assumption |].
  assert (snd c = f) as Hf.
  { apply (grid_file cfg f irange jrange). rewrite Hgrid.
    apply in_or_app. right. left. reflexivity. }
  eexists. split.
  - rewrite (for_i_reaches Image F cfg f irange jrange pre post c);
      [| apply default_scaleFactor_rejected; exact Hb | exact Hgrid | exact Hrej].
    rewrite Hc. cbn zeta. rewrite Hin. reflexivity.
  - destruct (afterAttempts_frame Image F cfg pre (set_scaleFactor (-1)%float st))
      as (_ & _ & Hlog & _ & _ & Hatt).
    cbn [log_write assign_result record_attempt attempts scaleFactor alignment logFile].
    rewrite Hlog, Hatt, Hf. cbn [set_scaleFactor attempts logFile].
    rewrite <- app_assoc. repeat split.
Qed.

Lemma C1_first_fit_witness :
  exists st',
    for_i Demo.align (Demo.cfg 100 102) "a.png"
          (Grid.offsets_spec 100 2 20) (Grid.offsets_spec 102 2 20)
          (set_scaleFactor (-1)%float (initialState "out")) = Done st'
    /\ attempts st' = [(100, 102, "a.png"%string); (100, 104, "a.png"%string)].
Proof.
  destruct (C1_first_fit Z Demo.align (Demo.cfg 100 102) "a.png" (initialState "out")
              [(100, 102, "a.png"%string)]
              (skipn 2 (grid (Demo.cfg 100 102) "a.png"
                          (Grid.offsets_spec 100 2 20) (Grid.offsets_spec 102 2 20)))
              (100, 104, "a.png"%string)
              (mkAlignResult 1%float 0%float 1 21))
    as (_ & _ & st' & Hrun & Hatt & _).
  - cbn. lia.
  - vm_compute. reflexivity.
  - vm_compute. reflexivity.
  - constructor; [| constructor].
    exists (mkAlignResult 2%float 0%float 1 21).
    split; vm_compute; reflexivity.
  - vm_compute. reflexivity.
  - vm_compute. reflexivity.
  - exists st'. split; [exact Hrun | exact Hatt].
Defined.

(** ** Estimation failure *)

Section EstimationFacts.

Variable Image : Type.
Variable Descriptors : Type.
Variable cv : OpenCV Image Descriptors.
Variable W : string -> Image -> option PyExc.

(** [estimateAffinePartial2D] returning [None] makes the indexing of the
    matrix raise. *)
Lemma estimate_without_matrix (src dst : list (float * float))
    (H : option (list float)) (mask rmask : list Z) :
  findHomography cv src dst = Ok (H, Some mask) ->
  estimateAffinePartial2D cv src dst = Ok (None, Some rmask) ->
  estimate cv src dst = Raise TypeError.
Proof. intros Hh Hr. unfold estimate. rewrite Hh, Hr. reflexivity. Qed.

(** [findHomography] returning no mask makes [mask.ravel()] raise. *)
Lemma estimate_without_mask (src dst : list (float * float))
    (H : option (list float)) (rm : option Mat23 * option (list Z)) :
  findHomography cv src dst = Ok (H, None) ->
  estimateAffinePartial2D cv src dst = Ok rm ->
  estimate cv src dst = Raise AttributeError.
Proof.
  intros Hh Hr. unfold estimate. rewrite Hh, Hr. destruct rm. reflexivity.
Qed.

(** An estimator that raises makes [estimate] raise the same. *)
Lemma estimate_homography_raises (src dst : list (float * float)) (e : PyExc) :
  findHomography cv src dst = Raise e -> estimate cv src dst = Raise e.
Proof. intros Hh. unfold estimate. rewrite Hh. reflexivity. Qed.

(** No matches: the points handed to the estimators are empty. *)
Lemma matchedPoints_no_matches (targetBW referenceBW : Image) :
  bfMatch cv (snd (detectAndCompute cv targetBW))
             (snd (detectAndCompute cv referenceBW)) = Ok [] ->
  matchedPoints cv targetBW referenceBW = Ok ([], []).
Proof.
  unfold matchedPoints.
  destruct (detectAndCompute cv targetBW) as [kp1 d1].
  destruct (detectAndCompute cv referenceBW) as [kp2 d2].
  cbn [snd]. intros Hm. rewrite Hm. cbn [bind].
  assert (Matcher.top90 [] = Ok []) as -> by (vm_compute; reflexivity).
  reflexivity.
Qed.


End EstimationFacts.




(** ** Files without a target, the output directory, the clock *)

(** C10. A reference file with no file of the same name in the target
    directory is skipped: no attempt is made, nothing is written, logged or
    shown on the progress bar, only the file counter moves on; and every
    progress update of the run is out of the number of all reference files,
    the skipped ones included. *)
Theorem C10_missing_target_is_skipped (Image : Type)
    (F : Z -> Z -> string -> string -> string -> res (AlignResult Image))
    (W : string -> Image -> option PyExc)
    (cfg : Config) (isfile_ : string -> bool) (nFiles : Z)
    (irange jrange : list Z) (f : string) (st : MainState Image) :
  isfile_ (targetFilesDirectory cfg ++ "/" ++ f)%string = false ->
  (exists st',
      processFile F W cfg isfile_ nFiles irange jrange f st = Done st'
      /\ attempts st' = attempts st
      /\ written st' = written st
      /\ logFile st' = logFile st
      /\ progressBar st' = progressBar st
      /\ outputDirectory st' = outputDirectory st
      /\ fileNumber st' = fileNumber st + 1)
  /\ forall (env : Env) (outDir : string),
      denominators (Z.of_nat (List.length (referenceFiles env)))
                   (final (main F W cfg env outDir)).
Proof.
  intros Hfile. split.
  - unfold processFile. rewrite Hfile.
    eexists. split; [reflexivity |]. repeat split.
  - intros env outDir. apply main_denominators.
Qed.

Lemma C10_missing_target_is_skipped_witness :
  exists st',
    processFile Demo.align Demo.write (Demo.cfg 100 104) Demo.isfile 3
                (Grid.offsets_spec 100 2 20) (Grid.offsets_spec 104 2 20)
                "c.png" (initialState "out") = Done st'
    /\ attempts st' = [] /\ written st' = [] /\ logFile st' = []
    /\ progressBar st' = [] /\ fileNumber st' = 1.
Proof.
  destruct (C10_missing_target_is_skipped Z Demo.align Demo.write (Demo.cfg 100 104)
              Demo.isfile 3 (Grid.offsets_spec 100 2 20) (Grid.offsets_spec 104 2 20)
              "c.png" (initialState "out"))
    as [(st' & Hrun & Hatt & Hwr & Hlog & Hpb & _ & Hnum) _].
  - vm_compute. reflexivity.
  - exists st'. repeat split; assumption.
Defined.

Section OutputFacts.

Variable Image : Type.
Variable W : string -> Image -> option PyExc.

(** After an accepted search the output directory variable is extended by a
    slash before the images are written. *)
Lemma afterSearch_accepted (cfg : Config) (n : Z) (f : string) (st : MainState Image)
    (rot : float) (timg oimg : Image) :
  inBounds cfg (scaleFactor st) = true ->
  alignment st = Some (rot, timg, oimg) ->
  W ((outputDirectory st ++ "/") ++ f)%string timg = None ->
  (suppressOverlapImages cfg = false ->
   W ((outputDirectory st ++ "/") ++ "overlap/" ++ f)%string oimg = None) ->
  exists st',
    afterSearch W cfg n f st = Done st'
    /\ outputDirectory st' = (outputDirectory st ++ "/")%string
    /\ written st' = written st ++
         (((outputDirectory st ++ "/") ++ f)%string, timg)
         :: (if suppressOverlapImages cfg then []
             else [(((outputDirectory st ++ "/") ++ "overlap/" ++ f)%string, oimg)])
    /\ logFile st' = logFile st.
Proof.
  intros Hin Hal Hw Hw'. unfold afterSearch. rewrite Hin. cbn [negb].
  cbn [set_outputDirectory alignment outputDirectory]. rewrite Hal, Hw.
  cbn [imwrite outputDirectory].
  destruct (suppressOverlapImages cfg); cbn [negb].
  - eexists; (split; [reflexivity |]); cbn; rewrite <- ?app_assoc; repeat split.
  - cbn [set_outputDirectory outputDirectory]. rewrite (Hw' eq_refl).
    eexists; (split; [reflexivity |]); cbn; rewrite <- ?app_assoc; repeat split.
Qed.

(** A [cv2.imwrite] that raises ends the block: the output directory
    variable has its slash (line 286), the image is not written and the
    progress bar is not updated. *)
Lemma afterSearch_write_raises (cfg : Config) (n : Z) (f : string)
    (st : MainState Image) (rot : float) (timg oimg : Image) (e : PyExc) :
  inBounds cfg (scaleFactor st) = true ->
  alignment st = Some (rot, timg, oimg) ->
  W ((outputDirectory st ++ "/") ++ f)%string timg = Some e ->
  afterSearch W cfg n f st
  = Raised e (set_outputDirectory (outputDirectory st ++ "/") st).
Proof.
  intros Hin Hal Hw. unfold afterSearch. rewrite Hin. cbn [negb].
  cbn [set_outputDirectory alignment outputDirectory]. rewrite Hal, Hw.
  reflexivity.
Qed.

End OutputFacts.

(** C9. Two reference files, each aligned at the first cell: after the first
    pair the output directory variable is "out/" instead of "out", and the
    images of the second pair are written under "out//". *)
Theorem C9_outputDirectory_changes_between_pairs :
  exists st1 st2,
    processFile Demo.align Demo.write (Demo.cfg 100 104) Demo.isfile 2
                (Grid.offsets_spec 100 2 20) (Grid.offsets_spec 104 2 20)
                "a.png" (initialState "out") = Done st1
    /\ outputDirectory (initialState (Image := Z) "out") = "out"%string
    /\ outputDirectory st1 = "out/"%string
    /\ processFile Demo.align Demo.write (Demo.cfg 100 104) Demo.isfile 2
                   (Grid.offsets_spec 100 2 20) (Grid.offsets_spec 104 2 20)
                   "b.png" st1 = Done st2
    /\ outputDirectory st2 = "out//"%string
    /\ written st2 = [("out/a.png"%string, 1); ("out/overlap/a.png"%string, 21);
                      ("out//b.png"%string, 1); ("out//overlap/b.png"%string, 21)].
Proof.
  eexists. eexists.
  split; [vm_compute; reflexivity |].
  split; [reflexivity |].
  split; [reflexivity |].
  split; [vm_compute; reflexivity |].
  split; reflexivity.
Qed.

(** C8 as stated fails: two runs on the same inputs at different times write
    different logs. *)
Lemma C8_counterexample :
  logFile (final (main Demo.align Demo.write (Demo.cfg 100 104)
                    (Demo.env ["a.png"%string] "2023_05_01 10_00_00"
                              "2023_05_01 10_00_07") "out"))
  <> logFile (final (main Demo.align Demo.write (Demo.cfg 100 104)
                       (Demo.env ["a.png"%string] "2023_05_02 09_30_00"
                                 "2023_05_02 09_30_07") "out")).
Proof. vm_compute. intros H. discriminate H. Qed.

(** C8. Two runs on the same inputs and configuration that differ only in the
    three clock readings (the one in the name of the log file, line 190, the
    start, line 250, and the end, line 301) end the same way, write the same
    image files, make the same attempts and progress updates, and write the
    same log apart from the location of the log file, the start time and the
    finish time. *)
Theorem C8_runs_agree_up_to_the_clock (Image : Type)
    (F : Z -> Z -> string -> string -> string -> res (AlignResult Image))
    (W : string -> Image -> option PyExc)
    (cfg : Config) (env : Env) (outDir : string)
    (named1 start1 finish1 named2 start2 finish2 : string) :
  let run1 := main F W cfg (at_time named1 start1 finish1 env) outDir in
  let run2 := main F W cfg (at_time named2 start2 finish2 env) outDir in
  raised run1 = raised run2
  /\ written (final run1) = written (final run2)
  /\ map untimed (logFile (final run1)) = map untimed (logFile (final run2))
  /\ attempts (final run1) = attempts (final run2)
  /\ progressBar (final run1) = progressBar (final run2)
  /\ outputDirectory (final run1) = outputDirectory (final run2).
Proof.
  cbn zeta. unfold main.
  cbn [at_time referenceFiles isfile finishTime].
  destruct (Grid.tresholdRange (tresholdReferenceImages cfg) _ _) as [irange | e1];
    [| repeat split].
  destruct (Grid.tresholdRange (tresholdTargetImages cfg) _ _) as [jrange | e2];
    [| repeat split].
  set (n := Z.of_nat (List.length (referenceFiles env))).
  destruct (n =? 0); [repeat split |].
  set (st0 := updateProgress 0 n EmptyString (initialState (Image := Image) outDir)).
  set (h1 := header cfg (at_time named1 start1 finish1 env) outDir irange jrange).
  set (h2 := header cfg (at_time named2 start2 finish2 env) outDir irange jrange).
  change (updateProgress 0 n EmptyString (log_write (LogHeader h1) (initialState (Image := Image) outDir)))
    with (prepend_log [LogHeader h1] st0).
  change (updateProgress 0 n EmptyString (log_write (LogHeader h2) (initialState (Image := Image) outDir)))
    with (prepend_log [LogHeader h2] st0).
  rewrite !forFiles_prepend.
  destruct (forFiles F W cfg (isfile env) n irange jrange (referenceFiles env) st0)
    as [st' | e st']; cbn [map_outcome final raised log_write prepend_log
                           written attempts progressBar outputDirectory logFile];
    rewrite ?map_app; repeat split.
Qed.

(** ** Masks without keypoints *)

Section ZeroKeypoints.

Variable Image : Type.
Variable Descriptors : Type.
Variable cv : OpenCV Image Descriptors.
Variable W : string -> Image -> option PyExc.









End ZeroKeypoints.




(** * Further properties *)

(** ** The three ways a search can go *)

Section OutcomeFacts.

Variable Image : Type.
Variable F : Z -> Z -> string -> string -> string -> res (AlignResult Image).
Variable W : string -> Image -> option PyExc.

(** Either every cell is rejected, or there is a first cell that is not: it
    is accepted or its attempt raises. *)
Lemma first_not_rejected (cfg : Config) (cells : list (Z * Z * string)) :
  Forall (rejected F cfg) cells
  \/ exists pre c post,
      cells = pre ++ c :: post
      /\ Forall (rejected F cfg) pre
      /\ ((exists r, attempt F cfg c = Ok r
                     /\ inBounds cfg (res_scaleFactor r) = true)
          \/ exists e, attempt F cfg c = Raise e).
Proof.
  induction cells as [| c cells IH].
  - left. constructor.
  - destruct (attempt F cfg c) as [r | e] eqn:Hc.
    + destruct (inBounds cfg (res_scaleFactor r)) eqn:Hin.
      * right. exists [], c, cells. split; [reflexivity |].
        split; [constructor |]. left. exists r. split; [exact Hc | exact Hin].
      * assert (rejected F cfg c) as Hrej by (exists r; split; assumption).
        destruct IH as [Hall | (pre & c' & post & -> & Hpre & Hc')].
        -- left. constructor; assumption.
        -- right. exists (c :: pre), c', post. split; [reflexivity |].
           split; [constructor; assumption | exact Hc'].
    + right. exists [], c, cells. split; [reflexivity |].
      split; [constructor |]. right. exists e. exact Hc.
Qed.

Lemma for_i_all_rejected (cfg : Config) (f : string) (irange jrange : list Z)
    (st : MainState Image) :
  inBounds cfg (scaleFactor st) = false ->
  Forall (rejected F cfg) (grid cfg f irange jrange) ->
  for_i F cfg f irange jrange st
  = Done (afterAttempts F cfg (grid cfg f irange jrange) st).
Proof.
  intros Hout Hrej. rewrite for_i_firstFit by exact Hout.
  rewrite <- (app_nil_r (grid cfg f irange jrange)) at 1.
  rewrite firstFit_rejected_prefix by exact Hrej. reflexivity.
Qed.

(** When the scale factor is already within the boundaries, the loops make no
    attempt. *)
Lemma for_j_in_bounds (cfg : Config) (f : string) (i : Z) :
  forall (jrange : list Z) (st : MainState Image),
    inBounds cfg (scaleFactor st) = true ->
    for_j F cfg f i jrange st = Done st.
Proof.
  induction jrange as [| j jrange IH]; intros st Hin; cbn [for_j].
  - reflexivity.
  - rewrite Hin. cbn [negb]. apply IH. exact Hin.
Qed.

Lemma for_i_in_bounds (cfg : Config) (f : string) (irange jrange : list Z)
    (st : MainState Image) :
  inBounds cfg (scaleFactor st) = true ->
  for_i F cfg f irange jrange st = Done st.
Proof.
  intros Hin. destruct irange as [| i irange]; cbn [for_i].
  - reflexivity.
  - rewrite for_j_in_bounds by exact Hin. rewrite Hin. reflexivity.
Qed.

End OutcomeFacts.

(** ** What one iteration of the file loop changes *)

Section FrameFacts.

Variable Image : Type.
Variable F : Z -> Z -> string -> string -> string -> res (AlignResult Image).
Variable W : string -> Image -> option PyExc.

Lemma searchFrame_refl (st : MainState Image) : searchFrame st st.
Proof.
  repeat split; exists []; rewrite app_nil_r; reflexivity.
Qed.

Lemma searchFrame_trans (st1 st2 st3 : MainState Image) :
  searchFrame st1 st2 -> searchFrame st2 st3 -> searchFrame st1 st3.
Proof.
  intros (A1 & A2 & A3 & A4 & (l1 & A5) & (c1 & A6))
         (B1 & B2 & B3 & B4 & (l2 & B5) & (c2 & B6)).
  repeat split; try congruence.
  - exists (l1 ++ l2). rewrite B5, A5, app_assoc. reflexivity.
  - exists (c1 ++ c2). rewrite B6, A6, app_assoc. reflexivity.
Qed.

Lemma for_j_frame (cfg : Config) (f : string) (i : Z) :
  forall (jrange : list Z) (st : MainState Image),
    searchFrame st (final (for_j F cfg f i jrange st)).
Proof.
  induction jrange as [| j jrange IH]; intros st; cbn [for_j].
  - apply searchFrame_refl.
  - destruct (negb (inBounds cfg (scaleFactor st))); [| apply IH].
    set (c := (tresholdReferenceImages cfg + i, tresholdTargetImages cfg + j, f)).
    assert (searchFrame st (record_attempt c st)) as Hrec.
    { repeat split; [exists [] | exists [c]]; cbn; rewrite ?app_nil_r; reflexivity. }
    destruct (F _ _ _ _ _) as [r | e]; [| exact Hrec].
    assert (searchFrame st (assign_result r (record_attempt c st))) as Hres.
    { repeat split; [exists [] | exists [c]]; cbn; rewrite ?app_nil_r; reflexivity. }
    destruct (inBounds cfg _).
    + cbn [final]. eapply searchFrame_trans; [exact Hres |].
      repeat split;
        [eexists; cbn; reflexivity | exists []; cbn; rewrite app_nil_r; reflexivity].
    + eapply searchFrame_trans; [exact Hres | apply IH].
Qed.

Lemma for_i_frame (cfg : Config) (f : string) (jrange : list Z) :
  forall (irange : list Z) (st : MainState Image),
    searchFrame st (final (for_i F cfg f irange jrange st)).
Proof.
  induction irange as [| i irange IH]; intros st; cbn [for_i].
  - apply searchFrame_refl.
  - pose proof (for_j_frame cfg f i jrange st) as Hj.
    destruct (for_j F cfg f i jrange st) as [st' | e st']; cbn [final] in *;
      [| exact Hj].
    destruct (inBounds cfg (scaleFactor st')); [exact Hj |].
    eapply searchFrame_trans; [exact Hj | apply IH].
Qed.

End FrameFacts.

(** ** One reference file, all cases *)

Section FileFacts.

Variable Image : Type.
Variable F : Z -> Z -> string -> string -> string -> res (AlignResult Image).
Variable W : string -> Image -> option PyExc.

Lemma processFile_started (cfg : Config) (isfile_ : string -> bool) (n : Z)
    (irange jrange : list Z) (f : string) (st : MainState Image) :
  isfile_ (targetFilesDirectory cfg ++ "/" ++ f)%string = true ->
  processFile F W cfg isfile_ n irange jrange f st =
  match for_i F cfg f irange jrange (started st) with
  | Done st1 =>
      match afterSearch W cfg n f st1 with
      | Done st2 => Done st2
      | Raised e st2 =>
          if is_Exception e then Done (log_write (LogError f e) st2)
          else Raised e st2
      end
  | Raised e st1 =>
      if is_Exception e then Done (log_write (LogError f e) st1)
      else Raised e st1
  end.
Proof.
  intros Hfile. unfold processFile, tryBlock, started. rewrite Hfile.
  destruct (for_i F cfg f irange jrange _) as [st1 | e st1]; reflexivity.
Qed.

(** What [afterSearch] leaves alone. *)
Lemma afterSearch_attempts (cfg : Config) (n : Z) (f : string) (st : MainState Image) :
  attempts (final (afterSearch W cfg n f st)) = attempts st
  /\ fileNumber (final (afterSearch W cfg n f st)) = fileNumber st.
Proof.
  unfold afterSearch.
  destruct (negb (inBounds cfg (scaleFactor st))); [split; reflexivity |].
  cbn [set_outputDirectory alignment outputDirectory].
  destruct (alignment st) as [[[rot timg] oimg] |]; [| split; reflexivity].
  destruct (W _ timg); [split; reflexivity |].
  cbn [imwrite outputDirectory].
  destruct (negb (suppressOverlapImages cfg)); [| split; reflexivity].
  destruct (W _ oimg); split; reflexivity.
Qed.

(** The grid exhausted without an acceptance (lines 280-282 and 293). *)
Lemma processFile_exhausted (cfg : Config) (isfile_ : string -> bool) (n : Z)
    (irange jrange : list Z) (f : string) (st : MainState Image) :
  boundariesAccepted cfg = true ->
  isfile_ (targetFilesDirectory cfg ++ "/" ++ f)%string = true ->
  Forall (rejected F cfg) (grid cfg f irange jrange) ->
  exists st',
    processFile F W cfg isfile_ n irange jrange f st = Done st'
    /\ attempts st' = attempts st ++ grid cfg f irange jrange
    /\ logFile st' = logFile st ++ [LogUnsuccessful f]
    /\ written st' = written st
    /\ progressBar st' = progressBar st ++ [(fileNumber st + 1, n, f)]
    /\ outputDirectory st' = outputDirectory st
    /\ fileNumber st' = fileNumber st + 1.
Proof.
  intros Hb Hfile Hrej.
  assert (inBounds cfg (scaleFactor (started st)) = false) as Hout
      by (apply default_scaleFactor_rejected; exact Hb).
  rewrite processFile_started by exact Hfile.
  rewrite (for_i_all_rejected Image F cfg f irange jrange (started st) Hout Hrej).
  set (st1 := afterAttempts F cfg (grid cfg f irange jrange) (started st)).
  assert (inBounds cfg (scaleFactor st1) = false) as Hout1
      by (apply afterAttempts_rejected; assumption).
  destruct (afterAttempts_frame Image F cfg (grid cfg f irange jrange) (started st))
    as (Hdir & Hnum & Hlog & Hwr & Hpb & Hatt).
  fold st1 in Hdir, Hnum, Hlog, Hwr, Hpb, Hatt.
  unfold afterSearch. rewrite Hout1. cbn [negb].
  eexists. split; [reflexivity |].
  cbn [updateProgress log_write attempts logFile written progressBar
       outputDirectory fileNumber].
  rewrite Hdir, Hnum, Hlog, Hwr, Hpb, Hatt. repeat split.
Qed.

(** An accepted cell whose images are written (lines 283-293). *)
Lemma processFile_accepted (cfg : Config) (isfile_ : string -> bool) (n : Z)
    (irange jrange : list Z) (f : string) (st : MainState Image)
    (pre post : list (Z * Z * string)) (c : Z * Z * string) (r : AlignResult Image) :
  boundariesAccepted cfg = true ->
  isfile_ (targetFilesDirectory cfg ++ "/" ++ f)%string = true ->
  grid cfg f irange jrange = pre ++ c :: post ->
  Forall (rejected F cfg) pre ->
  attempt F cfg c = Ok r ->
  inBounds cfg (res_scaleFactor r) = true ->
  W ((outputDirectory st ++ "/") ++ f)%string (res_transformedImage r) = None ->
  (suppressOverlapImages cfg = false ->
   W ((outputDirectory st ++ "/") ++ "overlap/" ++ f)%string
     (res_alignedImageOverlapedWithRefImage r) = None) ->
  exists st',
    processFile F W cfg isfile_ n irange jrange f st = Done st'
    /\ attempts st' = attempts st ++ pre ++ [c]
    /\ logFile st' = logFile st ++
         [LogAligned f (fst (fst c)) (snd (fst c))
                     (res_rotationAngle r) (res_scaleFactor r)]
    /\ written st' = written st ++
         (((outputDirectory st ++ "/") ++ f)%string, res_transformedImage r)
         :: (if suppressOverlapImages cfg then []
             else [(((outputDirectory st ++ "/") ++ "overlap/" ++ f)%string,
                    res_alignedImageOverlapedWithRefImage r)])
    /\ progressBar st' = progressBar st ++ [(fileNumber st + 1, n, f)]
    /\ outputDirectory st' = (outputDirectory st ++ "/")%string
    /\ fileNumber st' = fileNumber st + 1.
Proof.
  intros Hb Hfile Hgrid Hrej Hc Hin Hw Hw'.
  assert (inBounds cfg (scaleFactor (started st)) = false) as Hout
      by (apply default_scaleFactor_rejected; exact Hb).
  assert (snd c = f) as Hf.
  { apply (grid_file cfg f irange jrange). rewrite Hgrid.
    apply in_or_app. right. left. reflexivity. }
  rewrite processFile_started by exact Hfile.
  rewrite (for_i_reaches Image F cfg f irange jrange pre post c (started st)
             Hout Hgrid Hrej).
  rewrite Hc. cbn zeta. rewrite Hin.
  destruct (afterAttempts_frame Image F cfg pre (started st))
    as (Hdir & Hnum & Hlog & Hwr & Hpb & Hatt).
  set (st1 := afterAttempts F cfg pre (started st)) in *.
  change (outputDirectory (started st)) with (outputDirectory st) in Hdir.
  unfold afterSearch.
  cbn [log_write assign_result record_attempt scaleFactor alignment
       set_outputDirectory outputDirectory].
  rewrite Hin. cbn [negb]. rewrite Hdir, Hw.
  cbn [imwrite outputDirectory].
  destruct (suppressOverlapImages cfg); cbn [negb];
    [| cbn [log_write assign_result record_attempt set_outputDirectory
            outputDirectory];
       rewrite ?Hdir, (Hw' eq_refl)];
    (eexists; split; [reflexivity |]);
    cbn [updateProgress imwrite set_outputDirectory log_write assign_result
         record_attempt attempts logFile written progressBar
         outputDirectory fileNumber];
    rewrite Hnum, Hlog, Hwr, Hpb, Hatt, Hf;
    cbn [started set_scaleFactor set_fileNumber attempts logFile written
         progressBar outputDirectory fileNumber];
    rewrite <- ?app_assoc; repeat split.
Qed.

(** An accepted cell whose first image cannot be written: [cv2.imwrite]
    raises inside the [try], so the file gets a second line in the log (or
    the run ends, for Ctrl-C), the output directory variable keeps its new
    slash, and neither an image nor a progress update follows. *)
Lemma processFile_write_raises (cfg : Config) (isfile_ : string -> bool) (n : Z)
    (irange jrange : list Z) (f : string) (st : MainState Image)
    (pre post : list (Z * Z * string)) (c : Z * Z * string) (r : AlignResult Image)
    (e : PyExc) :
  boundariesAccepted cfg = true ->
  isfile_ (targetFilesDirectory cfg ++ "/" ++ f)%string = true ->
  grid cfg f irange jrange = pre ++ c :: post ->
  Forall (rejected F cfg) pre ->
  attempt F cfg c = Ok r ->
  inBounds cfg (res_scaleFactor r) = true ->
  W ((outputDirectory st ++ "/") ++ f)%string (res_transformedImage r) = Some e ->
  exists st',
    processFile F W cfg isfile_ n irange jrange f st
    = (if is_Exception e then Done st' else Raised e st')
    /\ attempts st' = attempts st ++ pre ++ [c]
    /\ logFile st' = logFile st ++
         LogAligned f (fst (fst c)) (snd (fst c))
                    (res_rotationAngle r) (res_scaleFactor r)
         :: (if is_Exception e then [LogError f e] else [])
    /\ written st' = written st
    /\ progressBar st' = progressBar st
    /\ outputDirectory st' = (outputDirectory st ++ "/")%string
    /\ fileNumber st' = fileNumber st + 1.
Proof.
  intros Hb Hfile Hgrid Hrej Hc Hin Hw.
  assert (inBounds cfg (scaleFactor (started st)) = false) as Hout
      by (apply default_scaleFactor_rejected; exact Hb).
  assert (snd c = f) as Hf.
  { apply (grid_file cfg f irange jrange). rewrite Hgrid.
    apply in_or_app. right. left. reflexivity. }
  rewrite processFile_started by exact Hfile.
  rewrite (for_i_reaches Image F cfg f irange jrange pre post c (started st)
             Hout Hgrid Hrej).
  rewrite Hc. cbn zeta. rewrite Hin.
  destruct (afterAttempts_frame Image F cfg pre (started st))
    as (Hdir & Hnum & Hlog & Hwr & Hpb & Hatt).
  set (st1 := afterAttempts F cfg pre (started st)) in *.
  change (outputDirectory (started st)) with (outputDirectory st) in Hdir.
  unfold afterSearch.
  cbn [log_write assign_result record_attempt scaleFactor alignment
       set_outputDirectory outputDirectory].
  rewrite Hin. cbn [negb]. rewrite Hdir, Hw.
  destruct (is_Exception e);
    (eexists; split; [reflexivity |]);
    cbn [updateProgress imwrite set_outputDirectory log_write assign_result
         record_attempt attempts logFile written progressBar
         outputDirectory fileNumber];
    rewrite Hnum, Hlog, Hwr, Hpb, Hatt, Hf;
    cbn [started set_scaleFactor set_fileNumber attempts logFile written
         progressBar outputDirectory fileNumber];
    rewrite <- ?app_assoc; repeat split.
Qed.

(** The same when the transformed image is written and the overlap image
    cannot be. *)
Lemma processFile_overlap_write_raises (cfg : Config) (isfile_ : string -> bool)
    (n : Z) (irange jrange : list Z) (f : string) (st : MainState Image)
    (pre post : list (Z * Z * string)) (c : Z * Z * string) (r : AlignResult Image)
    (e : PyExc) :
  boundariesAccepted cfg = true ->
  isfile_ (targetFilesDirectory cfg ++ "/" ++ f)%string = true ->
  grid cfg f irange jrange = pre ++ c :: post ->
  Forall (rejected F cfg) pre ->
  attempt F cfg c = Ok r ->
  inBounds cfg (res_scaleFactor r) = true ->
  W ((outputDirectory st ++ "/") ++ f)%string (res_transformedImage r) = None ->
  suppressOverlapImages cfg = false ->
  W ((outputDirectory st ++ "/") ++ "overlap/" ++ f)%string
    (res_alignedImageOverlapedWithRefImage r) = Some e ->
  exists st',
    processFile F W cfg isfile_ n irange jrange f st
    = (if is_Exception e then Done st' else Raised e st')
    /\ attempts st' = attempts st ++ pre ++ [c]
    /\ logFile st' = logFile st ++
         LogAligned f (fst (fst c)) (snd (fst c))
                    (res_rotationAngle r) (res_scaleFactor r)
         :: (if is_Exception e then [LogError f e] else [])
    /\ written st' = written st ++
         [(((outputDirectory st ++ "/") ++ f)%string, res_transformedImage r)]
    /\ progressBar st' = progressBar st
    /\ outputDirectory st' = (outputDirectory st ++ "/")%string
    /\ fileNumber st' = fileNumber st + 1.
Proof.
  intros Hb Hfile Hgrid Hrej Hc Hin Hw Hsup Hw'.
  assert (inBounds cfg (scaleFactor (started st)) = false) as Hout
      by (apply default_scaleFactor_rejected; exact Hb).
  assert (snd c = f) as Hf.
  { apply (grid_file cfg f irange jrange). rewrite Hgrid.
    apply in_or_app. right. left. reflexivity. }
  rewrite processFile_started by exact Hfile.
  rewrite (for_i_reaches Image F cfg f irange jrange pre post c (started st)
             Hout Hgrid Hrej).
  rewrite Hc. cbn zeta. rewrite Hin.
  destruct (afterAttempts_frame Image F cfg pre (started st))
    as (Hdir & Hnum & Hlog & Hwr & Hpb & Hatt).
  set (st1 := afterAttempts F cfg pre (started st)) in *.
  change (outputDirectory (started st)) with (outputDirectory st) in Hdir.
  unfold afterSearch.
  cbn [log_write assign_result record_attempt scaleFactor alignment
       set_outputDirectory outputDirectory].
  rewrite Hin. cbn [negb]. rewrite Hdir, Hw, Hsup.
  cbn [negb imwrite log_write assign_result record_attempt set_outputDirectory
       outputDirectory].
  rewrite ?Hdir, Hw'.
  destruct (is_Exception e);
    (eexists; split; [reflexivity |]);
    cbn [updateProgress imwrite set_outputDirectory log_write assign_result
         record_attempt attempts logFile written progressBar
         outputDirectory fileNumber];
    rewrite Hnum, Hlog, Hwr, Hpb, Hatt, Hf;
    cbn [started set_scaleFactor set_fileNumber attempts logFile written
         progressBar outputDirectory fileNumber];
    rewrite <- ?app_assoc; repeat split.
Qed.

End FileFacts.

(** ** Attempts *)

Section AttemptFacts.

Variable Image : Type.
Variable F : Z -> Z -> string -> string -> string -> res (AlignResult Image).
Variable W : string -> Image -> option PyExc.

Lemma for_i_attempts_prefix (cfg : Config) (f : string) (irange jrange : list Z)
    (st : MainState Image) :
  exists k,
    attempts (final (for_i F cfg f irange jrange st))
    = attempts st ++ firstn k (grid cfg f irange jrange).
Proof.
  destruct (inBounds cfg (scaleFactor st)) eqn:Hb.
  - exists 0%nat. rewrite for_i_in_bounds by exact Hb.
    cbn. rewrite app_nil_r. reflexivity.
  - destruct (first_not_rejected Image F cfg (grid cfg f irange jrange))
      as [Hall | (pre & c & post & Hgrid & Hpre & Hc)].
    + exists (List.length (grid cfg f irange jrange)).
      rewrite for_i_all_rejected by assumption.
      destruct (afterAttempts_frame Image F cfg (grid cfg f irange jrange) st)
        as (_ & _ & _ & _ & _ & Hatt).
      cbn [final]. rewrite Hatt, firstn_all. reflexivity.
    + exists (List.length pre + 1)%nat.
      rewrite (for_i_reaches Image F cfg f irange jrange pre post c st Hb Hgrid Hpre).
      destruct (afterAttempts_frame Image F cfg pre st) as (_ & _ & _ & _ & _ & Hatt).
      rewrite Hgrid, firstn_app_2. cbn [firstn].
      destruct Hc as [(r & -> & Hin) | (e & ->)].
      * cbn zeta. rewrite Hin. cbn. rewrite Hatt, <- app_assoc. reflexivity.
      * cbn. rewrite Hatt, <- app_assoc. reflexivity.
Qed.

Lemma processFile_attempts (cfg : Config) (isfile_ : string -> bool) (n : Z)
    (irange jrange : list Z) (f : string) (st : MainState Image) :
  attempts (final (processFile F W cfg isfile_ n irange jrange f st))
  = if isfile_ (targetFilesDirectory cfg ++ "/" ++ f)%string
    then attempts (final (for_i F cfg f irange jrange (started st)))
    else attempts st.
Proof.
  destruct (isfile_ _) eqn:Hfile.
  - rewrite processFile_started by exact Hfile.
    destruct (for_i F cfg f irange jrange (started st)) as [st1 | e st1];
      cbn [final].
    + pose proof (afterSearch_attempts Image W cfg n f st1) as [Ha _].
      destruct (afterSearch W cfg n f st1) as [st2 | e st2]; cbn [final] in *;
        [exact Ha |].
      destruct (is_Exception e); exact Ha.
    + destruct (is_Exception e); reflexivity.
  - unfold processFile. rewrite Hfile. reflexivity.
Qed.

Lemma processFile_attempts_prefix (cfg : Config) (isfile_ : string -> bool) (n : Z)
    (irange jrange : list Z) (f : string) (st : MainState Image) :
  exists k,
    attempts (final (processFile F W cfg isfile_ n irange jrange f st))
    = attempts st ++ firstn k (grid cfg f irange jrange).
Proof.
  rewrite processFile_attempts. destruct (isfile_ _).
  - destruct (for_i_attempts_prefix cfg f irange jrange (started st)) as (k & Hk).
    exists k. exact Hk.
  - exists 0%nat. cbn. rewrite app_nil_r. reflexivity.
Qed.

Lemma Forall_firstn {A : Type} (P : A -> Prop) (k : nat) (l : list A) :
  Forall P l -> Forall P (firstn k l).
Proof.
  intros H. rewrite <- (firstn_skipn k l) in H.
  apply Forall_app in H. apply H.
Qed.

Lemma NoDup_firstn {A : Type} (k : nat) (l : list A) :
  NoDup l -> NoDup (firstn k l).
Proof.
  intros H. rewrite <- (firstn_skipn k l) in H.
  apply NoDup_app_remove_r in H. exact H.
Qed.

(** An invariant of the attempts that every grid satisfies is kept by the
    loop over the files. *)
Lemma forFiles_attempts_invariant (P : Z * Z * string -> Prop) (cfg : Config)
    (isfile_ : string -> bool) (n : Z) (irange jrange : list Z) :
  (forall f, Forall P (grid cfg f irange jrange)) ->
  forall (files : list string) (st : MainState Image),
    Forall P (attempts st) ->
    Forall P (attempts (final (forFiles F W cfg isfile_ n irange jrange files st))).
Proof.
  intros Hgrid. induction files as [| f files IH]; intros st Hst; cbn [forFiles].
  - exact Hst.
  - destruct (processFile_attempts_prefix cfg isfile_ n irange jrange f st)
      as (k & Hk).
    assert (Forall P (attempts (final (processFile F W cfg isfile_ n irange jrange f st))))
      as Hf.
    { rewrite Hk. apply Forall_app. split; [exact Hst |].
      apply Forall_firstn. apply Hgrid. }
    destruct (processFile F W cfg isfile_ n irange jrange f st) as [st' | e st'];
      cbn [final] in *; [apply IH; exact Hf | exact Hf].
Qed.

End AttemptFacts.

Section GridShape.

Lemma offsets_spec_bounds (b s m o : Z) :
  0 < s -> 0 <= b <= 255 -> In o (Grid.offsets_spec b s m) -> 0 <= b + o <= 255.
Proof.
  intros Hs Hb Hin. unfold Grid.offsets_spec in Hin.
  apply in_app_or in Hin. destruct Hin as [Hin | Hin].
  - apply (GridFacts.count_up_bounds s _ Hs) in Hin. lia.
  - apply (GridFacts.count_down_bounds s _ Hs) in Hin. lia.
Qed.

Lemma grid_In (cfg : Config) (f : string) (irange jrange : list Z)
    (c : Z * Z * string) :
  In c (grid cfg f irange jrange) <->
  exists i j, In i irange /\ In j jrange
              /\ c = (tresholdReferenceImages cfg + i,
                      tresholdTargetImages cfg + j, f).
Proof.
  unfold grid. rewrite in_flat_map. split.
  - intros (i & Hi & Hc). apply in_map_iff in Hc. destruct Hc as (j & <- & Hj).
    exists i, j. repeat split; assumption.
  - intros (i & j & Hi & Hj & ->). exists i. split; [exact Hi |].
    apply in_map_iff. exists j. split; [reflexivity | exact Hj].
Qed.

Lemma grid_thresholdsInRange (cfg : Config) (f : string) :
  0 < tresholdChangeSteps cfg ->
  0 <= tresholdReferenceImages cfg <= 255 ->
  0 <= tresholdTargetImages cfg <= 255 ->
  Forall thresholdsInRange
    (grid cfg f
       (Grid.offsets_spec (tresholdReferenceImages cfg)
          (tresholdChangeSteps cfg) (tresholdMaxChange cfg))
       (Grid.offsets_spec (tresholdTargetImages cfg)
          (tresholdChangeSteps cfg) (tresholdMaxChange cfg))).
Proof.
  intros Hs HR HT. apply Forall_forall. intros c Hc.
  apply grid_In in Hc. destruct Hc as (i & j & Hi & Hj & ->).
  unfold thresholdsInRange. cbn [fst snd]. split.
  - apply (offsets_spec_bounds _ _ _ _ Hs HR Hi).
  - apply (offsets_spec_bounds _ _ _ _ Hs HT Hj).
Qed.

Lemma count_up_NoDup (s bound : Z) :
  0 < s -> forall fuel a, NoDup (Grid.count_up fuel a s bound).
Proof.
  intros Hs. induction fuel as [| fuel IH]; intros a; cbn [Grid.count_up].
  - constructor.
  - destruct (a <? bound); [| constructor].
    constructor; [| apply IH].
    intros Hin. apply (GridFacts.count_up_bounds s bound Hs) in Hin. lia.
Qed.

Lemma count_down_NoDup (s bound : Z) :
  0 < s -> forall fuel a, NoDup (Grid.count_down fuel a s bound).
Proof.
  intros Hs. induction fuel as [| fuel IH]; intros a; cbn [Grid.count_down].
  - constructor.
  - destruct (bound <? a); [| constructor].
    constructor; [| apply IH].
    intros Hin. apply (GridFacts.count_down_bounds s bound Hs) in Hin. lia.
Qed.

Lemma offsets_spec_NoDup (b s m : Z) : 0 < s -> NoDup (Grid.offsets_spec b s m).
Proof.
  intros Hs. unfold Grid.offsets_spec. apply NoDup_app.
  - apply count_up_NoDup. exact Hs.
  - apply count_down_NoDup. exact Hs.
  - intros o Hup Hdown.
    apply (GridFacts.count_up_bounds s _ Hs) in Hup.
    apply (GridFacts.count_down_bounds s _ Hs) in Hdown. lia.
Qed.

Lemma NoDup_map_injective {A B : Type} (g : A -> B) (l : list A) :
  (forall x y, g x = g y -> x = y) -> NoDup l -> NoDup (map g l).
Proof.
  intros Hinj. induction 1 as [| a l Hnotin Hl IH]; cbn [map].
  - constructor.
  - constructor; [| exact IH].
    intros Hin. apply in_map_iff in Hin. destruct Hin as (x & Hx & Hinx).
    apply Hinj in Hx. subst x. contradiction.
Qed.

Lemma grid_NoDup (cfg : Config) (f : string) (jrange : list Z) :
  NoDup jrange ->
  forall irange, NoDup irange -> NoDup (grid cfg f irange jrange).
Proof.
  intros Hj. induction irange as [| i irange IH]; intros Hi.
  - constructor.
  - inversion Hi as [| ? ? Hnotin Hrest]; subst.
    change (grid cfg f (i :: irange) jrange)
      with (map (fun j => (tresholdReferenceImages cfg + i,
                           tresholdTargetImages cfg + j, f)) jrange
            ++ grid cfg f irange jrange).
    apply NoDup_app.
    + apply NoDup_map_injective; [| exact Hj].
      intros j1 j2 Heq. injection Heq as Heq. lia.
    + apply IH. exact Hrest.
    + intros c Hrow Hgrid. apply in_map_iff in Hrow.
      destruct Hrow as (j & <- & _).
      apply grid_In in Hgrid. destruct Hgrid as (i' & j' & Hi' & _ & Heq).
      injection Heq as Heq _. assert (i = i') by lia. subst i'. contradiction.
Qed.

End GridShape.

(** X1. Whatever [alignImages] returns or raises, the attempts made for one
    reference file are an initial segment of the grid in row order: no cell
    is skipped, attempted out of order or attempted after the search ended. *)
Theorem X1_attempts_are_a_prefix_of_the_grid (Image : Type)
    (F : Z -> Z -> string -> string -> string -> res (AlignResult Image))
    (W : string -> Image -> option PyExc)
    (cfg : Config) (isfile_ : string -> bool) (nFiles : Z)
    (irange jrange : list Z) (f : string) (st : MainState Image) :
  exists k,
    attempts (final (processFile F W cfg isfile_ nFiles irange jrange f st))
    = attempts st ++ firstn k (grid cfg f irange jrange).
Proof.
  destruct (processFile_attempts_prefix Image F W cfg isfile_ nFiles irange jrange f st)
    as (k & Hk).
  exists k. exact Hk.
Qed.





Section InterruptFacts.

Variable Image : Type.
Variable F : Z -> Z -> string -> string -> string -> res (AlignResult Image).
Variable W : string -> Image -> option PyExc.

(** [KeyboardInterrupt] is not caught by [except Exception]: it leaves the
    iteration as it is raised. *)
Lemma processFile_interrupted (cfg : Config) (isfile_ : string -> bool) (n : Z)
    (irange jrange : list Z) (f : string) (st : MainState Image)
    (pre post : list (Z * Z * string)) (c : Z * Z * string) :
  boundariesAccepted cfg = true ->
  isfile_ (targetFilesDirectory cfg ++ "/" ++ f)%string = true ->
  grid cfg f irange jrange = pre ++ c :: post ->
  Forall (rejected F cfg) pre ->
  attempt F cfg c = Raise KeyboardInterrupt ->
  exists st',
    processFile F W cfg isfile_ n irange jrange f st = Raised KeyboardInterrupt st'
    /\ attempts st' = attempts st ++ pre ++ [c]
    /\ logFile st' = logFile st
    /\ written st' = written st
    /\ progressBar st' = progressBar st
    /\ outputDirectory st' = outputDirectory st.
Proof.
  intros Hb Hfile Hgrid Hrej Hc.
  assert (inBounds cfg (scaleFactor (started st)) = false) as Hout
      by (apply default_scaleFactor_rejected; exact Hb).
  rewrite processFile_started by exact Hfile.
  rewrite (for_i_reaches Image F cfg f irange jrange pre post c (started st)
             Hout Hgrid Hrej).
  rewrite Hc. cbn [is_Exception].
  destruct (afterAttempts_frame Image F cfg pre (started st))
    as (Hdir & _ & Hlog & Hwr & Hpb & Hatt).
  eexists. split; [reflexivity |].
  cbn [record_attempt attempts logFile written progressBar outputDirectory].
  rewrite Hdir, Hlog, Hwr, Hpb, Hatt. cbn. rewrite <- app_assoc. repeat split.
Qed.

End InterruptFacts.

(** X4. Ctrl-C during an attempt ends the whole batch: the exception leaves
    the loop over the files, the reference files after the current one are
    not processed, and no line about the interrupted file is written to the
    log, no image is written and the progress bar is not updated. *)
Theorem X4_keyboard_interrupt_ends_the_batch (Image : Type)
    (F : Z -> Z -> string -> string -> string -> res (AlignResult Image))
    (W : string -> Image -> option PyExc)
    (cfg : Config) (isfile_ : string -> bool) (nFiles : Z)
    (irange jrange : list Z) (f : string) (files : list string)
    (st : MainState Image)
    (pre post : list (Z * Z * string)) (c : Z * Z * string) :
  boundariesAccepted cfg = true ->
  isfile_ (targetFilesDirectory cfg ++ "/" ++ f)%string = true ->
  grid cfg f irange jrange = pre ++ c :: post ->
  Forall (rejected F cfg) pre ->
  attempt F cfg c = Raise KeyboardInterrupt ->
  exists st',
    forFiles F W cfg isfile_ nFiles irange jrange (f :: files) st
    = Raised KeyboardInterrupt st'
    /\ attempts st' = attempts st ++ pre ++ [c]
    /\ logFile st' = logFile st
    /\ written st' = written st
    /\ progressBar st' = progressBar st.
Proof.
  intros Hb Hfile Hgrid Hrej Hc.
  destruct (processFile_interrupted Image F W cfg isfile_ nFiles irange jrange f st
              pre post c Hb Hfile Hgrid Hrej Hc)
    as (st' & Hrun & Hatt & Hlog & Hwr & Hpb & _).
  exists st'. split; [| repeat split; assumption].
  cbn [forFiles]. rewrite Hrun. reflexivity.
Qed.

Lemma X4_keyboard_interrupt_ends_the_batch_witness :
  exists st',
    forFiles Demo2.interrupted Demo.write (Demo.cfg 100 104) Demo.isfile 2
             (Grid.offsets_spec 100 2 20) (Grid.offsets_spec 104 2 20)
             ["b.png"; "a.png"]%string (initialState "out")
    = Raised KeyboardInterrupt st'
    /\ attempts st' = [(100, 104, "b.png"%string)]
    /\ logFile st' = []
    /\ written st' = [].
Proof.
  destruct (X4_keyboard_interrupt_ends_the_batch Z Demo2.interrupted Demo.write (Demo.cfg 100 104)
              Demo.isfile 2 (Grid.offsets_spec 100 2 20) (Grid.offsets_spec 104 2 20)
              "b.png" ["a.png"%string] (initialState "out") []
              (skipn 1 (grid (Demo.cfg 100 104) "b.png"
                          (Grid.offsets_spec 100 2 20) (Grid.offsets_spec 104 2 20)))
              (100, 104, "b.png"%string))
    as (st' & Hrun & Hatt & Hlog & Hwr & _).
  - vm_compute. reflexivity.
  - vm_compute. reflexivity.
  - vm_compute. reflexivity.
  - constructor.
  - vm_compute. reflexivity.
  - exists st'. repeat split; assumption.
Defined.

(** X5. In a run whose base thresholds are grey levels (0 to 255) and whose
    step is positive, every call of [alignImages], for every reference file
    and whatever the calls return, gets thresholds between 0 and 255. *)
Theorem X5_every_attempt_has_thresholds_in_range (Image : Type)
    (F : Z -> Z -> string -> string -> string -> res (AlignResult Image))
    (W : string -> Image -> option PyExc)
    (cfg : Config) (env : Env) (outDir : string) :
  0 < tresholdChangeSteps cfg ->
  0 <= tresholdReferenceImages cfg <= 255 ->
  0 <= tresholdTargetImages cfg <= 255 ->
  Forall thresholdsInRange (attempts (final (main F W cfg env outDir))).
Proof.
  intros Hs HR HT. unfold main.
  destruct (GridFacts.tresholdRange_cases (tresholdReferenceImages cfg)
              (tresholdChangeSteps cfg) (tresholdMaxChange cfg) Hs) as [-> | ->];
    [| constructor].
  destruct (GridFacts.tresholdRange_cases (tresholdTargetImages cfg)
              (tresholdChangeSteps cfg) (tresholdMaxChange cfg) Hs) as [-> | ->];
    [| constructor].
  destruct (Z.of_nat (List.length (referenceFiles env)) =? 0); [constructor |].
  set (st0 := updateProgress 0 _ EmptyString _).
  assert (Forall thresholdsInRange
            (attempts (final (forFiles F W cfg (isfile env)
                                (Z.of_nat (List.length (referenceFiles env)))
                                (Grid.offsets_spec (tresholdReferenceImages cfg)
                                   (tresholdChangeSteps cfg) (tresholdMaxChange cfg))
                                (Grid.offsets_spec (tresholdTargetImages cfg)
                                   (tresholdChangeSteps cfg) (tresholdMaxChange cfg))
                                (referenceFiles env) st0)))) as Hall.
  { apply forFiles_attempts_invariant; [| constructor].
    intros f. apply grid_thresholdsInRange; assumption. }
  destruct (forFiles F W cfg (isfile env) _ _ _ (referenceFiles env) st0);
    exact Hall.
Qed.

Lemma X5_every_attempt_has_thresholds_in_range_witness :
  Forall thresholdsInRange
    (attempts (final (main Demo.align Demo.write (Demo.cfg 250 3)
                        (Demo.env ["a.png"; "b.png"]%string "t0" "t1") "out"))).
Proof.
  apply (X5_every_attempt_has_thresholds_in_range Z Demo.align Demo.write (Demo.cfg 250 3)).
  - cbn. lia.
  - cbn. lia.
  - cbn. lia.
Defined.

(** X6. With a positive step the grid has no cell twice, so no threshold pair
    is attempted twice for a reference file. *)
Theorem X6_no_threshold_pair_is_attempted_twice (Image : Type)
    (F : Z -> Z -> string -> string -> string -> res (AlignResult Image))
    (W : string -> Image -> option PyExc)
    (cfg : Config) (isfile_ : string -> bool) (nFiles : Z) (f : string)
    (st : MainState Image) :
  let irange := Grid.offsets_spec (tresholdReferenceImages cfg)
                  (tresholdChangeSteps cfg) (tresholdMaxChange cfg) in
  let jrange := Grid.offsets_spec (tresholdTargetImages cfg)
                  (tresholdChangeSteps cfg) (tresholdMaxChange cfg) in
  0 < tresholdChangeSteps cfg ->
  NoDup (grid cfg f irange jrange)
  /\ exists new,
      attempts (final (processFile F W cfg isfile_ nFiles irange jrange f st))
      = attempts st ++ new
      /\ NoDup new.
Proof.
  intros irange jrange Hs.
  assert (NoDup (grid cfg f irange jrange)) as Hgrid.
  { apply grid_NoDup; apply offsets_spec_NoDup; exact Hs. }
  split; [exact Hgrid |].
  destruct (processFile_attempts_prefix Image F W cfg isfile_ nFiles irange jrange f st)
    as (k & Hk).
  exists (firstn k (grid cfg f irange jrange)). split; [exact Hk |].
  apply NoDup_firstn. exact Hgrid.
Qed.

Lemma X6_no_threshold_pair_is_attempted_twice_witness :
  NoDup (grid (Demo.cfg 100 102) "a.png"
           (Grid.offsets_spec 100 2 20) (Grid.offsets_spec 102 2 20)).
Proof.
  destruct (X6_no_threshold_pair_is_attempted_twice Z Demo.align Demo.write (Demo.cfg 100 102)
              Demo.isfile 1 "a.png" (initialState "out")) as [H _].
  - cbn. lia.
  - exact H.
Defined.

Section FirstAttempt.

Variable Image : Type.
Variable F : Z -> Z -> string -> string -> string -> res (AlignResult Image).
Variable W : string -> Image -> option PyExc.

(** With a file to align and a grid that is not empty, the first cell of the
    grid is attempted. *)
Lemma processFile_first_attempt (cfg : Config) (isfile_ : string -> bool) (n : Z)
    (irange jrange : list Z) (f : string) (st : MainState Image)
    (c : Z * Z * string) (cells : list (Z * Z * string)) :
  boundariesAccepted cfg = true ->
  isfile_ (targetFilesDirectory cfg ++ "/" ++ f)%string = true ->
  grid cfg f irange jrange = c :: cells ->
  exists rest,
    attempts (final (processFile F W cfg isfile_ n irange jrange f st))
    = attempts st ++ c :: rest.
Proof.
  intros Hb Hfile Hgrid.
  assert (inBounds cfg (scaleFactor (started st)) = false) as Hout
      by (apply default_scaleFactor_rejected; exact Hb).
  rewrite processFile_attempts, Hfile.
  destruct (first_not_rejected Image F cfg (grid cfg f irange jrange))
    as [Hall | (pre & c' & post & Hsplit & Hpre & Hc)].
  - rewrite for_i_all_rejected by assumption.
    destruct (afterAttempts_frame Image F cfg (grid cfg f irange jrange) (started st))
      as (_ & _ & _ & _ & _ & Hatt).
    cbn [final]. rewrite Hatt, Hgrid. exists cells. reflexivity.
  - rewrite (for_i_reaches Image F cfg f irange jrange pre post c' (started st)
               Hout Hsplit Hpre).
    destruct (afterAttempts_frame Image F cfg pre (started st))
      as (_ & _ & _ & _ & _ & Hatt).
    assert (exists rest, pre ++ [c'] = c :: rest) as (rest & Hrest).
    { rewrite Hgrid in Hsplit. destruct pre as [| p pre]; cbn in Hsplit.
      - injection Hsplit as -> _. exists []. reflexivity.
      - injection Hsplit as -> _. exists (pre ++ [c']). reflexivity. }
    exists rest. rewrite <- Hrest.
    destruct Hc as [(r & -> & Hin) | (e & ->)].
    + cbn zeta. rewrite Hin. cbn. rewrite Hatt, <- app_assoc. reflexivity.
    + cbn. rewrite Hatt, <- app_assoc. reflexivity.
Qed.

End FirstAttempt.

(** X7. When both base thresholds are below 255 (step and max change
    positive), the first attempt for a reference file with a target uses
    exactly the base thresholds. *)
Theorem X7_first_attempt_uses_the_base_thresholds (Image : Type)
    (F : Z -> Z -> string -> string -> string -> res (AlignResult Image))
    (W : string -> Image -> option PyExc)
    (cfg : Config) (isfile_ : string -> bool) (nFiles : Z) (f : string)
    (st : MainState Image) :
  let irange := Grid.offsets_spec (tresholdReferenceImages cfg)
                  (tresholdChangeSteps cfg) (tresholdMaxChange cfg) in
  let jrange := Grid.offsets_spec (tresholdTargetImages cfg)
                  (tresholdChangeSteps cfg) (tresholdMaxChange cfg) in
  boundariesAccepted cfg = true ->
  isfile_ (targetFilesDirectory cfg ++ "/" ++ f)%string = true ->
  0 <= tresholdReferenceImages cfg < 255 ->
  0 <= tresholdTargetImages cfg < 255 ->
  0 < tresholdChangeSteps cfg ->
  0 < tresholdMaxChange cfg ->
  exists rest,
    attempts (final (processFile F W cfg isfile_ nFiles irange jrange f st))
    = attempts st
      ++ (tresholdReferenceImages cfg, tresholdTargetImages cfg, f) :: rest.
Proof.
  intros irange jrange Hb Hfile HR HT Hs Hm.
  destruct (GridFacts.offsets_spec_head_below_255 _ _ _ HR Hs Hm) as (ri & Hri).
  destruct (GridFacts.offsets_spec_head_below_255 _ _ _ HT Hs Hm) as (rj & Hrj).
  apply (processFile_first_attempt Image F W cfg isfile_ nFiles irange jrange f st
           (tresholdReferenceImages cfg, tresholdTargetImages cfg, f)
           (map (fun j => (tresholdReferenceImages cfg + 0,
                           tresholdTargetImages cfg + j, f)) rj
            ++ grid cfg f ri jrange) Hb Hfile).
  unfold irange at 1. rewrite Hri. unfold grid. cbn [flat_map].
  fold jrange. unfold jrange at 1. rewrite Hrj. cbn [map app].
  rewrite !Z.add_0_r. reflexivity.
Qed.

Lemma X7_first_attempt_uses_the_base_thresholds_witness :
  exists rest,
    attempts (final (processFile Demo.align Demo.write (Demo.cfg 100 102) Demo.isfile 1
                       (Grid.offsets_spec 100 2 20) (Grid.offsets_spec 102 2 20)
                       "a.png" (initialState "out")))
    = (100, 102, "a.png"%string) :: rest.
Proof.
  destruct (X7_first_attempt_uses_the_base_thresholds Z Demo.align Demo.write (Demo.cfg 100 102)
              Demo.isfile 1 "a.png" (initialState "out")) as (rest & H).
  - vm_compute. reflexivity.
  - vm_compute. reflexivity.
  - cbn. lia.
  - cbn. lia.
  - cbn. lia.
  - cbn. lia.
  - exists rest. exact H.
Defined.

Section UnreadableFacts.

Variable Image : Type.
Variable Descriptors : Type.
Variable cv : OpenCV Image Descriptors.
Variable W : string -> Image -> option PyExc.


End UnreadableFacts.



(** ** The whole run *)

(** X9. An empty reference directory (positive step, thresholds and maximal
    change that NumPy holds as 64-bit integers): after the header is written
    to the log, the first progress update divides by the number of reference
    files and raises; nothing else is logged, not even the "Finished" line. *)
Theorem X9_empty_reference_directory_raises (Image : Type)
    (F : Z -> Z -> string -> string -> string -> res (AlignResult Image))
    (W : string -> Image -> option PyExc)
    (cfg : Config) (env : Env) (outDir : string) :
  0 < tresholdChangeSteps cfg ->
  Grid.representable (tresholdReferenceImages cfg) (tresholdMaxChange cfg) ->
  Grid.representable (tresholdTargetImages cfg) (tresholdMaxChange cfg) ->
  referenceFiles env = [] ->
  exists st',
    main F W cfg env outDir = Raised ZeroDivisionError st'
    /\ logFile st' =
         [LogHeader (header cfg env outDir
                       (Grid.offsets_spec (tresholdReferenceImages cfg)
                          (tresholdChangeSteps cfg) (tresholdMaxChange cfg))
                       (Grid.offsets_spec (tresholdTargetImages cfg)
                          (tresholdChangeSteps cfg) (tresholdMaxChange cfg)))]
    /\ progressBar st' = []
    /\ attempts st' = []
    /\ written st' = [].
Proof.
  intros Hs HR HT Hfiles. unfold main.
  rewrite !GridFacts.tresholdRange_spec by assumption.
  rewrite Hfiles. cbn [List.length Z.of_nat Z.eqb].
  eexists. split; [reflexivity |]. repeat split.
Qed.

Lemma X9_empty_reference_directory_raises_witness :
  exists st',
    main Demo.align Demo.write (Demo.cfg 100 104) (Demo.env [] "t0" "t1") "out"
    = Raised ZeroDivisionError st'
    /\ progressBar st' = [].
Proof.
  destruct (X9_empty_reference_directory_raises Z Demo.align Demo.write (Demo.cfg 100 104)
              (Demo.env [] "t0" "t1") "out") as (st' & Hrun & _ & Hpb & _).
  - cbn. lia.
  - apply GridFacts.grey_representable; cbn; unfold two63; lia.
  - apply GridFacts.grey_representable; cbn; unfold two63; lia.
  - reflexivity.
  - exists st'. split; assumption.
Defined.

(** X10. A step of 0, which the option parsing lets through, makes the
    construction of the threshold ranges raise before anything is logged:
    no header, no attempt, no image (the thresholds and the maximal change
    being such that [np.minimum] has not raised before). *)
Theorem X10_zero_step_raises_before_the_log (Image : Type)
    (F : Z -> Z -> string -> string -> string -> res (AlignResult Image))
    (W : string -> Image -> option PyExc)
    (cfg : Config) (env : Env) (outDir : string) :
  tresholdChangeSteps cfg = 0 ->
  Grid.representable (tresholdReferenceImages cfg) (tresholdMaxChange cfg) ->
  Grid.representable (tresholdTargetImages cfg) (tresholdMaxChange cfg) ->
  main F W cfg env outDir = Raised ValueError (initialState outDir)
  /\ logFile (final (main F W cfg env outDir)) = []
  /\ attempts (final (main F W cfg env outDir)) = [].
Proof.
  intros Hs HR HT.
  assert (main F W cfg env outDir = Raised ValueError (initialState outDir)) as Hrun.
  { unfold main. rewrite Hs, !GridFacts.tresholdRange_zero_step by assumption.
    reflexivity. }
  rewrite Hrun. repeat split.
Qed.

Lemma X10_zero_step_raises_before_the_log_witness :
  main Demo.align Demo.write
       (mkConfig "ref" "tgt" 100 100 0 20 (scaleFactorBoundaries (Demo.cfg 100 100)) false)
       (Demo.env ["a.png"%string] "t0" "t1") "out"
  = Raised ValueError (initialState "out").
Proof.
  destruct (X10_zero_step_raises_before_the_log Z Demo.align Demo.write
              (mkConfig "ref" "tgt" 100 100 0 20
                        (scaleFactorBoundaries (Demo.cfg 100 100)) false)
              (Demo.env ["a.png"%string] "t0" "t1") "out") as (Hrun & _).
  - reflexivity.
  - apply GridFacts.grey_representable; cbn; unfold two63; lia.
  - apply GridFacts.grey_representable; cbn; unfold two63; lia.
  - exact Hrun.
Defined.

Section BatchFacts.

Variable Image : Type.
Variable F : Z -> Z -> string -> string -> string -> res (AlignResult Image).
Variable W : string -> Image -> option PyExc.






End BatchFacts.



(** ** Where the images are written *)

Section WrittenFacts.

Variable Image : Type.
Variable F : Z -> Z -> string -> string -> string -> res (AlignResult Image).
Variable W : string -> Image -> option PyExc.

Lemma string_app_assoc (a b c : string) :
  ((a ++ b) ++ c)%string = (a ++ (b ++ c))%string.
Proof.
  induction a as [| x a IH]; cbn [String.append].
  - reflexivity.
  - rewrite IH. reflexivity.
Qed.

Lemma slashes_snoc (k : nat) : (slashes k ++ "/")%string = slashes (S k).
Proof.
  induction k as [| k IH].
  - reflexivity.
  - cbn [slashes String.append]. rewrite IH. reflexivity.
Qed.

(** The paths written in one iteration are the current output directory, a
    slash and one of the names of the file; the directory variable stays or
    gets one slash more. *)
Lemma processFile_written (cfg : Config) (isfile_ : string -> bool) (n : Z)
    (irange jrange : list Z) (f : string) (st : MainState Image) :
  let st' := final (processFile F W cfg isfile_ n irange jrange f st) in
  (outputDirectory st' = outputDirectory st
   \/ outputDirectory st' = (outputDirectory st ++ "/")%string)
  /\ exists new,
      written st' = written st ++ new
      /\ Forall (fun p => exists name,
                     In name (outputNames f)
                     /\ fst p = ((outputDirectory st ++ "/") ++ name)%string) new.
Proof.
  cbn zeta. destruct (isfile_ (targetFilesDirectory cfg ++ "/" ++ f)%string) eqn:Hfile.
  2:{ unfold processFile. rewrite Hfile. cbn. split; [left; reflexivity |].
      exists []. rewrite app_nil_r. split; [reflexivity | constructor]. }
  rewrite processFile_started by exact Hfile.
  pose proof (for_i_frame Image F cfg f jrange irange (started st))
    as (Hdir & _ & Hwr & _ & _ & _).
  change (outputDirectory (started st)) with (outputDirectory st) in Hdir.
  change (written (started st)) with (written st) in Hwr.
  destruct (for_i F cfg f irange jrange (started st)) as [st1 | e st1];
    cbn [final] in Hdir, Hwr.
  2:{ destruct (is_Exception e); cbn; rewrite Hdir, Hwr;
        (split; [left; reflexivity |]);
        exists []; rewrite app_nil_r; (split; [reflexivity | constructor]). }
  unfold afterSearch.
  destruct (negb (inBounds cfg (scaleFactor st1))).
  { cbn. rewrite Hdir, Hwr. split; [left; reflexivity |].
    exists []. rewrite app_nil_r. split; [reflexivity | constructor]. }
  cbn [set_outputDirectory alignment outputDirectory].
  destruct (alignment st1) as [[[rot timg] oimg] |].
  - destruct (W _ timg) as [e1 |].
    { destruct (is_Exception e1); cbn; rewrite Hdir, Hwr;
        (split; [right; reflexivity |]);
        exists []; rewrite app_nil_r; (split; [reflexivity | constructor]). }
    cbn [imwrite outputDirectory].
    destruct (negb (suppressOverlapImages cfg)).
    + destruct (W _ oimg) as [e2 |].
      { destruct (is_Exception e2); cbn; rewrite Hdir, Hwr;
          (split; [right; reflexivity |]);
          eexists [_]; (split; [reflexivity |]);
          (constructor; [| constructor]); cbn [fst];
          exists f; (split; [left; reflexivity | reflexivity]). }
      cbn; rewrite Hdir, Hwr. split; [right; reflexivity |].
      eexists [_; _]. rewrite <- app_assoc. split; [reflexivity |].
      constructor; [| constructor; [| constructor]]; cbn [fst].
      * exists f. split; [left; reflexivity | reflexivity].
      * exists ("overlap/" ++ f)%string.
        split; [right; left; reflexivity | reflexivity].
    + cbn; rewrite Hdir, Hwr. split; [right; reflexivity |].
      eexists [_]. split; [reflexivity |].
      constructor; [| constructor]. cbn [fst].
      exists f. split; [left; reflexivity | reflexivity].
  - cbn. rewrite Hdir, Hwr. split; [right; reflexivity |].
    exists []. rewrite app_nil_r. split; [reflexivity | constructor].
Qed.

Lemma processFile_underOutDir (outDir : string) (all : list string) (cfg : Config)
    (isfile_ : string -> bool) (n : Z) (irange jrange : list Z) (f : string)
    (st : MainState Image) :
  In f all ->
  underOutDir outDir all st ->
  underOutDir outDir all (final (processFile F W cfg isfile_ n irange jrange f st)).
Proof.
  intros Hf [(k & Hk) Hwr].
  destruct (processFile_written cfg isfile_ n irange jrange f st)
    as (Hdir & new & Hnew & Hpaths).
  split.
  - destruct Hdir as [-> | ->].
    + exists k. exact Hk.
    + exists (S k). rewrite Hk, string_app_assoc, slashes_snoc. reflexivity.
  - rewrite Hnew. apply Forall_app. split; [exact Hwr |].
    eapply Forall_impl; [| exact Hpaths].
    intros p (name & Hname & Hp). exists f. split; [exact Hf |].
    exists k, name. split; [exact Hname |].
    rewrite Hp, Hk, !string_app_assoc, <- (string_app_assoc (slashes k)),
      slashes_snoc.
    reflexivity.
Qed.

Lemma forFiles_underOutDir (outDir : string) (all : list string) (cfg : Config)
    (isfile_ : string -> bool) (n : Z) (irange jrange : list Z) :
  forall (files : list string) (st : MainState Image),
    incl files all ->
    underOutDir outDir all st ->
    underOutDir outDir all (final (forFiles F W cfg isfile_ n irange jrange files st)).
Proof.
  induction files as [| f files IH]; intros st Hincl Hst; cbn [forFiles].
  - exact Hst.
  - assert (In f all) as Hf by (apply Hincl; left; reflexivity).
    pose proof (processFile_underOutDir outDir all cfg isfile_ n irange jrange f st
                  Hf Hst) as Hstep.
    destruct (processFile F W cfg isfile_ n irange jrange f st) as [st' | e st'];
      cbn [final] in Hstep; [| exact Hstep].
    apply IH; [| exact Hstep].
    intros x Hx. apply Hincl. right. exact Hx.
Qed.

End WrittenFacts.

(** X12. Every image written during a run is written under the output
    directory the run started with: its path is that directory, one or more
    slashes, and the name of a reference file of the listing, directly or
    under "overlap/". *)
Theorem X12_images_are_written_under_the_output_directory (Image : Type)
    (F : Z -> Z -> string -> string -> string -> res (AlignResult Image))
    (W : string -> Image -> option PyExc)
    (cfg : Config) (env : Env) (outDir : string) :
  Forall (fun p => exists f, In f (referenceFiles env)
                             /\ writtenFor outDir f (fst p))
         (written (final (main F W cfg env outDir))).
Proof.
  unfold main.
  destruct (Grid.tresholdRange (tresholdReferenceImages cfg) _ _) as [irange | e1];
    [| constructor].
  destruct (Grid.tresholdRange (tresholdTargetImages cfg) _ _) as [jrange | e2];
    [| constructor].
  destruct (Z.of_nat (List.length (referenceFiles env)) =? 0); [constructor |].
  set (n := Z.of_nat _). set (st0 := updateProgress 0 n EmptyString _).
  assert (underOutDir outDir (referenceFiles env) st0) as H0.
  { split; [exists 0%nat | constructor].
    subst st0. cbn. clear. induction outDir as [| x s IH]; cbn; congruence. }
  pose proof (forFiles_underOutDir Image F W outDir (referenceFiles env) cfg
                (isfile env) n irange jrange (referenceFiles env) st0
                (incl_refl _) H0) as [_ Hall].
  destruct (forFiles F W cfg (isfile env) n irange jrange (referenceFiles env) st0);
    exact Hall.
Qed.

(** ** query_yes_no *)

Module QueryFacts.
Import Query.

Lemma verdict_None (line : string) :
  verdict line = None ->
  String.eqb (lower line) EmptyString = false /\ answers (lower line) = None.
Proof.
  unfold verdict. destruct (String.eqb (lower line) EmptyString).
  - discriminate.
  - intros H. split; [reflexivity | exact H].
Qed.

Lemma verdict_Some (line : string) (b : bool) :
  verdict line = Some b ->
  (String.eqb (lower line) EmptyString = true /\ b = true)
  \/ (String.eqb (lower line) EmptyString = false /\ answers (lower line) = Some b).
Proof.
  unfold verdict. destruct (String.eqb (lower line) EmptyString).
  - intros H. injection H as <-. left. split; reflexivity.
  - intros H. right. split; [reflexivity | exact H].
Qed.

Lemma lower_char_idempotent (c : ascii) : lower_char (lower_char c) = lower_char c.
Proof. destruct c as [[] [] [] [] [] [] [] []]; reflexivity. Qed.

Lemma lower_idempotent (s : string) : lower (lower s) = lower s.
Proof.
  induction s as [| c s IH]; cbn [lower].
  - reflexivity.
  - rewrite lower_char_idempotent, IH. reflexivity.
Qed.

Lemma verdict_true_iff (line : string) :
  verdict line = Some true
  <-> lower line = EmptyString \/ lower line = "yes"%string
      \/ lower line = "y"%string.
Proof.
  unfold verdict, answers.
  destruct (String.eqb_spec (lower line) EmptyString) as [-> | H0];
    [split; [intros _; left; reflexivity | reflexivity] |].
  destruct (String.eqb_spec (lower line) "yes") as [-> | H1];
    [split; [intros _; right; left; reflexivity | reflexivity] |].
  destruct (String.eqb_spec (lower line) "y") as [-> | H2];
    [split; [intros _; right; right; reflexivity | reflexivity] |].
  destruct (String.eqb (lower line) "no");
    [split; [discriminate | intros [H | [H | H]]; contradiction] |].
  destruct (String.eqb (lower line) "n");
    split; try discriminate; intros [H | [H | H]]; contradiction.
Qed.

Lemma verdict_false_iff (line : string) :
  verdict line = Some false
  <-> lower line = "no"%string \/ lower line = "n"%string.
Proof.
  unfold verdict, answers.
  destruct (String.eqb_spec (lower line) EmptyString) as [-> | H0];
    [split; [discriminate | intros [H | H]; discriminate H] |].
  destruct (String.eqb_spec (lower line) "yes") as [-> | H1];
    [split; [discriminate | intros [H | H]; discriminate H] |].
  destruct (String.eqb_spec (lower line) "y") as [-> | H2];
    [split; [discriminate | intros [H | H]; discriminate H] |].
  destruct (String.eqb_spec (lower line) "no") as [-> | H3];
    [split; [intros _; left; reflexivity | reflexivity] |].
  destruct (String.eqb_spec (lower line) "n") as [-> | H4];
    [split; [intros _; right; reflexivity | reflexivity] |].
  split; [discriminate | intros [H | H]; contradiction].
Qed.

(** One turn of the loop. *)
Lemma query_yes_no_first_line (question line : string) (rest stdout : list string) :
  query_yes_no question (line :: rest) stdout
  = match verdict line with
    | Some b => (Answer b, rest, stdout ++ [question])
    | None => query_yes_no question rest ((stdout ++ [question]) ++ [please])
    end.
Proof.
  cbn [query_yes_no]. unfold verdict.
  destruct (String.eqb (lower line) EmptyString); [reflexivity |].
  destruct (answers (lower line)); reflexivity.
Qed.

(** Every call writes the question at least once. *)
Lemma query_yes_no_writes (question : string) :
  forall (input stdout : list string),
    (List.length stdout < List.length (snd (query_yes_no question input stdout)))%nat.
Proof.
  induction input as [| line input IH]; intros stdout.
  - cbn [query_yes_no snd]. rewrite length_app. cbn [List.length]. lia.
  - rewrite query_yes_no_first_line. destruct (verdict line) as [b |].
    + cbn [snd]. rewrite length_app. cbn [List.length]. lia.
    + pose proof (IH ((stdout ++ [question]) ++ [please])) as H.
      rewrite !length_app in H. cbn [List.length] in H. lia.
Qed.

(** A line that is asked again is not answered in that turn. *)
Lemma query_yes_no_asked_again (question line : string) (rest stdout : list string)
    (b : bool) :
  verdict line = None ->
  query_yes_no question (line :: rest) stdout
  <> (Answer b, rest, stdout ++ [question]).
Proof.
  intros Hv H. rewrite query_yes_no_first_line, Hv in H.
  pose proof (query_yes_no_writes question rest ((stdout ++ [question]) ++ [please]))
    as Hlen.
  rewrite H in Hlen. cbn [snd] in Hlen.
  rewrite !length_app in Hlen. cbn [List.length] in Hlen. lia.
Qed.

End QueryFacts.

(** X13. query_yes_no reads lines until one is a valid answer: every line
    before it is answered with the hint and the question again; the first
    valid line decides the result and later lines are left unread.  When the
    input ends without a valid answer, the question has been asked once more
    than there were lines, and reading raises. *)
Theorem X13_query_yes_no_takes_the_first_valid_answer
    (question : string) (bad : list string) (stdout : list string) :
  Forall (fun line => Query.verdict line = None) bad ->
  (forall good b rest,
      Query.verdict good = Some b ->
      Query.query_yes_no question (bad ++ good :: rest) stdout
      = (Query.Answer b, rest,
         stdout ++ Query.reprompts question (List.length bad) ++ [question]))
  /\ Query.query_yes_no question bad stdout
     = (Query.EndOfInput, [],
        stdout ++ Query.reprompts question (List.length bad) ++ [question]).
Proof.
  intros Hbad. revert stdout.
  induction Hbad as [| line bad Hline Hbad IH]; intros stdout.
  - split.
    + intros good b rest Hgood. cbn [app Query.query_yes_no List.length Query.reprompts].
      destruct (QueryFacts.verdict_Some good b Hgood) as [[-> ->] | [-> ->]];
        reflexivity.
    + reflexivity.
  - apply QueryFacts.verdict_None in Hline. destruct Hline as [Hempty Hans].
    destruct (IH ((stdout ++ [question]) ++ [Query.please])) as [IHgood IHend].
    split.
    + intros good b rest Hgood.
      cbn [app Query.query_yes_no List.length Query.reprompts].
      rewrite Hempty, Hans, (IHgood good b rest Hgood), <- !app_assoc.
      reflexivity.
    + cbn [Query.query_yes_no List.length Query.reprompts].
      rewrite Hempty, Hans, IHend, <- !app_assoc. reflexivity.
Qed.

Lemma X13_query_yes_no_takes_the_first_valid_answer_witness :
  Query.query_yes_no "Proceed? [Y/n]" ["maybe"; "NO"; "yes"]%string []
  = (Query.Answer false, ["yes"%string],
     ["Proceed? [Y/n]"%string; Query.please; "Proceed? [Y/n]"%string]).
Proof.
  destruct (X13_query_yes_no_takes_the_first_valid_answer "Proceed? [Y/n]"
              ["maybe"%string] []) as [H _].
  - constructor; [reflexivity | constructor].
  - apply (H "NO"%string false ["yes"%string]). reflexivity.
Defined.

(** X14. The answers query_yes_no accepts, whatever the case of the letters:
    the call returns True after reading one line and asking once exactly
    when that line is empty, "yes" or "y"; it returns False in the same way
    exactly when the line is "no" or "n"; for every other line it writes the
    hint and goes on with the next line; and the case of the letters of a
    line makes no difference to the call. *)
Theorem X14_accepted_answers (question line : string) (rest stdout : list string) :
  (Query.query_yes_no question (line :: rest) stdout
   = (Query.Answer true, rest, stdout ++ [question])
   <-> Query.lower line = EmptyString \/ Query.lower line = "yes"%string
       \/ Query.lower line = "y"%string)
  /\ (Query.query_yes_no question (line :: rest) stdout
      = (Query.Answer false, rest, stdout ++ [question])
      <-> Query.lower line = "no"%string \/ Query.lower line = "n"%string)
  /\ (~ In (Query.lower line) [EmptyString; "yes"; "y"; "no"; "n"]%string ->
      Query.query_yes_no question (line :: rest) stdout
      = Query.query_yes_no question rest (stdout ++ [question; Query.please]))
  /\ Query.query_yes_no question (Query.lower line :: rest) stdout
     = Query.query_yes_no question (line :: rest) stdout.
Proof.
  split; [| split; [| split]].
  - rewrite <- QueryFacts.verdict_true_iff. split.
    + intros H. destruct (Query.verdict line) as [b |] eqn:Hv.
      * rewrite QueryFacts.query_yes_no_first_line, Hv in H.
        injection H as ->. reflexivity.
      * exfalso. exact (QueryFacts.query_yes_no_asked_again _ _ _ _ _ Hv H).
    + intros Hv. rewrite QueryFacts.query_yes_no_first_line, Hv. reflexivity.
  - rewrite <- QueryFacts.verdict_false_iff. split.
    + intros H. destruct (Query.verdict line) as [b |] eqn:Hv.
      * rewrite QueryFacts.query_yes_no_first_line, Hv in H.
        injection H as ->. reflexivity.
      * exfalso. exact (QueryFacts.query_yes_no_asked_again _ _ _ _ _ Hv H).
    + intros Hv. rewrite QueryFacts.query_yes_no_first_line, Hv. reflexivity.
  - intros Hnot. rewrite QueryFacts.query_yes_no_first_line.
    destruct (Query.verdict line) as [[|] |] eqn:Hv.
    + apply QueryFacts.verdict_true_iff in Hv. exfalso. apply Hnot.
      cbn [In]. destruct Hv as [H | [H | H]]; rewrite H; auto.
    + apply QueryFacts.verdict_false_iff in Hv. exfalso. apply Hnot.
      cbn [In]. destruct Hv as [H | H]; rewrite H; auto 6.
    + rewrite <- app_assoc. reflexivity.
  - rewrite !QueryFacts.query_yes_no_first_line.
    unfold Query.verdict. rewrite QueryFacts.lower_idempotent. reflexivity.
Qed.

Lemma X14_accepted_answers_witness :
  Query.query_yes_no "Proceed? [Y/n]" ["Yes"; "n"]%string []
  = (Query.Answer true, ["n"%string], ["Proceed? [Y/n]"%string])
  /\ Query.query_yes_no "Proceed? [Y/n]" ["maybe"; "n"]%string []
     = Query.query_yes_no "Proceed? [Y/n]" ["n"%string]
         ["Proceed? [Y/n]"%string; Query.please].
Proof.
  split.
  - destruct (X14_accepted_answers "Proceed? [Y/n]" "Yes" ["n"%string] [])
      as [[_ H] _].
    apply H. right. left. reflexivity.
  - destruct (X14_accepted_answers "Proceed? [Y/n]" "maybe" ["n"%string] [])
      as (_ & _ & H & _).
    apply H. cbn [In Query.lower]. vm_compute.
    intros [H0 | [H0 | [H0 | [H0 | [H0 | []]]]]]; discriminate H0.
Defined.

(** ** The file name beside the progress bar *)

Module ProgressFacts.
Import Progress.

Lemma string_length_app (a b : string) :
  String.length (a ++ b) = (String.length a + String.length b)%nat.
Proof.
  induction a as [| x a IH]; cbn [String.append String.length].
  - reflexivity.
  - rewrite IH. reflexivity.
Qed.

Lemma substring_all (m : nat) :
  forall s, (String.length s <= m)%nat -> String.substring 0 m s = s.
Proof.
  induction m as [| m IH]; intros s Hlen.
  - destruct s; [reflexivity | cbn in Hlen; lia].
  - destruct s as [| c s]; [reflexivity |].
    cbn [String.substring]. rewrite IH; [reflexivity | cbn in Hlen; lia].
Qed.

(** A slice that reaches the end of the string is a suffix of it. *)
Lemma substring_suffix (m : nat) :
  forall (n : nat) (s : string),
    (n <= String.length s)%nat ->
    (String.length s <= n + m)%nat ->
    exists head,
      String.length head = n /\ s = (head ++ String.substring n m s)%string.
Proof.
  induction n as [| n IH]; intros s Hn Hm.
  - exists EmptyString. split; [reflexivity |].
    rewrite substring_all by lia. reflexivity.
  - destruct s as [| c s]; [cbn in Hn; lia |].
    cbn [String.length] in Hn, Hm.
    destruct (IH s) as (head & Hlen & Hs); [lia | lia |].
    exists (String c head). cbn [String.length String.append String.substring].
    split; [lia |]. rewrite <- Hs. reflexivity.
Qed.

End ProgressFacts.

(** X15. The file name shown beside the progress bar: a name of at most 15
    characters is shown as it is; a longer one is shown as "..." followed by
    its last 15 characters; what is shown is never longer than 18
    characters. *)
Theorem X15_reported_file_name (name : string) :
  (String.length (Progress.referenceFileToReport name) <= 18)%nat
  /\ ((String.length name <= 15)%nat -> Progress.referenceFileToReport name = name)
  /\ ((15 < String.length name)%nat ->
      exists head tail,
        name = (head ++ tail)%string
        /\ String.length tail = 15%nat
        /\ Progress.referenceFileToReport name = ("..." ++ tail)%string).
Proof.
  unfold Progress.referenceFileToReport, Progress.last15.
  destruct (Nat.ltb_spec 15 (String.length name)) as [Hlong | Hshort].
  - destruct (ProgressFacts.substring_suffix 15 (String.length name - 15) name)
      as (head & Hhead & Hname); [lia | lia |].
    set (tail := String.substring (String.length name - 15) 15 name) in *.
    assert (String.length tail = 15%nat) as Htail.
    { apply (f_equal String.length) in Hname.
      rewrite ProgressFacts.string_length_app in Hname. lia. }
    split; [| split].
    + rewrite ProgressFacts.string_length_app, Htail. cbn. lia.
    + intros H. lia.
    + intros _. exists head, tail. repeat split; assumption.
  - replace (String.length name - 15)%nat with 0%nat by lia.
    rewrite ProgressFacts.substring_all by exact Hshort.
    split; [lia |]. split; [reflexivity | intros H; lia].
Qed.

(** ** The checks of the arguments *)

(** X16. The checks of lines 101-139 let the run go on exactly when both
    directories are given, exist and differ, both thresholds were given with
    an absolute value of at most 255 (a negative value counts as its absolute
    value, a missing one is refused), and there are exactly two scale factor
    boundaries with the lower one not below 0 and the upper one not at or
    below the lower one. *)
Theorem X16_arguments_accepted (exists_ : string -> bool) (abspath : string -> string)
    (referenceDir targetDir : string) (argX argY : option Z)
    (boundaries : list float) :
  Options.checkArguments exists_ abspath referenceDir targetDir
    (Options.thresholdOption argX) (Options.thresholdOption argY) boundaries = None
  <-> (referenceDir <> EmptyString /\ exists_ referenceDir = true
       /\ targetDir <> EmptyString /\ exists_ targetDir = true
       /\ abspath referenceDir <> abspath targetDir
       /\ (exists x, argX = Some x /\ -255 <= x <= 255)
       /\ (exists y, argY = Some y /\ -255 <= y <= 255)
       /\ exists low high,
           boundaries = [low; high]
           /\ PrimFloat.ltb low 0 = false
           /\ PrimFloat.leb high low = false).
Proof.
  unfold Options.checkArguments. split.
  - destruct (String.eqb_spec referenceDir EmptyString) as [| Hr]; [discriminate |].
    destruct (exists_ referenceDir); [| discriminate].
    destruct (String.eqb_spec targetDir EmptyString) as [| Ht]; [discriminate |].
    destruct (exists_ targetDir); [| discriminate].
    destruct (String.eqb_spec (abspath referenceDir) (abspath targetDir)) as [| Hd];
      [discriminate |].
    cbn [orb negb].
    destruct (Z.leb_spec 0 (Options.thresholdOption argX)) as [Hx0 | ];
      [| discriminate].
    destruct (Z.leb_spec (Options.thresholdOption argX) 255) as [Hx1 | ];
      [| discriminate].
    destruct (Z.leb_spec 0 (Options.thresholdOption argY)) as [Hy0 | ];
      [| discriminate].
    destruct (Z.leb_spec (Options.thresholdOption argY) 255) as [Hy1 | ];
      [| discriminate].
    cbn [andb negb].
    destruct boundaries as [| low [| high [| more boundaries]]]; try discriminate.
    destruct (PrimFloat.ltb low 0) eqn:Hlow; [discriminate |].
    destruct (PrimFloat.leb high low) eqn:Hhigh; [discriminate |].
    intros _. repeat split; try assumption.
    + destruct argX as [x |]; cbn in Hx0, Hx1; [| lia]. exists x. split; [reflexivity | lia].
    + destruct argY as [y |]; cbn in Hy0, Hy1; [| lia]. exists y. split; [reflexivity | lia].
    + exists low, high. repeat split; assumption.
  - intros (Hr & Her & Ht & Het & Hd & (x & -> & Hx) & (y & -> & Hy)
            & low & high & -> & Hlow & Hhigh).
    apply String.eqb_neq in Hr, Ht, Hd. rewrite Hr, Her, Ht, Het, Hd.
    cbn [orb negb Options.thresholdOption].
    replace (0 <=? Z.abs x) with true by (symmetry; apply Z.leb_le; lia).
    replace (Z.abs x <=? 255) with true by (symmetry; apply Z.leb_le; lia).
    replace (0 <=? Z.abs y) with true by (symmetry; apply Z.leb_le; lia).
    replace (Z.abs y <=? 255) with true by (symmetry; apply Z.leb_le; lia).
    cbn [andb negb]. rewrite Hlow, Hhigh. reflexivity.
Qed.

(** X17. The exit status of a refused run: 0 when a directory is missing,
    does not exist or both are the same, 1 for a threshold or a boundary that
    is refused. *)
Theorem X17_exit_status_of_refused_arguments (exists_ : string -> bool)
    (abspath : string -> string) (referenceDir targetDir : string)
    (tresholdReference tresholdTarget : Z) (boundaries : list float)
    (message : string) (status : Z) :
  Options.checkArguments exists_ abspath referenceDir targetDir
    tresholdReference tresholdTarget boundaries = Some (message, status) ->
  (status = 0 \/ status = 1)
  /\ (status = 0 <->
      referenceDir = EmptyString \/ exists_ referenceDir = false
      \/ targetDir = EmptyString \/ exists_ targetDir = false
      \/ abspath referenceDir = abspath targetDir).
Proof.
  unfold Options.checkArguments.
  destruct (String.eqb_spec referenceDir EmptyString) as [Hr | Hr]; cbn [orb].
  { intros H. injection H as _ <-. split; [left; reflexivity |].
    split; [intros _; left; exact Hr | reflexivity]. }
  destruct (exists_ referenceDir) eqn:Her; cbn [negb].
  2:{ intros H. injection H as _ <-. split; [left; reflexivity |].
      split; [intros _; right; left; reflexivity | reflexivity]. }
  destruct (String.eqb_spec targetDir EmptyString) as [Ht | Ht]; cbn [orb].
  { intros H. injection H as _ <-. split; [left; reflexivity |].
    split; [intros _; right; right; left; exact Ht | reflexivity]. }
  destruct (exists_ targetDir) eqn:Het; cbn [negb].
  2:{ intros H. injection H as _ <-. split; [left; reflexivity |].
      split; [intros _; right; right; right; left; reflexivity | reflexivity]. }
  destruct (String.eqb_spec (abspath referenceDir) (abspath targetDir)) as [Hd | Hd].
  { intros H. injection H as _ <-. split; [left; reflexivity |].
    split; [intros _; right; right; right; right; exact Hd | reflexivity]. }
  intros H.
  assert (status = 1) as ->.
  { destruct (negb _); [injection H as _ <-; reflexivity |].
    destruct (negb _); [injection H as _ <-; reflexivity |].
    destruct boundaries as [| low [| high [| more boundaries]]];
      try (injection H as _ <-; reflexivity).
    destruct (PrimFloat.ltb low 0); [injection H as _ <-; reflexivity |].
    destruct (PrimFloat.leb high low); [injection H as _ <-; reflexivity |].
    discriminate H. }
  split; [right; reflexivity |].
  split; [discriminate |].
  intros [H0 | [H0 | [H0 | [H0 | H0]]]]; try contradiction; discriminate H0.
Qed.

Lemma X17_exit_status_of_refused_arguments_witness :
  Options.checkArguments (fun _ => false) (fun p => p) "ref" "tgt" 100 100
    [0x1.e666666666666p-1%float; 0x1.0cccccccccccdp+0%float]
  = Some ("Error: reference folder does not exist."%string, 0)
  /\ (0 = 0 \/ 0 = 1).
Proof.
  split; [reflexivity |].
  apply (X17_exit_status_of_refused_arguments (fun _ => false) (fun p => p)
           "ref" "tgt" 100 100
           [0x1.e666666666666p-1%float; 0x1.0cccccccccccdp+0%float]
           "Error: reference folder does not exist." 0).
  reflexivity.
Defined.

Lemma X15_reported_file_name_witness :
  Progress.referenceFileToReport "mouse_12_section_03.png" = "..._section_03.png"%string.
Proof.
  destruct (X15_reported_file_name "mouse_12_section_03.png") as (_ & _ & H).
  destruct H as (head & tail & Hname & Htail & Hreport); [cbn; lia |].
  assert (String.length head = 8%nat) as Hhead.
  { apply (f_equal String.length) in Hname.
    rewrite ProgressFacts.string_length_app, Htail in Hname. cbn in Hname. lia. }
  do 9 (destruct head as [| ? head]; try discriminate Hhead).
  cbn in Hname. injection Hname as _ _ _ _ _ _ _ _ Hname.
  rewrite Hreport, <- Hname. reflexivity.
Defined.

Lemma X16_arguments_accepted_witness :
  Options.checkArguments (fun _ => true) (fun p => p) "ref" "tgt"
    (Options.thresholdOption (Some (-100))) (Options.thresholdOption (Some 120))
    [0x1.e666666666666p-1%float; 0x1.0cccccccccccdp+0%float] = None.
Proof.
  apply (X16_arguments_accepted (fun _ => true) (fun p => p) "ref" "tgt"
           (Some (-100)) (Some 120)
           [0x1.e666666666666p-1%float; 0x1.0cccccccccccdp+0%float]).
  split; [discriminate |]. split; [reflexivity |].
  split; [discriminate |]. split; [reflexivity |].
  split; [discriminate |].
  split; [exists (-100); split; [reflexivity | lia] |].
  split; [exists 120; split; [reflexivity | lia] |].
  eexists _, _. split; [reflexivity |]. split; vm_compute; reflexivity.
Defined.

(** ** The points handed to the estimators *)

Section PointFacts.

Variable Image : Type.
Variable Descriptors : Type.
Variable cv : OpenCV Image Descriptors.
Variable W : string -> Image -> option PyExc.

Lemma mapM_length {A B : Type} (g : A -> res B) :
  forall (l : list A) (bs : list B),
    mapM g l = Ok bs -> List.length bs = List.length l.
Proof.
  induction l as [| a l IH]; intros bs; cbn [mapM].
  - intros H. injection H as <-. reflexivity.
  - destruct (g a) as [b | e]; cbn [bind]; [| discriminate].
    destruct (mapM g l) as [bs' | e]; cbn [bind]; [| discriminate].
    intros H. injection H as <-. cbn [List.length]. rewrite (IH bs' eq_refl).
    reflexivity.
Qed.

Lemma matchedPoints_lengths (targetBW referenceBW : Image)
    (src dst : list (float * float)) :
  matchedPoints cv targetBW referenceBW = Ok (src, dst) ->
  exists matches kept,
    bfMatch cv (snd (detectAndCompute cv targetBW))
               (snd (detectAndCompute cv referenceBW)) = Ok matches
    /\ Matcher.top90 matches = Ok kept
    /\ List.length src = List.length kept
    /\ List.length dst = List.length kept.
Proof.
  unfold matchedPoints.
  destruct (detectAndCompute cv targetBW) as [kp1 d1].
  destruct (detectAndCompute cv referenceBW) as [kp2 d2]. cbn [snd].
  destruct (bfMatch cv d1 d2) as [matches | e] eqn:Hm; cbn [bind]; [| discriminate].
  destruct (Matcher.top90 matches) as [kept | e] eqn:Hk; cbn [bind]; [| discriminate].
  destruct (mapM _ kept) as [src' | e] eqn:Hsrc; cbn [bind]; [| discriminate].
  destruct (mapM _ kept) as [dst' | e] eqn:Hdst in |- *; cbn [bind]; [| discriminate].
  intros H. injection H as <- <-.
  exists matches, kept.
  split; [reflexivity |]. split; [exact Hk |]. split.
  - apply (mapM_length _ _ _ Hsrc).
  - apply (mapM_length _ _ _ Hdst).
Qed.

End PointFacts.

(** X18. Whenever matching succeeds, the source and destination point lists
    handed to the estimators have the same length, the number of matches kept
    by the truncation: floor(0.9 N) for N raw matches (N at most the 5000
    features ORB is created with). *)
Theorem X18_point_lists_have_the_kept_length (Image Descriptors : Type)
    (cv : OpenCV Image Descriptors) (targetBW referenceBW : Image)
    (src dst : list (float * float)) (matches : list Matcher.DMatch) :
  matchedPoints cv targetBW referenceBW = Ok (src, dst) ->
  bfMatch cv (snd (detectAndCompute cv targetBW))
             (snd (detectAndCompute cv referenceBW)) = Ok matches ->
  Z.of_nat (List.length matches) <= Matcher.orb_nfeatures ->
  List.length src = List.length dst
  /\ Z.of_nat (List.length src) = (9 * Z.of_nat (List.length matches)) / 10.
Proof.
  intros Hpts Hm HN.
  destruct (matchedPoints_lengths Image Descriptors cv targetBW referenceBW src dst Hpts)
    as (matches' & kept & Hm' & Hkept & Hsrc & Hdst).
  rewrite Hm in Hm'. injection Hm' as <-.
  split; [congruence |]. rewrite Hsrc.
  assert (0 <= Z.of_nat (List.length matches)) as HN0 by lia.
  set (N := Z.of_nat (List.length matches)) in *.
  assert (0 <= (9 * N) / 10 <= N) as Hrange by (Z.div_mod_to_equations; lia).
  assert (Matcher.top90 matches
          = Ok (firstn (Z.to_nat ((9 * N) / 10)) (Matcher.sort_by_distance matches)))
    as Hk.
  { unfold Matcher.top90. rewrite MatcherFacts.sort_length. fold N.
    rewrite MatcherFacts.top90_length_floor by lia.
    unfold bind, py_prefix.
    replace ((9 * N) / 10 <? 0) with false by (symmetry; apply Z.ltb_ge; lia).
    reflexivity. }
  pose proof (eq_refl : N = Z.of_nat (List.length matches)) as HNdef.
  clearbody N.
  remember ((9 * N) / 10) as k eqn:Hkdef.
  rewrite Hk in Hkept. injection Hkept as <-.
  rewrite firstn_length_le.
  - rewrite Z2Nat.id by apply Hrange. reflexivity.
  - rewrite MatcherFacts.sort_length. lia.
Qed.

Lemma X18_point_lists_have_the_kept_length_witness :
  exists src dst,
    matchedPoints Demo.cv 1104 2104 = Ok (src, dst)
    /\ List.length src = 4%nat /\ List.length dst = 4%nat.
Proof.
  eexists _, _. split; [vm_compute; reflexivity |].
  destruct (X18_point_lists_have_the_kept_length Z nat Demo.cv 1104 2104
              _ _ Demo.matches ltac:(vm_compute; reflexivity)) as [H1 H2].
  - vm_compute. reflexivity.
  - vm_compute. discriminate.
  - split; reflexivity.
Defined.

(** ** How many attempts a pair can take *)

Module GridSizeFacts.
Import Grid GridFacts.

Lemma ascending_spec_length (s bound : Z) :
  0 < s ->
  List.length (ascending_spec s bound) = Z.to_nat (range_length 0 bound s).
Proof.
  intros Hs. unfold ascending_spec.
  rewrite (count_up_range s bound Hs).
  - rewrite length_map, length_seq. reflexivity.
  - pose proof (range_length_up_le bound s Hs). lia.
Qed.

Lemma descending_spec_length (s d : Z) :
  0 < s ->
  List.length (descending_spec s d) = Z.to_nat (range_length (- s) (- d) (- s)).
Proof.
  intros Hs. unfold descending_spec.
  rewrite (count_down_range s (- d) Hs).
  - rewrite length_map, length_seq. reflexivity.
  - pose proof (range_length_down_le d s Hs). lia.
Qed.

Lemma range_length_up_bound (s bound m : Z) :
  0 < s -> 0 < m -> bound <= m -> range_length 0 bound s <= 1 + (m - 1) / s.
Proof.
  intros Hs Hm Hb.
  assert (0 <= (m - 1) / s) by (apply Z.div_pos; lia).
  destruct (Z_lt_le_dec 0 bound) as [Hpos | Hneg].
  - unfold range_length.
    replace (0 <? s) with true by (symmetry; apply Z.ltb_lt; lia).
    replace (0 <? bound) with true by (symmetry; apply Z.ltb_lt; lia).
    cbn [andb]. rewrite Z.sub_0_r.
    assert ((bound - 1) / s <= (m - 1) / s) by (apply Z.div_le_mono; lia).
    lia.
  - rewrite range_length_up_empty by lia. lia.
Qed.

Lemma range_length_down_bound (s d m : Z) :
  0 < s -> 0 < m -> d <= m -> range_length (- s) (- d) (- s) <= (m - 1) / s.
Proof.
  intros Hs Hm Hd.
  assert (0 <= (m - 1) / s) by (apply Z.div_pos; lia).
  destruct (Z_lt_le_dec (- d) (- s)) as [Hlt | Hge].
  - unfold range_length.
    replace (0 <? - s) with false by (symmetry; apply Z.ltb_ge; lia).
    replace (- s <? 0) with true by (symmetry; apply Z.ltb_lt; lia).
    replace (- d <? - s) with true by (symmetry; apply Z.ltb_lt; lia).
    cbn [andb]. rewrite Z.opp_involutive.
    replace (- s - 1 - - d) with (d - 1 + (- 1) * s) by lia.
    rewrite Z.div_add by lia.
    assert ((d - 1) / s <= (m - 1) / s) by (apply Z.div_le_mono; lia).
    lia.
  - rewrite range_length_down_empty by lia. lia.
Qed.

Lemma offsets_spec_length (b s m : Z) :
  0 < s -> 0 < m ->
  Z.of_nat (List.length (offsets_spec b s m)) <= 1 + 2 * ((m - 1) / s).
Proof.
  intros Hs Hm. unfold offsets_spec.
  rewrite length_app, ascending_spec_length, descending_spec_length by exact Hs.
  pose proof (range_length_up_bound s (Z.min (255 - b) m) m Hs Hm ltac:(lia)).
  pose proof (range_length_down_bound s (Z.min b m) m Hs Hm ltac:(lia)).
  assert (0 <= (m - 1) / s) by (apply Z.div_pos; lia).
  lia.
Qed.

Lemma grid_length (cfg : Config) (f : string) (jrange : list Z) :
  forall irange,
    List.length (grid cfg f irange jrange)
    = (List.length irange * List.length jrange)%nat.
Proof.
  induction irange as [| i irange IH].
  - reflexivity.
  - rewrite grid_cons, length_app, IH. unfold grid. cbn [flat_map].
    rewrite app_nil_r, length_map. cbn [List.length]. lia.
Qed.

End GridSizeFacts.

(** X19. With a positive step s and a positive max change m, a range has at
    most 1 + 2*floor((m-1)/s) offsets, so a reference file takes at most the
    square of that many calls of [alignImages] (19 * 19 with the defaults
    s = 2, m = 20). *)
Theorem X19_bound_on_the_attempts_per_pair (Image : Type)
    (F : Z -> Z -> string -> string -> string -> res (AlignResult Image))
    (W : string -> Image -> option PyExc)
    (cfg : Config) (isfile_ : string -> bool) (nFiles : Z) (f : string)
    (st : MainState Image) :
  let s := tresholdChangeSteps cfg in
  let m := tresholdMaxChange cfg in
  let irange := Grid.offsets_spec (tresholdReferenceImages cfg) s m in
  let jrange := Grid.offsets_spec (tresholdTargetImages cfg) s m in
  0 < s -> 0 < m ->
  exists new,
    attempts (final (processFile F W cfg isfile_ nFiles irange jrange f st))
    = attempts st ++ new
    /\ Z.of_nat (List.length new)
       <= (1 + 2 * ((m - 1) / s)) * (1 + 2 * ((m - 1) / s)).
Proof.
  intros s m irange jrange Hs Hm.
  destruct (processFile_attempts_prefix Image F W cfg isfile_ nFiles irange jrange f st)
    as (k & Hk).
  exists (firstn k (grid cfg f irange jrange)). split; [exact Hk |].
  assert (List.length (firstn k (grid cfg f irange jrange))
          <= List.length irange * List.length jrange)%nat as Hle.
  { rewrite length_firstn, GridSizeFacts.grid_length. apply Nat.le_min_r. }
  pose proof (GridSizeFacts.offsets_spec_length (tresholdReferenceImages cfg) s m Hs Hm)
    as HR.
  pose proof (GridSizeFacts.offsets_spec_length (tresholdTargetImages cfg) s m Hs Hm)
    as HT.
  fold irange in HR. fold jrange in HT.
  set (B := 1 + 2 * ((m - 1) / s)) in *.
  assert (Z.of_nat (List.length irange * List.length jrange) <= B * B).
  { rewrite Nat2Z.inj_mul. apply Z.mul_le_mono_nonneg; lia. }
  lia.
Qed.

Lemma X19_bound_on_the_attempts_per_pair_witness :
  exists new,
    attempts (final (processFile Demo2.twice Demo.write (Demo.cfg 100 100) Demo.isfile 1
                       (Grid.offsets_spec 100 2 20) (Grid.offsets_spec 100 2 20)
                       "a.png" (initialState "out")))
    = new
    /\ Z.of_nat (List.length new) <= 19 * 19.
Proof.
  destruct (X19_bound_on_the_attempts_per_pair Z Demo2.twice Demo.write (Demo.cfg 100 100)
              Demo.isfile 1 "a.png" (initialState "out")) as (new & Hnew & Hlen).
  - cbn. lia.
  - cbn. lia.
  - exists new. split; [exact Hnew | exact Hlen].
Defined.

Section IndependenceFacts.

Variable Image : Type.
Variable F : Z -> Z -> string -> string -> string -> res (AlignResult Image).
Variable W : string -> Image -> option PyExc.

Lemma string_app_nil_r (a : string) : (a ++ EmptyString)%string = a.
Proof.
  induction a as [| x a IH]; cbn [String.append].
  - reflexivity.
  - rewrite IH. reflexivity.
Qed.

(** What one iteration adds does not depend on the state it starts from,
    except that the images go under the output directory variable of that
    state. *)
Lemma processFile_independent (cfg : Config) (isfile_ : string -> bool) (n : Z)
    (irange jrange : list Z) (f : string) :
  boundariesAccepted cfg = true ->
  directoryIndependent W f ->
  exists new lines images slash exc,
    forall st : MainState Image,
      let o := processFile F W cfg isfile_ n irange jrange f st in
      raised o = exc
      /\ attempts (final o) = attempts st ++ new
      /\ logFile (final o) = logFile st ++ lines
      /\ written (final o) = written st ++ underDirectory (outputDirectory st) images
      /\ outputDirectory (final o) = (outputDirectory st ++ slash)%string.
Proof.
  intros Hb Hind.
  destruct (isfile_ (targetFilesDirectory cfg ++ "/" ++ f)%string) eqn:Hfile.
  2:{ exists [], [], [], EmptyString, None. intros st. cbn zeta.
      unfold processFile. rewrite Hfile. cbn.
      rewrite !app_nil_r, string_app_nil_r. repeat split. }
  destruct (first_not_rejected Image F cfg (grid cfg f irange jrange))
    as [Hall | (pre & c & post & Hgrid & Hpre & [(r & Hc & Hin) | (e & Hc)])].
  - exists (grid cfg f irange jrange), [LogUnsuccessful f], [], EmptyString, None.
    intros st. cbn zeta.
    destruct (processFile_exhausted Image F W cfg isfile_ n irange jrange f st
                Hb Hfile Hall) as (st' & -> & Hatt & Hlog & Hwr & _ & Hdir & _).
    cbn [raised final underDirectory map].
    rewrite Hatt, Hlog, Hwr, Hdir, app_nil_r, string_app_nil_r. repeat split.
  - set (aligned := LogAligned f (fst (fst c)) (snd (fst c))
                               (res_rotationAngle r) (res_scaleFactor r)).
    assert (forall (st : MainState Image) name img,
               In name (outputNames f) ->
               W ((outputDirectory st ++ "/") ++ name)%string img
               = W ((EmptyString ++ "/") ++ name)%string img) as Hany
        by (intros st name img Hname; apply Hind; exact Hname).
    destruct (W ((EmptyString ++ "/") ++ f)%string (res_transformedImage r))
      as [e1 |] eqn:H1.
    { exists (pre ++ [c]),
             (aligned :: (if is_Exception e1 then [LogError f e1] else [])),
             [], "/"%string,
             (if is_Exception e1 then None else Some e1).
      intros st. cbn zeta.
      destruct (processFile_write_raises Image F W cfg isfile_ n irange jrange
                  f st pre post c r e1 Hb Hfile Hgrid Hpre Hc Hin)
        as (st' & Hrun & Hatt & Hlog & Hwr & _ & Hdir & _).
      { rewrite Hany by (left; reflexivity). exact H1. }
      rewrite Hrun.
      destruct (is_Exception e1); cbn [raised final underDirectory map];
        rewrite Hatt, Hlog, Hwr, Hdir, app_nil_r; repeat split. }
    destruct (suppressOverlapImages cfg) eqn:Hsup.
    { exists (pre ++ [c]), [aligned], [(f, res_transformedImage r)], "/"%string, None.
      intros st. cbn zeta.
      destruct (processFile_accepted Image F W cfg isfile_ n irange jrange f st
                  pre post c r Hb Hfile Hgrid Hpre Hc Hin)
        as (st' & -> & Hatt & Hlog & Hwr & _ & Hdir & _).
      { rewrite Hany by (left; reflexivity). exact H1. }
      { rewrite Hsup. discriminate. }
      cbn [raised final underDirectory map fst snd].
      rewrite Hatt, Hlog, Hwr, Hdir, Hsup. repeat split. }
    destruct (W ((EmptyString ++ "/") ++ "overlap/" ++ f)%string
                (res_alignedImageOverlapedWithRefImage r)) as [e2 |] eqn:H2.
    { exists (pre ++ [c]),
             (aligned :: (if is_Exception e2 then [LogError f e2] else [])),
             [(f, res_transformedImage r)], "/"%string,
             (if is_Exception e2 then None else Some e2).
      intros st. cbn zeta.
      destruct (processFile_overlap_write_raises Image F W cfg isfile_ n
                  irange jrange f st pre post c r e2
                  Hb Hfile Hgrid Hpre Hc Hin)
        as (st' & Hrun & Hatt & Hlog & Hwr & _ & Hdir & _).
      { rewrite Hany by (left; reflexivity). exact H1. }
      { exact Hsup. }
      { rewrite Hany by (right; left; reflexivity). exact H2. }
      rewrite Hrun.
      destruct (is_Exception e2); cbn [raised final underDirectory map fst snd];
        rewrite Hatt, Hlog, Hwr, Hdir; repeat split. }
    exists (pre ++ [c]), [aligned],
           [(f, res_transformedImage r);
            (("overlap/" ++ f)%string, res_alignedImageOverlapedWithRefImage r)],
           "/"%string, None.
    intros st. cbn zeta.
    destruct (processFile_accepted Image F W cfg isfile_ n irange jrange f st
                pre post c r Hb Hfile Hgrid Hpre Hc Hin)
      as (st' & -> & Hatt & Hlog & Hwr & _ & Hdir & _).
    { rewrite Hany by (left; reflexivity). exact H1. }
    { intros _. rewrite Hany by (right; left; reflexivity). exact H2. }
    cbn [raised final underDirectory map fst snd].
    rewrite Hatt, Hlog, Hwr, Hdir, Hsup. repeat split.
  - destruct (is_Exception e) eqn:Hexc.
    + exists (pre ++ [c]), [LogError f e], [], EmptyString, None.
      intros st. cbn zeta.
      destruct (processFile_attempt_raises Image F W cfg isfile_ n irange jrange
                  f st pre post c e Hb Hfile Hgrid Hpre Hc Hexc)
        as (st' & -> & Hatt & Hlog & Hwr & _ & Hdir & _).
      cbn [raised final underDirectory map].
      rewrite Hatt, Hlog, Hwr, Hdir, app_nil_r, string_app_nil_r. repeat split.
    + assert (e = KeyboardInterrupt) as -> by (destruct e; try discriminate; reflexivity).
      exists (pre ++ [c]), [], [], EmptyString, (Some KeyboardInterrupt).
      intros st. cbn zeta.
      destruct (processFile_interrupted Image F W cfg isfile_ n irange jrange
                  f st pre post c Hb Hfile Hgrid Hpre Hc)
        as (st' & -> & Hatt & Hlog & Hwr & _ & Hdir).
      cbn [raised final underDirectory map].
      rewrite Hatt, Hlog, Hwr, Hdir, !app_nil_r, string_app_nil_r. repeat split.
Qed.

End IndependenceFacts.

(** X20. What a pair adds to the run does not depend on the pairs processed
    before it, except for the directory part of the paths: whatever the state
    left by the earlier files, the same attempts are made, the same lines are
    logged, the iteration ends the same way, and the same images are written
    under the same names, in the directory that the output directory variable
    names at that moment (it has one more slash after every accepted pair).
    This holds for a [cv2.imwrite] whose outcome for the images of the pair
    does not depend on the directory. *)
Theorem X20_pairs_are_independent (Image : Type)
    (F : Z -> Z -> string -> string -> string -> res (AlignResult Image))
    (W : string -> Image -> option PyExc)
    (cfg : Config) (isfile_ : string -> bool) (nFiles : Z)
    (irange jrange : list Z) (f : string) :
  boundariesAccepted cfg = true ->
  directoryIndependent W f ->
  exists new lines images slash exc,
    forall st : MainState Image,
      let o := processFile F W cfg isfile_ nFiles irange jrange f st in
      raised o = exc
      /\ attempts (final o) = attempts st ++ new
      /\ logFile (final o) = logFile st ++ lines
      /\ written (final o) = written st ++ underDirectory (outputDirectory st) images
      /\ outputDirectory (final o) = (outputDirectory st ++ slash)%string.
Proof.
  intros Hb Hind.
  destruct (processFile_independent Image F W cfg isfile_ nFiles irange jrange f
              Hb Hind) as (new & lines & images & slash & exc & H).
  exists new, lines, images, slash, exc. exact H.
Qed.

Lemma X20_pairs_are_independent_witness :
  exists new lines images slash exc,
    forall st : MainState Z,
      let o := processFile Demo.align Demo.write (Demo.cfg 100 104) Demo.isfile 2
                 (Grid.offsets_spec 100 2 20) (Grid.offsets_spec 104 2 20)
                 "b.png" st in
      raised o = exc
      /\ attempts (final o) = attempts st ++ new
      /\ logFile (final o) = logFile st ++ lines
      /\ written (final o) = written st ++ underDirectory (outputDirectory st) images
      /\ outputDirectory (final o) = (outputDirectory st ++ slash)%string.
Proof.
  apply (X20_pairs_are_independent Z Demo.align Demo.write (Demo.cfg 100 104) Demo.isfile 2
           (Grid.offsets_spec 100 2 20) (Grid.offsets_spec 104 2 20) "b.png").
  - vm_compute. reflexivity.
  - intros d d' name img Hname. reflexivity.
Defined.
